(** * Expense ledger of ExpenseScreen.js

    A shallow embedding of the validation, date-window, filter and
    aggregation code of [src/ExpenseScreen.js], together with the part of
    ECMAScript it runs on:

    - JavaScript numbers are IEEE 754 binary64 values, the primitive
      [float] of Rocq, with its own [+], [/], [*] and comparisons;
    - JavaScript strings are sequences of code units; the development
      handles the code units below 256 (type [ascii]);
    - a [Date] is its time value, an integer number of milliseconds since
      the epoch, or no value for an invalid date;
    - the object built by [totalsByCategory] is the ordered list of its own
      properties, which hold numbers.  That is the object of the code when
      no category is the name of a member of [Object.prototype]
      ([plainCategories]); the module [WithPrototype] has the object with
      what it inherits, for the categories that are.

    The file has the host functions first (strings, numbers, dates), then
    the screen, its handlers and its first version, then the properties of
    validation, of the week window, of the filter pipeline and of the
    aggregates, and then those of the form, the table, the rows of the
    list, the month window and the chart. *)

From Stdlib Require Import ZArith List Bool Ascii String Lia Floats.
From Stdlib Require Import DecimalString.
Import ListNotations.

Local Open Scope Z_scope.
Local Open Scope bool_scope.

(* ================================================================== *)
(** * Strings *)
(* ================================================================== *)

Module JsString.

Definition codeUnit (c : ascii) : Z := Z.of_N (N_of_ascii c).

Definition isDigit (c : ascii) : bool :=
  (48 <=? codeUnit c) && (codeUnit c <=? 57).

Definition digitValue (c : ascii) : Z := codeUnit c - 48.

Definition isChar (x c : ascii) : bool := Ascii.eqb x c.

(** [StrWhiteSpaceChar] below code unit 256: TAB, LF, VT, FF, CR, SP and
    NBSP. *)
Definition isWhiteSpace (c : ascii) : bool :=
  let n := codeUnit c in
  ((9 <=? n) && (n <=? 13)) || (n =? 32) || (n =? 160).

Fixpoint dropWhiteSpace (l : list ascii) : list ascii :=
  match l with
  | c :: tl => if isWhiteSpace c then dropWhiteSpace tl else l
  | [] => []
  end.

Definition trimStart (s : string) : string :=
  string_of_list_ascii (dropWhiteSpace (list_ascii_of_string s)).

Definition trimEnd (s : string) : string :=
  string_of_list_ascii
    (rev (dropWhiteSpace (rev (list_ascii_of_string s)))).

(** [String.prototype.trim] *)
Definition trim (s : string) : string := trimEnd (trimStart s).

(** A string is truthy when it is not empty. *)
Definition truthy (s : string) : bool :=
  match s with EmptyString => false | _ => true end.

(** [/^\d{4}-\d{2}-\d{2}$/.test(s)] *)
Definition isoDatePattern (s : string) : bool :=
  match list_ascii_of_string s with
  | [y1; y2; y3; y4; h1; m1; m2; h2; d1; d2] =>
      isDigit y1 && isDigit y2 && isDigit y3 && isDigit y4 &&
      isChar h1 "-" && isDigit m1 && isDigit m2 &&
      isChar h2 "-" && isDigit d1 && isDigit d2
  | _ => false
  end.

(** [s.slice(0, 10)] *)
Definition slice_0_10 (s : string) : string := substring 0 10 s.

(** Value of a run of decimal digits, none if another character occurs. *)
Definition readDigits (l : list ascii) : option Z :=
  if forallb isDigit l
  then Some (fold_left (fun a c => 10 * a + digitValue c) l 0)
  else None.

Definition digitChar (d : Z) : ascii := ascii_of_N (Z.to_N (48 + d)).

(** The [w] low decimal digits of [n], most significant first. *)
Fixpoint fixedDigits (w : nat) (n : Z) : list ascii :=
  match w with
  | O => []
  | S k => fixedDigits k (n / 10) ++ [digitChar (n mod 10)]
  end.

Definition padded (w : nat) (n : Z) : string :=
  string_of_list_ascii (fixedDigits w n).

(** Decimal numeral of a natural number, ["0"] for zero. *)
Definition decimal (n : Z) : string :=
  NilZero.string_of_uint (N.to_uint (Z.to_N n)).

End JsString.

(* ================================================================== *)
(** * Dates: time values, the calendar, parsing and printing *)
(* ================================================================== *)

Module JsDate.
Import JsString.

Definition msPerDay : Z := 86400000.

Definition Day (t : Z) : Z := t / msPerDay.
Definition TimeWithinDay (t : Z) : Z := t mod msPerDay.

Definition DayFromYear (y : Z) : Z :=
  365 * (y - 1970) + (y - 1969) / 4 - (y - 1901) / 100 + (y - 1601) / 400.

Definition isLeapYear (y : Z) : bool :=
  if negb (y mod 4 =? 0) then false
  else if negb (y mod 100 =? 0) then true
  else if negb (y mod 400 =? 0) then false
  else true.

Definition DaysInYear (y : Z) : Z := if isLeapYear y then 366 else 365.

(** The year of day number [d]: the largest [y] with
    [DayFromYear y <= d] (lemma [YearFromDay_spec]).  The day is reduced
    to the 400-year cycle starting on 1 January 2000 (day 10957). *)
Definition YearFromDay (d : Z) : Z :=
  let z := d - 10957 in
  let era := z / 146097 in
  let doe := z mod 146097 in
  let c := doe / 365 in
  let yoe := if DayFromYear (2000 + c) - 10957 <=? doe then c else c - 1 in
  2000 + 400 * era + yoe.

Definition YearFromTime (t : Z) : Z := YearFromDay (Day t).

Definition InLeapYear (t : Z) : Z :=
  if isLeapYear (YearFromTime t) then 1 else 0.

Definition DayWithinYear (t : Z) : Z := Day t - DayFromYear (YearFromTime t).

(** Day within the year of the first day of month [m] (0 = January). *)
Definition firstDayOfMonth (leap m : Z) : Z :=
  match m with
  | 0 => 0
  | 1 => 31
  | 2 => 59 + leap
  | 3 => 90 + leap
  | 4 => 120 + leap
  | 5 => 151 + leap
  | 6 => 181 + leap
  | 7 => 212 + leap
  | 8 => 243 + leap
  | 9 => 273 + leap
  | 10 => 304 + leap
  | _ => 334 + leap
  end.

Definition monthOfDayWithinYear (leap d : Z) : Z :=
  if d <? 31 then 0
  else if d <? 59 + leap then 1
  else if d <? 90 + leap then 2
  else if d <? 120 + leap then 3
  else if d <? 151 + leap then 4
  else if d <? 181 + leap then 5
  else if d <? 212 + leap then 6
  else if d <? 243 + leap then 7
  else if d <? 273 + leap then 8
  else if d <? 304 + leap then 9
  else if d <? 334 + leap then 10
  else 11.

Definition MonthFromTime (t : Z) : Z :=
  monthOfDayWithinYear (InLeapYear t) (DayWithinYear t).

Definition DateFromTime (t : Z) : Z :=
  DayWithinYear t - firstDayOfMonth (InLeapYear t) (MonthFromTime t) + 1.

Definition HourFromTime (t : Z) : Z := (t / 3600000) mod 24.
Definition MinFromTime (t : Z) : Z := (t / 60000) mod 60.
Definition SecFromTime (t : Z) : Z := (t / 1000) mod 60.
Definition msFromTime (t : Z) : Z := t mod 1000.

(** [MakeDay(year, month, date)] on integers: the day number of the first
    of the month, plus [date - 1]; [date] may be zero or negative. *)
Definition MakeDay (year month date : Z) : Z :=
  let ym := year + month / 12 in
  let mn := month mod 12 in
  DayFromYear ym
  + firstDayOfMonth (if isLeapYear ym then 1 else 0) mn
  + date - 1.

Definition MakeDate (day time : Z) : Z := day * msPerDay + time.

(** [TimeClip]: time values beyond 8.64e15 ms are invalid. *)
Definition TimeClip (t : Z) : option Z :=
  if Z.abs t <=? 8640000000000000 then Some t else None.

Definition DaysInMonth (y m : Z) : Z :=
  let leap := if isLeapYear y then 1 else 0 in
  if m =? 11 then 31
  else firstDayOfMonth leap (m + 1) - firstDayOfMonth leap m.

(** ** The date-only forms of the date-time string format

    [YYYY], [YYYY-MM] and [YYYY-MM-DD], the year possibly in the
    expanded form of a sign and six digits; they denote midnight UTC. *)

Definition utcMidnight (y m d : Z) : option Z :=
  if (1 <=? m) && (m <=? 12) && (1 <=? d) && (d <=? DaysInMonth y (m - 1))
  then TimeClip (MakeDate (MakeDay y (m - 1) d) 0)
  else None.

Definition parseMonthDay (y : Z) (rest : list ascii) : option Z :=
  match rest with
  | [] => utcMidnight y 1 1
  | [h1; m1; m2] =>
      if isChar h1 "-" then
        match readDigits [m1; m2] with
        | Some m => utcMidnight y m 1
        | None => None
        end
      else None
  | [h1; m1; m2; h2; d1; d2] =>
      if isChar h1 "-" && isChar h2 "-" then
        match readDigits [m1; m2], readDigits [d1; d2] with
        | Some m, Some d => utcMidnight y m d
        | _, _ => None
        end
      else None
  | _ => None
  end.

Definition parseIsoDateOnly (s : string) : option Z :=
  match list_ascii_of_string s with
  | [] => None
  | c :: tl =>
      if isChar c "+" || isChar c "-" then
        if (6 <=? Z.of_nat (List.length tl)) then
          match readDigits (firstn 6 tl) with
          | Some y =>
              if isChar c "-" then
                if y =? 0 then None else parseMonthDay (- y) (skipn 6 tl)
              else parseMonthDay y (skipn 6 tl)
          | None => None
          end
        else None
      else
        if (4 <=? Z.of_nat (List.length (c :: tl))) then
          match readDigits (firstn 4 (c :: tl)) with
          | Some y => parseMonthDay y (skipn 4 (c :: tl))
          | None => None
          end
        else None
  end.

(** ** [Date.prototype.toISOString] *)

Definition isoYear (y : Z) : string :=
  if ((0 <=? y) && (y <=? 9999))%Z then padded 4 y
  else ((if (y <? 0)%Z then "-" else "+") ++ padded 6 (Z.abs y))%string.

Definition toISOString (t : Z) : string :=
  (isoYear (YearFromTime t) ++ "-" ++ padded 2 (MonthFromTime t + 1)
   ++ "-" ++ padded 2 (DateFromTime t)
   ++ "T" ++ padded 2 (HourFromTime t) ++ ":" ++ padded 2 (MinFromTime t)
   ++ ":" ++ padded 2 (SecFromTime t) ++ "." ++ padded 3 (msFromTime t)
   ++ "Z")%string.

End JsDate.

(* ================================================================== *)
(** * Numbers: truthiness, [parseFloat] and [toFixed(1)] *)
(* ================================================================== *)

Module JsNumber.
Import JsString.

Definition isNaN (x : float) : bool := is_nan x.

(** A number is falsy when it is [+0], [-0] or [NaN]. *)
Definition truthy (x : float) : bool := negb (is_nan x || is_zero x).

(** The double nearest to [m * 10 ^ e10] (ties to even), with the sign
    [neg]; [m] is the value of the digits read.  Exponents that cannot
    give a finite non-zero double are answered without computing the
    power of ten. *)
Definition decimalToFloat (neg : bool) (m e10 : Z) : float :=
  let signed (f : float) := if neg then (- f)%float else f in
  if m <=? 0 then signed zero
  else if 400 <? e10 then signed infinity
  else if Z.log2 m + 1076 <? 3 * (- e10) then signed zero
  else if 0 <=? e10 then
    SF2Prim (binary_normalize prec emax
               (if neg then - (m * 10 ^ e10) else m * 10 ^ e10) 0 false)
  else
    let '(q, e2, loc) := SFdiv_core_binary prec emax m 0 (10 ^ (- e10)) 0 in
    SF2Prim (binary_round_aux prec emax neg q e2 loc).

Fixpoint spanDigits (l : list ascii) : list ascii * list ascii :=
  match l with
  | c :: tl =>
      if isDigit c
      then let '(ds, rest) := spanDigits tl in (c :: ds, rest)
      else ([], l)
  | [] => ([], [])
  end.

Definition digitsValue (ds : list ascii) : Z :=
  fold_left (fun a c => 10 * a + digitValue c) ds 0.

Fixpoint startsWith (p l : list ascii) : bool :=
  match p, l with
  | [], _ => true
  | x :: p', y :: l' => Ascii.eqb x y && startsWith p' l'
  | _ :: _, [] => false
  end.

(** The exponent part [e] or [E], an optional sign and one digit at
    least; 0 when the text does not continue with one. *)
Definition scanExponent (l : list ascii) : Z :=
  match l with
  | c :: tl =>
      if isChar c "e" || isChar c "E" then
        let '(neg, tl') :=
          match tl with
          | s :: tl2 =>
              if isChar s "-" then (true, tl2)
              else if isChar s "+" then (false, tl2)
              else (false, tl)
          | [] => (false, tl)
          end in
        match fst (spanDigits tl') with
        | [] => 0
        | ds => if neg then - digitsValue ds else digitsValue ds
        end
      else 0
  | [] => 0
  end.

(** The longest prefix that is a [StrUnsignedDecimalLiteral]. *)
Definition scanUnsigned (neg : bool) (l : list ascii) : float :=
  if startsWith (list_ascii_of_string "Infinity") l
  then (if neg then neg_infinity else infinity)
  else
    let '(ip, r1) := spanDigits l in
    let '(fp, r2) :=
      match r1 with
      | c :: tl => if isChar c "." then spanDigits tl else ([], r1)
      | [] => ([], r1)
      end in
    match ip ++ fp with
    | [] => nan
    | ds =>
        decimalToFloat neg (digitsValue ds)
          (scanExponent r2 - Z.of_nat (List.length fp))
    end.

(** [parseFloat] of a string *)
Definition parseFloat (s : string) : float :=
  match dropWhiteSpace (list_ascii_of_string s) with
  | c :: tl =>
      if isChar c "-" then scanUnsigned true tl
      else if isChar c "+" then scanUnsigned false tl
      else scanUnsigned false (c :: tl)
  | [] => nan
  end.

(** [parseFloat] of a number, which reads back the text [ToString] gives
    for it: the number itself, since that text is the shortest one that
    reads back to the same double, except that [-0] prints as ["0"]. *)
Definition parseFloatOfNumber (x : float) : float :=
  if is_zero x then zero else x.

(** ** [Number.prototype.toFixed] with one fraction digit

    [n] is the integer for which [n / 10] is nearest to the exact value
    of the double, the larger one at a tie. *)
Definition tenthsOf (m : positive) (e : Z) : Z :=
  if 0 <=? e then 10 * Zpos m * 2 ^ e
  else (20 * Zpos m + 2 ^ (- e)) / 2 ^ (1 - e).

Definition fixed1Digits (n : Z) : string :=
  (decimal (n / 10) ++ "." ++ String (digitChar (n mod 10)) "")%string.

(** [numberToString] stands for [Number::toString] on the finite values
    of magnitude 1e21 and more, which [toFixed] hands over to it. *)
Definition toFixed1 (numberToString : float -> string) (x : float)
  : string :=
  match Prim2SF x with
  | S754_nan => "NaN"
  | S754_infinity s => if s then "-Infinity" else "Infinity"
  | S754_zero _ => "0.0"
  | S754_finite s m e =>
      if (1e21 <=? abs x)%float
      then ((if s then "-" else "") ++ numberToString (abs x))%string
      else ((if s then "-" else "") ++ fixed1Digits (tenthsOf m e))%string
  end.

(** The value of a finite double in units of [2^-1074], the smallest
    positive double: an integer, since no double has a smaller exponent. *)
Definition toUnits (x : float) : option Z :=
  match Prim2SF x with
  | S754_zero _ => Some 0
  | S754_finite s m e =>
      Some ((if s then Zneg m else Zpos m) * 2 ^ (e + 1074))
  | _ => None
  end.

Definition isFinite (x : float) : bool := is_finite x.

End JsNumber.

(* ================================================================== *)
(** * Rows of the [expenses] table *)
(* ================================================================== *)

(** What a column of a row read from the table may hold. *)
Inductive JsValue :=
| VUndefined
| VNull
| VNumber (x : float)
| VString (s : string).

(** [parseFloat(v)] converts [v] to a string first; ["null"] and
    ["undefined"] are not numerals. *)
Definition parseFloatValue (v : JsValue) : float :=
  match v with
  | VString s => JsNumber.parseFloat s
  | VNumber x => JsNumber.parseFloatOfNumber x
  | VNull | VUndefined => nan
  end.

(** A row of [SELECT * FROM expenses]: [amount REAL NOT NULL],
    [category TEXT NOT NULL], [note TEXT], [date TEXT]; [None] is SQL
    NULL, or a column the row does not have. *)
Module Row.
Record t := make {
  id : Z;
  amount : JsValue;
  category : option string;
  note : option string;
  date : option string
}.
End Row.

(** The object that [totalsByCategory] builds: its own properties in
    creation order, keyed by category, each holding a number.  What the
    object inherits from [Object.prototype] is not in this type: see
    [WithPrototype] for the keys that meet it. *)
Definition JsObject := list (string * float).

Module Obj.
Import JsString.

Fixpoint get (o : JsObject) (k : string) : option float :=
  match o with
  | [] => None
  | (k', v) :: tl => if String.eqb k' k then Some v else get tl k
  end.

(** [o[k] = v]: an existing property keeps its place. *)
Fixpoint set (o : JsObject) (k : string) (v : float) : JsObject :=
  match o with
  | [] => [(k, v)]
  | (k', v') :: tl =>
      if String.eqb k' k then (k', v) :: tl else (k', v') :: set tl k v
  end.

(** An array index is a canonical numeral below [2^32 - 1]. *)
Definition arrayIndex (k : string) : option Z :=
  match list_ascii_of_string k with
  | [] => None
  | c :: tl =>
      if isChar c "0" && negb (Nat.eqb (List.length tl) 0) then None
      else match readDigits (c :: tl) with
           | Some n => if n <? 4294967295 then Some n else None
           | None => None
           end
  end.

Fixpoint insertIndexed (e : Z * (string * float))
  (l : list (Z * (string * float))) : list (Z * (string * float)) :=
  match l with
  | [] => [e]
  | e' :: tl => if fst e <? fst e' then e :: l else e' :: insertIndexed e tl
  end.

Definition indexed (o : JsObject) : list (Z * (string * float)) :=
  flat_map (fun e => match arrayIndex (fst e) with
                     | Some n => [(n, e)]
                     | None => []
                     end) o.

Definition named (o : JsObject) : JsObject :=
  List.filter (fun e => match arrayIndex (fst e) with
                        | Some _ => false
                        | None => true
                        end) o.

(** [Object.entries(o)]: array indices first, in ascending order, then
    the other keys in creation order. *)
Definition entries (o : JsObject) : list (string * float) :=
  map snd (fold_right insertIndexed [] (indexed o)) ++ named o.

Definition values (o : JsObject) : list float := map snd (entries o).
Definition keys (o : JsObject) : list string := map fst (entries o).

End Obj.

(** [Array.prototype.sort(cmp)], a stable sort: an element moves behind a
    later one only when [cmp] is positive on the two.  This is the order
    every engine gives for a comparator that is consistent, which
    [b[1] - a[1]] is when no total is [NaN]; for a comparator that is not,
    the order is left to the engine and only the elements are known. *)
Section Sort.
Context {A : Type} (cmp : A -> A -> float).

Fixpoint insertSorted (x : A) (l : list A) : list A :=
  match l with
  | [] => [x]
  | y :: tl =>
      if (0 <? cmp x y)%float then y :: insertSorted x tl else x :: l
  end.

Definition sort (l : list A) : list A := fold_right insertSorted [] l.
End Sort.

(* ================================================================== *)
(** * The screen *)
(* ================================================================== *)

(** The exits of [addExpense]: the two early returns and the stored
    record. *)
Inductive Outcome := InvalidAmount | MissingCategory | Saved.

(** The table: its rows and the next [AUTOINCREMENT] key. *)
Record Db := { rows : list Row.t; nextId : Z }.

(** The state of the component ([useState]). *)
Module State.
Record t := make {
  expenses : list Row.t;
  amount : string;
  category : string;
  note : string;
  date : string;
  filter : string;
  categoryFilter : string;
  editingId : option Z
}.
End State.

(** What the component renders. *)
Module View.
Record t := make {
  visibleTotal : float;
  pieData : JsObject;
  legend : list (string * string);
  byCategoryAll : float;
  byCategoryRows : list (string * float);
  listData : list Row.t
}.
End View.

Section Screen.
Import JsString JsDate JsNumber.

(** The host: the offset of local time from UTC in milliseconds (a zone
    without transitions), what [Date.parse] makes of the strings that
    are not a date-only form, and [Number::toString] on large values. *)
Variable LocalTZA : Z.
Variable hostDateParse : string -> option Z.
Variable numberToString : float -> string.

Definition LocalTime (t : Z) : Z := t + LocalTZA.
Definition UTC (t : Z) : Z := t - LocalTZA.

(** A [Date] object is its time value; [None] is the invalid date. *)
Definition Date := option Z.

(** [new Date(s)] for a string [s] *)
Definition Date_parse (s : string) : Date :=
  match parseIsoDateOnly s with
  | Some t => Some t
  | None =>
      match hostDateParse s with
      | Some t => TimeClip t
      | None => None
      end
  end.

Definition getTime (d : Date) : option Z := d.

Definition getFullYear (d : Date) : option Z :=
  option_map (fun t => YearFromTime (LocalTime t)) d.

Definition getMonth (d : Date) : option Z :=
  option_map (fun t => MonthFromTime (LocalTime t)) d.

Definition getDate (d : Date) : option Z :=
  option_map (fun t => DateFromTime (LocalTime t)) d.

(** [new Date(year, month, date)]: local midnight; a year from 0 to 99
    stands for 1900 to 1999. *)
Definition Date_ymd (year month date : option Z) : Date :=
  match year, month, date with
  | Some y, Some m, Some dt =>
      let yr := if (0 <=? y) && (y <=? 99) then 1900 + y else y in
      TimeClip (UTC (MakeDate (MakeDay yr m dt) 0))
  | _, _, _ => None
  end.

(** [d.setDate(dt)]: the time value [d] has afterwards *)
Definition setDate (d : Date) (dt : option Z) : Date :=
  match d, dt with
  | Some t0, Some dt =>
      let t := LocalTime t0 in
      TimeClip (UTC (MakeDate
                       (MakeDay (YearFromTime t) (MonthFromTime t) dt)
                       (TimeWithinDay t)))
  | _, _ => None
  end.

(** [a >= b] and [x === y] on time values and date fields; an invalid
    date compares false. *)
Definition Date_ge (a b : Date) : bool :=
  match a, b with
  | Some x, Some y => y <=? x
  | _, _ => false
  end.

Definition strictEq (x y : option Z) : bool :=
  match x, y with
  | Some a, Some b => a =? b
  | _, _ => false
  end.

(** ** [loadExpenses], [addExpense], [deleteExpense] *)

Fixpoint insertById (r : Row.t) (l : list Row.t) : list Row.t :=
  match l with
  | [] => [r]
  | r' :: tl =>
      if Row.id r' <? Row.id r then r :: l else r' :: insertById r tl
  end.

(** [SELECT * FROM expenses ORDER BY id DESC] *)
Definition loadExpenses (db : Db) : list Row.t :=
  fold_right insertById [] (rows db).

Definition insertRow (db : Db) (amount : float) (category : string)
  (note date : option string) : Db :=
  {| rows := rows db
             ++ [Row.make (nextId db) (VNumber amount) (Some category)
                   note date];
     nextId := nextId db + 1 |}.

Definition updateRow (db : Db) (id : Z) (amount : float)
  (category : string) (note date : option string) : Db :=
  {| rows := map (fun r => if Row.id r =? id
                           then Row.make id (VNumber amount)
                                  (Some category) note date
                           else r) (rows db);
     nextId := nextId db |}.

Definition deleteRow (db : Db) (id : Z) : Db :=
  {| rows := List.filter (fun r => negb (Row.id r =? id)) (rows db);
     nextId := nextId db |}.

(** The value of [dateIso] at the end of the date block of
    [addExpense]. *)
Definition dateIso (date : string) : option string :=
  if JsString.truthy date then
    if isoDatePattern date then Some date
    else
      match getTime (Date_parse date) with
      | Some t => Some (slice_0_10 (toISOString t))
      | None => None
      end
  else None.

Definition addExpense (db : Db) (st : State.t)
  : Outcome * Db * State.t :=
  let amountNumber := parseFloat (State.amount st) in
  if isNaN amountNumber || (amountNumber <=? 0)%float then
    (InvalidAmount, db, st)
  else
    let trimmedCategory := trim (State.category st) in
    let trimmedNote := trim (State.note st) in
    if negb (JsString.truthy trimmedCategory) then
      (MissingCategory, db, st)
    else
      let noteOrNull :=
        if JsString.truthy trimmedNote then Some trimmedNote else None in
      let db' :=
        match State.editingId st with
        | Some id =>
            updateRow db id amountNumber trimmedCategory noteOrNull
              (dateIso (State.date st))
        | None =>
            insertRow db amountNumber trimmedCategory noteOrNull
              (dateIso (State.date st))
        end in
      (Saved, db',
       State.make (loadExpenses db') "" "" "" ""
         (State.filter st) (State.categoryFilter st) None).

Definition deleteExpense (db : Db) (st : State.t) (id : Z)
  : Db * State.t :=
  let db' := deleteRow db id in
  (db',
   State.make (loadExpenses db') (State.amount st) (State.category st)
     (State.note st) (State.date st) (State.filter st)
     (State.categoryFilter st) (State.editingId st)).

(** ** The derived values of the component body *)

(** The callback of [expenses.filter] that selects the time window;
    [now] is what [new Date()] returns during the call. *)
Definition inTimeWindow (filter : string) (now : Z) (item : Row.t)
  : bool :=
  if String.eqb filter "all" then true
  else
    match Row.date item with
    | None => false
    | Some s =>
        if negb (JsString.truthy s) then false
        else
          let d := Date_parse s in
          match getTime d with
          | None => false
          | Some _ =>
              let now : Date := Some now in
              if String.eqb filter "week" then
                let sevenDaysAgo :=
                  setDate now (option_map (fun n => n - 6) (getDate now)) in
                let dateOnly :=
                  Date_ymd (getFullYear d) (getMonth d) (getDate d) in
                Date_ge dateOnly
                  (Date_ymd (getFullYear sevenDaysAgo)
                     (getMonth sevenDaysAgo) (getDate sevenDaysAgo))
              else if String.eqb filter "month" then
                strictEq (getFullYear d) (getFullYear now)
                && strictEq (getMonth d) (getMonth now)
              else true
          end
    end.

Definition filteredExpenses (expenses : list Row.t) (filter : string)
  (now : Z) : list Row.t :=
  List.filter (inTimeWindow filter now) expenses.

(** [isNaN(n) ? 0 : n] for [n = parseFloat(it.amount)] *)
Definition amountOrZero (it : Row.t) : float :=
  let n := parseFloatValue (Row.amount it) in
  if isNaN n then zero else n.

(** [it.category || 'Other'] *)
Definition categoryOrOther (it : Row.t) : string :=
  match Row.category it with
  | Some c => if JsString.truthy c then c else "Other"%string
  | None => "Other"%string
  end.

(** [acc[cat] || 0], for a key [cat] that [acc] does not inherit: the
    read finds an own property or nothing ([WithPrototype.propOrZero] has
    the other keys). *)
Definition propOrZero (acc : JsObject) (cat : string) : float :=
  match Obj.get acc cat with
  | Some v => if JsNumber.truthy v then v else zero
  | None => zero
  end.

(** The reducer of [totalsByCategory], for categories that the object
    does not inherit ([WithPrototype.totalsByCategory] has the others, and
    is this object when there are none). *)
Definition totalsByCategory (filteredExpenses : list Row.t) : JsObject :=
  fold_left
    (fun acc it =>
       let cat := categoryOrOther it in
       Obj.set acc cat (propOrZero acc cat + amountOrZero it)%float)
    filteredExpenses [].

Definition pieEntries (totalsByCategory : JsObject)
  : list (string * float) :=
  sort (fun a b => (snd b - snd a)%float) (Obj.entries totalsByCategory).

Definition finalFiltered (filteredExpenses : list Row.t)
  (categoryFilter : string) : list Row.t :=
  List.filter
    (fun it =>
       if String.eqb categoryFilter "all" then true
       else match Row.category it with
            | Some c => String.eqb c categoryFilter
            | None => false
            end)
    filteredExpenses.

Definition visibleTotal (finalFiltered : list Row.t) : float :=
  fold_left (fun sum it => (sum + amountOrZero it)%float)
    finalFiltered zero.

(** The percentage of a legend row *)
Definition pct (pieEntries : list (string * float)) (value : float)
  : string :=
  let total := fold_left (fun s e => (s + snd e)%float) pieEntries zero in
  if JsNumber.truthy total
  then toFixed1 numberToString ((value / total) * 100)%float
  else "0.0"%string.

Definition legend (pieEntries : list (string * float))
  : list (string * string) :=
  map (fun e => (fst e, pct pieEntries (snd e))) pieEntries.

(** The amount of the "All" row of the category list *)
Definition byCategoryAll (totalsByCategory : JsObject) : float :=
  fold_left (fun s v => (s + v)%float) (Obj.values totalsByCategory) zero.

(** [Math.PI] *)
Definition Math_PI : float := 0x1.921fb54442d18p+1.

(** [SimplePieChart]: nothing when the positive totals sum to zero,
    else the angle of each slice. *)
Definition SimplePieChart (data : JsObject)
  : option (list (string * float)) :=
  let entries := List.filter (fun e => (0 <? snd e)%float)
                   (Obj.entries data) in
  let total := fold_left (fun s e => (s + snd e)%float) entries zero in
  if (total =? 0)%float then None
  else Some (map (fun e =>
                    (fst e,
                     (snd e / total * Math_PI * 2)%float))
               entries).



End Screen.

(* ================================================================== *)
(** * Notions used to state the properties *)
(* ================================================================== *)

(** The local calendar day of a time value, as a day number. *)
Definition localDay (LocalTZA t : Z) : Z := JsDate.Day (t + LocalTZA).

Definition maxTime : Z := 8640000000000000.

(** [YYYY-MM-DD] for the UTC calendar date of a time value. *)
Definition isoDateUTC (t : Z) : string :=
  (JsString.padded 4 (JsDate.YearFromTime t) ++ "-"
   ++ JsString.padded 2 (JsDate.MonthFromTime t + 1) ++ "-"
   ++ JsString.padded 2 (JsDate.DateFromTime t))%string.

(** One list is a subsequence of another: some elements dropped, the others
    kept as they are and in their order. *)
Inductive Subseq {A : Type} : list A -> list A -> Prop :=
| Subseq_nil : Subseq [] []
| Subseq_skip x l1 l2 : Subseq l1 l2 -> Subseq l1 (x :: l2)
| Subseq_keep x l1 l2 : Subseq l1 l2 -> Subseq (x :: l1) (x :: l2).


(** Two doubles are the same number: identical, or both a zero ([+0] and
    [-0] are the same number). *)
Definition sameNumber (x y : float) : Prop :=
  x = y \/ (is_zero x = true /\ is_zero y = true).

(** The key a record is counted under, and whether its amount is numeric. *)
Definition hasKey (c : string) (it : Row.t) : bool :=
  String.eqb (categoryOrOther it) c.


(** The amounts of a list of records are finite: no amount is an infinity
    (an amount that is not numeric counts as 0). *)
Definition finiteAmounts (l : list Row.t) : Prop :=
  Forall (fun it => JsNumber.isFinite (amountOrZero it) = true) l.

(** No amount is negative: each is a zero, a positive number or
    [+Infinity] (an amount that is not numeric counts as 0). *)
Definition nonNegativeAmounts (l : list Row.t) : Prop :=
  Forall (fun it => (0 <=? amountOrZero it)%float = true) l.

(** Left-to-right sum of doubles from [+0], as [reduce] computes it. *)
Definition sumOf (l : list float) : float :=
  fold_left (fun s v => (s + v)%float) l zero.

(** The addition [x + y] is exact: both doubles are finite and so is the
    sum, which has the value of the two added as numbers. *)
Definition exactAdd (x y : float) : bool :=
  match JsNumber.toUnits x, JsNumber.toUnits y, JsNumber.toUnits (x + y) with
  | Some a, Some b, Some c => c =? a + b
  | _, _, _ => false
  end.

(** Every addition of the left-to-right sum of [l] from [s] is exact. *)
Fixpoint exactSum (s : float) (l : list float) : bool :=
  match l with
  | [] => true
  | v :: tl => exactAdd s v && exactSum (s + v) tl
  end.

(** Every addition the reducer of [totalsByCategory] makes on [l], from
    the accumulator [acc], is exact. *)
Fixpoint exactTotals (acc : JsObject) (l : list Row.t) : bool :=
  match l with
  | [] => true
  | it :: tl =>
      let cat := categoryOrOther it in
      exactAdd (propOrZero acc cat) (amountOrZero it)
      && exactTotals
           (Obj.set acc cat (propOrZero acc cat + amountOrZero it)%float) tl
  end.

(** No addition rounds: in the total of [l], in its totals by category,
    and in the sum of those. *)
Definition additionsExact (l : list Row.t) : bool :=
  exactSum zero (map amountOrZero l)
  && exactTotals [] l
  && exactSum zero (Obj.values (totalsByCategory l)).

(** The percentage of a legend row as the formula [100 * value / total]
    reads, the product first. *)
Definition pctProductFirst (numberToString : float -> string)
  (pieEntries : list (string * float)) (value : float) : string :=
  let total := sumOf (map snd pieEntries) in
  if JsNumber.truthy total
  then JsNumber.toFixed1 numberToString (100 * value / total)%float
  else "0.0"%string.

(** One step of the reducer of [totalsByCategory], and of the reducer of
    [visibleTotal]. *)
Definition totalsStep (acc : JsObject) (it : Row.t) : JsObject :=
  Obj.set acc (categoryOrOther it)
    (propOrZero acc (categoryOrOther it) + amountOrZero it)%float.

Definition addAmount (sum : float) (it : Row.t) : float :=
  (sum + amountOrZero it)%float.

(** The running sum a key starts from: the value it has, or [+0]. *)
Definition startOf (o : option float) : float :=
  match o with Some a => a | None => zero end.

(** The value of a double in units, 0 where it has none, and the sum of
    the values of a list. *)
Definition units0 (x : float) : Z :=
  match JsNumber.toUnits x with Some u => u | None => 0 end.

Fixpoint sumUnits (l : list float) : Z :=
  match l with
  | [] => 0
  | v :: tl => units0 v + sumUnits tl
  end.

(** [100 * v / t] rounded to one decimal in exact arithmetic, half up, as
    a number of tenths ([v] and [t] whole and positive). *)
Definition exactTenths (v t : Z) : Z := (2000 * v + t) / (2 * t).

(** A text in which no numeral can start: it has no digit, and not the
    letter [I] of [Infinity]. *)
Definition withoutNumeral (s : string) : bool :=
  forallb (fun c => negb (JsString.isDigit c)
                    && negb (JsString.isChar c "I"))
    (list_ascii_of_string s).

(* ================================================================== *)
(** * The form and the rows of the list *)
(* ================================================================== *)

(** The setters of [useState]. *)
Module Form.

Definition setAmount (v : string) (st : State.t) : State.t :=
  State.make (State.expenses st) v (State.category st) (State.note st)
    (State.date st) (State.filter st) (State.categoryFilter st)
    (State.editingId st).

Definition setCategory (v : string) (st : State.t) : State.t :=
  State.make (State.expenses st) (State.amount st) v (State.note st)
    (State.date st) (State.filter st) (State.categoryFilter st)
    (State.editingId st).

Definition setNote (v : string) (st : State.t) : State.t :=
  State.make (State.expenses st) (State.amount st) (State.category st) v
    (State.date st) (State.filter st) (State.categoryFilter st)
    (State.editingId st).

Definition setDate (v : string) (st : State.t) : State.t :=
  State.make (State.expenses st) (State.amount st) (State.category st)
    (State.note st) v (State.filter st) (State.categoryFilter st)
    (State.editingId st).

Definition setEditingId (v : option Z) (st : State.t) : State.t :=
  State.make (State.expenses st) (State.amount st) (State.category st)
    (State.note st) (State.date st) (State.filter st)
    (State.categoryFilter st) v.

End Form.

(** How a handler ends: it returns, or [toISOString] throws a
    [RangeError] on an invalid date; either way with the state that the
    setters called by then have made. *)
Inductive Completion :=
| Returns (st : State.t)
| Throws (st : State.t).

Section Handlers.
Import JsString JsDate JsNumber.

(** The host: [Date.parse] beyond the date-only forms, as for the screen,
    and [Number::toString]. *)
Variable hostDateParse : string -> option Z.
Variable ToString : float -> string.

(** [String(v)] *)
Definition String_of (v : JsValue) : string :=
  match v with
  | VUndefined => "undefined"
  | VNull => "null"
  | VNumber x => ToString x
  | VString s => s
  end.

(** [v || ''] for a text column: [null] and the empty text give the
    empty text. *)
Definition orEmpty (v : option string) : string :=
  match v with
  | Some s => s
  | None => ""
  end.

(** ** The date field

    [cleaned] is [text.replace(/[^0-9-]/g, '').slice(0, 10)]. *)
Definition cleaned (text : string) : string :=
  slice_0_10
    (string_of_list_ascii
       (List.filter (fun c => isDigit c || isChar c "-")
          (list_ascii_of_string text))).

Definition dateOnChangeText (text : string) (st : State.t) : State.t :=
  Form.setDate (cleaned text) st.

Definition dateOnEndEditing (st : State.t) : State.t :=
  if JsString.truthy (State.date st)
     && negb (isoDatePattern (State.date st))
  then Form.setDate "" st
  else st.

(** ** The Cancel button *)
Definition cancelOnPress (st : State.t) : State.t :=
  Form.setDate ""
    (Form.setNote ""
       (Form.setCategory ""
          (Form.setAmount "" (Form.setEditingId None st)))).

(** ** [renderExpense]

    [isoDate] is the date a row shows: nothing for a row without a date
    or with one that does not parse. *)
Definition isoDate (item : Row.t) : option string :=
  match Row.date item with
  | Some s =>
      if JsString.truthy s then
        match Date_parse hostDateParse s with
        | Some t => Some (slice_0_10 (toISOString t))
        | None => None
        end
      else None
  | None => None
  end.

(** The Edit button of a row: it fills the form and enters edit mode. *)
Definition editOnPress (item : Row.t) (st : State.t) : Completion :=
  let st := Form.setAmount (String_of (Row.amount item)) st in
  let st := Form.setCategory (orEmpty (Row.category item)) st in
  let st := Form.setNote (orEmpty (Row.note item)) st in
  match Row.date item with
  | Some s =>
      if JsString.truthy s then
        match Date_parse hostDateParse s with
        | Some t =>
            Returns
              (Form.setEditingId (Some (Row.id item))
                 (Form.setDate (slice_0_10 (toISOString t)) st))
        | None => Throws st
        end
      else Returns (Form.setEditingId (Some (Row.id item))
                      (Form.setDate "" st))
  | None =>
      Returns (Form.setEditingId (Some (Row.id item)) (Form.setDate "" st))
  end.

End Handlers.

(* ================================================================== *)
(** * The first version of the screen *)
(* ================================================================== *)

Section FirstVersion.
Import JsString JsNumber.

Variable hostDateParse : string -> option Z.


End FirstVersion.

(* ================================================================== *)
(** * Notions used to state the properties of the form and the table *)
(* ================================================================== *)

(** A text of white space only, the empty text included. *)
Definition blank (s : string) : bool :=
  forallb JsString.isWhiteSpace (list_ascii_of_string s).

(** A text that is not blank and has no white space at either end. *)
Definition trimmed (s : string) : bool :=
  negb (blank s) && String.eqb (JsString.trim s) s.

(** A number above zero, [+Infinity] included. *)
Definition isPositive (x : float) : bool := (0 <? x)%float.

(** A text of the shape [dddd-dd-dd] that writes a day of the calendar. *)
Definition calendarDate (s : string) : bool :=
  JsString.isoDatePattern s
  && match JsDate.parseIsoDateOnly s with Some _ => true | None => false end.

(** The keys of the rows go up, from above [lo]. *)
Fixpoint idsAscending (lo : Z) (l : list Row.t) : bool :=
  match l with
  | [] => true
  | r :: tl => (lo <? Row.id r) && idsAscending (Row.id r) tl
  end.

(** A row as [addExpense] writes it: a number above zero for the amount,
    a trimmed category, a trimmed note or none, a date that is not empty
    or none. *)
Definition validRow (r : Row.t) : bool :=
  match Row.amount r with VNumber x => isPositive x | _ => false end
  && match Row.category r with Some c => trimmed c | None => false end
  && match Row.note r with Some n => trimmed n | None => true end
  && match Row.date r with Some d => JsString.truthy d | None => true end.

(** A table as the screen leaves it: keys from 1 on, going up in the
    order of insertion and below the next [AUTOINCREMENT] key, and rows
    as [addExpense] writes them. *)
Definition wellFormed (db : Db) : bool :=
  (0 <? nextId db)
  && idsAscending 0 (rows db)
  && forallb (fun r => Row.id r <? nextId db) (rows db)
  && forallb validRow (rows db).

(** The table before the first record. *)
Definition emptyDb : Db := {| rows := []; nextId := 1 |}.

(** The place of a double in the order of the numbers: its value in units
    of [2^-1074], and beyond every finite value for the infinities. *)
Definition orderKey (x : float) : Z :=
  match Prim2SF x with
  | S754_zero _ => 0
  | S754_finite s m e => (if s then Z.neg m else Z.pos m) * 2 ^ (e + 1074)
  | S754_infinity s => if s then - 2 ^ 2100 else 2 ^ 2100
  | S754_nan => 0
  end.

(** The totals of a list of rows go down: no row has a total below the
    total of the row after it. *)
Fixpoint descending (l : list (string * float)) : bool :=
  match l with
  | a :: tl =>
      match tl with
      | b :: _ => negb (snd a <? snd b)%float
      | [] => true
      end && descending tl
  | [] => true
  end.

(* ================================================================== *)
(** * The amount field, as it is read *)
(* ================================================================== *)

(** The amount text after the white space at its start, split into its
    sign and the rest, as [parseFloat] takes it. *)
Definition signedPart (s : string) : bool * list ascii :=
  match JsString.dropWhiteSpace (list_ascii_of_string s) with
  | c :: tl =>
      if JsString.isChar c "-" then (true, tl)
      else if JsString.isChar c "+" then (false, tl)
      else (false, c :: tl)
  | [] => (false, [])
  end.

(** The digits of the decimal numeral at the start of a text: those before
    the point and those after it. *)
Definition numeralDigits (l : list ascii) : list ascii :=
  let '(ip, r1) := JsNumber.spanDigits l in
  ip ++ match r1 with
        | c :: tl =>
            if JsString.isChar c "." then fst (JsNumber.spanDigits tl)
            else []
        | [] => []
        end.

(** A numeral starts the text: [Infinity], or a decimal numeral with one
    digit at least. *)
Definition startsNumeral (l : list ascii) : bool :=
  JsNumber.startsWith (list_ascii_of_string "Infinity") l
  || negb (Nat.eqb (List.length (numeralDigits l)) 0).

(** A decimal numeral starts the text and all its digits are [0]. *)
Definition startsZero (l : list ascii) : bool :=
  negb (JsNumber.startsWith (list_ascii_of_string "Infinity") l)
  && negb (Nat.eqb (List.length (numeralDigits l)) 0)
  && forallb (fun c => JsString.isChar c "0") (numeralDigits l).

(** What is left of a text after the exponent part at its start, if it
    has one. *)
Definition afterExponent (l : list ascii) : list ascii :=
  match l with
  | c :: tl =>
      if JsString.isChar c "e" || JsString.isChar c "E" then
        let tl' :=
          match tl with
          | s :: tl2 =>
              if JsString.isChar s "-" || JsString.isChar s "+" then tl2
              else tl
          | [] => tl
          end in
        match JsNumber.spanDigits tl' with
        | ([], _) => l
        | (_, rest) => rest
        end
      else l
  | [] => []
  end.

(** Numeric, in the words of the specification: the text is a number
    written out and nothing else: an optional sign, digits with an optional
    point among them, an optional exponent; white space around it is
    allowed.  This is not what the code tests; it is what the test of the
    code is compared with. *)
Definition specNumericText (s : string) : bool :=
  let u := snd (signedPart s) in
  let '(ip, r1) := JsNumber.spanDigits u in
  let '(fp, r2) :=
    match r1 with
    | c :: tl =>
        if JsString.isChar c "." then JsNumber.spanDigits tl else ([], r1)
    | [] => ([], r1)
    end in
  negb (Nat.eqb (List.length (ip ++ fp)) 0)
  && forallb JsString.isWhiteSpace (afterExponent r2).

(* ================================================================== *)
(** * What an amount counts for *)
(* ================================================================== *)


(* ================================================================== *)
(** * The totals object and [Object.prototype] *)
(* ================================================================== *)

(** The methods of [Object.prototype], which every object made by [{}]
    inherits; its last member with a string for a name is the accessor
    [__proto__]. *)
Definition prototypeMethods : list string :=
  ["constructor"; "hasOwnProperty"; "isPrototypeOf";
   "propertyIsEnumerable"; "toLocaleString"; "toString"; "valueOf";
   "__defineGetter__"; "__defineSetter__"; "__lookupGetter__";
   "__lookupSetter__"]%string.

Definition isPrototypeMethod (k : string) : bool :=
  existsb (String.eqb k) prototypeMethods.

(** A category that is not the name of a member of [Object.prototype]. *)
Definition plainCategory (c : string) : bool :=
  negb (String.eqb c "__proto__") && negb (isPrototypeMethod c).

(** No record counts under the name of a member of [Object.prototype]. *)
Definition plainCategories (l : list Row.t) : bool :=
  forallb (fun it => plainCategory (categoryOrOther it)) l.

(** The reducer of [totalsByCategory] on the object [{}] as it is, with
    [Object.prototype] behind it. *)
Module WithPrototype.

(** What a property of the object holds: a number, or a string once
    something that is not a number has been added to. *)
Inductive Held :=
| HNumber (x : float)
| HString (s : string).

(** The own properties of the object, in creation order. *)
Definition t := list (string * Held).

Fixpoint getOwn (o : t) (k : string) : option Held :=
  match o with
  | [] => None
  | (k', v) :: tl => if String.eqb k' k then Some v else getOwn tl k
  end.

Fixpoint setOwn (o : t) (k : string) (v : Held) : t :=
  match o with
  | [] => [(k, v)]
  | (k', v') :: tl =>
      if String.eqb k' k then (k', v) :: tl else (k', v') :: setOwn tl k v
  end.

(** The value of [acc[cat]]: an own property, else what the prototype
    has under that name: a method, the prototype itself for [__proto__]
    (the getter of the accessor), or nothing. *)
Inductive Read :=
| RUndefined
| ROwn (v : Held)
| RMethod (name : string)
| RPrototype.

Definition read (acc : t) (cat : string) : Read :=
  match getOwn acc cat with
  | Some v => ROwn v
  | None =>
      if String.eqb cat "__proto__" then RPrototype
      else if isPrototypeMethod cat then RMethod cat
      else RUndefined
  end.

Section Reducer.

(** [Number::toString], and the text that [Function.prototype.toString]
    gives for the method of [Object.prototype] of a given name, which is
    left to the engine. *)
Variable ToString : float -> string.
Variable functionSource : string -> string.

(** [(acc[cat] || 0) + n] for a number [n].  An object is truthy, and
    added to a number it is turned into a string first: a function into
    its source text, [Object.prototype] into ["[object Object]"]; a sum
    with a string is the concatenation. *)
Definition propOrZero (acc : t) (cat : string) (n : float) : Held :=
  match read acc cat with
  | RUndefined => HNumber (zero + n)
  | ROwn (HNumber v) =>
      HNumber ((if JsNumber.truthy v then v else zero) + n)
  | ROwn (HString s) =>
      if JsString.truthy s then HString (s ++ ToString n)
      else HNumber (zero + n)
  | RMethod name => HString (functionSource name ++ ToString n)
  | RPrototype => HString ("[object Object]" ++ ToString n)
  end.

(** [acc[cat] = v] for a number or a string [v]: the setter of
    [__proto__] ignores a value that is neither an object nor [null];
    under any other name the object gets a property of its own. *)
Definition assign (acc : t) (cat : string) (v : Held) : t :=
  if String.eqb cat "__proto__" then acc else setOwn acc cat v.

Definition totalsByCategory (filteredExpenses : list Row.t) : t :=
  fold_left
    (fun acc it =>
       let cat := categoryOrOther it in
       assign acc cat (propOrZero acc cat (amountOrZero it)))
    filteredExpenses [].

End Reducer.

(** The object of the model as an object of this kind. *)
Definition ofNumbers (o : JsObject) : t :=
  map (fun e => (fst e, HNumber (snd e))) o.

(** [value.toFixed(2)] in the rows of the category list is defined for a
    number only. *)
Definition hasToFixed (v : Held) : bool :=
  match v with HNumber _ => true | HString _ => false end.

End WithPrototype.

(** A double of sign [s] that is a number: the zero, the infinity or a
    finite value of that sign. *)
Definition hasSign (s : bool) (X : spec_float) : Prop :=
  X = S754_zero s \/ X = S754_infinity s
  \/ exists m e, X = S754_finite s m e.
(* ================================================================== *)
(** * The host functions on examples *)
(* ================================================================== *)

Example DayFromYear_1970 : JsDate.DayFromYear 1970 = 0.
Proof. reflexivity. Qed.

Example parse_iso_2024_03_01 :
  JsDate.parseIsoDateOnly "2024-03-01" = Some 1709251200000.
Proof. reflexivity. Qed.

Example parse_iso_bad_month : JsDate.parseIsoDateOnly "2024-13-45" = None.
Proof. reflexivity. Qed.

Example toISOString_leap_day :
  JsDate.toISOString 1709164800123 = "2024-02-29T00:00:00.123Z"%string.
Proof. reflexivity. Qed.

Example toISOString_year_10000 :
  JsDate.toISOString 253402300800000 = "+010000-01-01T00:00:00.000Z"%string.
Proof. reflexivity. Qed.

Example parseFloat_12_5 :
  JsNumber.parseFloat "12.5" = 12.5%float.
Proof. reflexivity. Qed.

Example parseFloat_prefix :
  JsNumber.parseFloat "  12abc" = 12%float.
Proof. reflexivity. Qed.

Example parseFloat_not_numeric :
  JsNumber.isNaN (JsNumber.parseFloat "abc") = true.
Proof. reflexivity. Qed.

Example parseFloat_exponent :
  JsNumber.parseFloat "1.5e3xyz" = 1500%float.
Proof. reflexivity. Qed.

Example parseFloat_Infinity :
  JsNumber.parseFloat "Infinity" = infinity.
Proof. reflexivity. Qed.

Example toFixed1_75 :
  forall h, JsNumber.toFixed1 h 75%float = "75.0"%string.
Proof. reflexivity. Qed.

(* ================================================================== *)
(** * Facts about the calendar *)
(* ================================================================== *)

Section Calendar.
Import JsDate.

Lemma DayFromYear_period y k :
  DayFromYear (y + 400 * k) = DayFromYear y + 146097 * k.
Proof.
  unfold DayFromYear.
  replace (y + 400 * k - 1969) with (y - 1969 + (100 * k) * 4) by lia.
  replace (y + 400 * k - 1901) with (y - 1901 + (4 * k) * 100) by lia.
  replace (y + 400 * k - 1601) with (y - 1601 + k * 400) by lia.
  rewrite !Z.div_add by lia. lia.
Qed.

Lemma DayFromYear_cycle k :
  0 <= k <= 401 ->
  365 * k <= DayFromYear (2000 + k) - 10957 <= 365 * k + 98.
Proof.
  intros H. unfold DayFromYear. Z.to_euclidean_division_equations; lia.
Qed.

Lemma DayFromYear_mono y y' : y <= y' -> DayFromYear y <= DayFromYear y'.
Proof.
  intros H. unfold DayFromYear. Z.to_euclidean_division_equations; lia.
Qed.

(** [YearFromDay d] is the year that contains day [d]. *)
Lemma YearFromDay_spec d :
  DayFromYear (YearFromDay d) <= d < DayFromYear (YearFromDay d + 1).
Proof.
  unfold YearFromDay.
  set (z := d - 10957).
  set (era := z / 146097). set (doe := z mod 146097).
  set (c := doe / 365).
  assert (Hz : z = 146097 * era + doe) by (apply Z.div_mod; lia).
  assert (Hdoe : 0 <= doe < 146097) by (apply Z.mod_pos_bound; lia).
  assert (Hc : 0 <= c <= 400 /\ 365 * c <= doe < 365 * c + 365)
    by (unfold c; Z.to_euclidean_division_equations; lia).
  destruct (DayFromYear (2000 + c) - 10957 <=? doe) eqn:E;
    [apply Z.leb_le in E | apply Z.leb_gt in E].
  - replace (2000 + 400 * era + c + 1)
      with (2000 + (c + 1) + 400 * era) by lia.
    replace (2000 + 400 * era + c) with (2000 + c + 400 * era) by lia.
    rewrite !DayFromYear_period.
    pose proof (DayFromYear_cycle (c + 1)). lia.
  - assert (1 <= c).
    { destruct (Z.eq_dec c 0) as [->|]; [cbn in E; lia|lia]. }
    replace (2000 + 400 * era + (c - 1) + 1)
      with (2000 + c + 400 * era) by lia.
    replace (2000 + 400 * era + (c - 1))
      with (2000 + (c - 1) + 400 * era) by lia.
    rewrite !DayFromYear_period.
    pose proof (DayFromYear_cycle (c - 1)). lia.
Qed.

Lemma YearFromDay_unique d y :
  DayFromYear y <= d < DayFromYear (y + 1) -> YearFromDay d = y.
Proof.
  intros H. pose proof (YearFromDay_spec d) as S.
  destruct (Z.lt_trichotomy (YearFromDay d) y) as [L|[E|G]]; [|exact E|].
  - pose proof (DayFromYear_mono (YearFromDay d + 1) y ltac:(lia)). lia.
  - pose proof (DayFromYear_mono (y + 1) (YearFromDay d) ltac:(lia)). lia.
Qed.

Lemma YearFromDay_ge d y : DayFromYear y <= d -> y <= YearFromDay d.
Proof.
  intros H. pose proof (YearFromDay_spec d) as S.
  destruct (Z_le_gt_dec y (YearFromDay d)) as [L|G]; [exact L|].
  pose proof (DayFromYear_mono (YearFromDay d + 1) y ltac:(lia)). lia.
Qed.

Lemma YearFromDay_lt d y : d < DayFromYear y -> YearFromDay d < y.
Proof.
  intros H. pose proof (YearFromDay_spec d) as S.
  destruct (Z_lt_ge_dec (YearFromDay d) y) as [L|G]; [exact L|].
  pose proof (DayFromYear_mono y (YearFromDay d) ltac:(lia)). lia.
Qed.

Lemma DayFromYear_succ y :
  DayFromYear (y + 1) = DayFromYear y + DaysInYear y.
Proof.
  unfold DaysInYear, isLeapYear, DayFromYear.
  destruct (y mod 4 =? 0) eqn:E4; cbn [negb];
    [apply Z.eqb_eq in E4 | apply Z.eqb_neq in E4].
  - destruct (y mod 100 =? 0) eqn:E100; cbn [negb];
      [apply Z.eqb_eq in E100 | apply Z.eqb_neq in E100].
    + destruct (y mod 400 =? 0) eqn:E400; cbn [negb];
        [apply Z.eqb_eq in E400 | apply Z.eqb_neq in E400];
        Z.to_euclidean_division_equations; lia.
    + Z.to_euclidean_division_equations; lia.
  - Z.to_euclidean_division_equations; lia.
Qed.

Lemma DayWithinYear_range t :
  0 <= DayWithinYear t < DaysInYear (YearFromTime t).
Proof.
  unfold DayWithinYear, YearFromTime.
  pose proof (YearFromDay_spec (Day t)) as S.
  rewrite DayFromYear_succ in S. lia.
Qed.

Lemma monthOfDayWithinYear_range leap d :
  0 <= monthOfDayWithinYear leap d <= 11.
Proof.
  unfold monthOfDayWithinYear.
  repeat match goal with
         | |- context [if ?b then _ else _] => destruct b
         end; lia.
Qed.

Lemma MonthFromTime_range t : 0 <= MonthFromTime t <= 11.
Proof. apply monthOfDayWithinYear_range. Qed.

(** The fields of a time value give back its day number, and a date
    argument moved by [k] moves the day by [k]. *)
Lemma MakeDay_fields t k :
  MakeDay (YearFromTime t) (MonthFromTime t) (DateFromTime t + k)
  = Day t + k.
Proof.
  pose proof (MonthFromTime_range t) as Hm.
  unfold MakeDay.
  rewrite Z.div_small, Z.mod_small by lia.
  unfold DateFromTime, DayWithinYear, InLeapYear.
  replace (YearFromTime t + 0) with (YearFromTime t) by lia.
  lia.
Qed.

Lemma Day_MakeDate d tm :
  0 <= tm < msPerDay -> Day (MakeDate d tm) = d.
Proof.
  intros H. unfold Day, MakeDate, msPerDay in *.
  Z.to_euclidean_division_equations; lia.
Qed.

Lemma MakeDate_Day t : MakeDate (Day t) (TimeWithinDay t) = t.
Proof.
  unfold MakeDate, Day, TimeWithinDay, msPerDay.
  Z.to_euclidean_division_equations; lia.
Qed.

Lemma Day_shift t k : Day (t + k * msPerDay) = Day t + k.
Proof. unfold Day, msPerDay. rewrite Z.div_add by lia. reflexivity. Qed.

End Calendar.

(* ================================================================== *)
(** * The week window *)
(* ================================================================== *)

Section WeekWindow.
Import JsDate.

Variable LocalTZA : Z.
Variable hostDateParse : string -> option Z.
Hypothesis zone : - msPerDay < LocalTZA < msPerDay.

Lemma TimeClip_Some t u : TimeClip t = Some u -> u = t /\ Z.abs t <= maxTime.
Proof.
  unfold TimeClip, maxTime.
  destruct (Z.abs t <=? 8640000000000000) eqn:E; [|discriminate].
  intros [= <-]. apply Z.leb_le in E. auto.
Qed.

Lemma TimeClip_in t : Z.abs t <= maxTime -> TimeClip t = Some t.
Proof.
  unfold TimeClip, maxTime. intros H.
  apply Z.leb_le in H. now rewrite H.
Qed.

Lemma TimeClip_out t : maxTime < Z.abs t -> TimeClip t = None.
Proof.
  unfold TimeClip, maxTime. intros H.
  apply Z.leb_gt in H. now rewrite H.
Qed.

Lemma utcMidnight_valid y m d t :
  utcMidnight y m d = Some t -> Z.abs t <= maxTime.
Proof.
  unfold utcMidnight.
  destruct ((1 <=? m) && (m <=? 12) && (1 <=? d)
            && (d <=? DaysInMonth y (m - 1))); [|discriminate].
  intros H. apply TimeClip_Some in H as [-> H]. exact H.
Qed.

Lemma parseMonthDay_valid y rest t :
  parseMonthDay y rest = Some t -> Z.abs t <= maxTime.
Proof.
  unfold parseMonthDay. intros H.
  repeat match type of H with
         | match ?x with _ => _ end = _ => destruct x; try discriminate
         | (if ?b then _ else _) = _ => destruct b; try discriminate
         end; eapply utcMidnight_valid; eassumption.
Qed.

Lemma parseIsoDateOnly_valid s t :
  parseIsoDateOnly s = Some t -> Z.abs t <= maxTime.
Proof.
  unfold parseIsoDateOnly. intros H.
  repeat match type of H with
         | match ?x with _ => _ end = _ => destruct x; try discriminate
         | (if ?b then _ else _) = _ => destruct b; try discriminate
         end; eapply parseMonthDay_valid; eassumption.
Qed.

Lemma Date_parse_valid s t :
  Date_parse hostDateParse s = Some t -> Z.abs t <= maxTime.
Proof.
  unfold Date_parse.
  destruct (parseIsoDateOnly s) as [u|] eqn:E.
  - intros [= <-]. eapply parseIsoDateOnly_valid; eassumption.
  - destruct (hostDateParse s) as [u|]; [|discriminate].
    intros H. apply TimeClip_Some in H as [-> H]. exact H.
Qed.

(** [setDate(getDate() - 6)] moves a date six days back. *)
Lemma setDate_six_days_back now :
  Z.abs now <= maxTime -> 10963 <= localDay LocalTZA now ->
  setDate LocalTZA (Some now)
    (option_map (fun n => n - 6) (getDate LocalTZA (Some now)))
  = Some (now - 6 * msPerDay).
Proof.
  intros Hnow Hday. unfold setDate, getDate, option_map, LocalTime, UTC.
  replace (DateFromTime (now + LocalTZA) - 6)
    with (DateFromTime (now + LocalTZA) + (-6)) by lia.
  rewrite MakeDay_fields.
  assert (E : MakeDate (Day (now + LocalTZA) + -6)
                (TimeWithinDay (now + LocalTZA))
              = now + LocalTZA - 6 * msPerDay).
  { pose proof (MakeDate_Day (now + LocalTZA)) as M.
    unfold MakeDate in *. lia. }
  rewrite E.
  replace (now + LocalTZA - 6 * msPerDay - LocalTZA)
    with (now - 6 * msPerDay) by lia.
  apply TimeClip_in.
  unfold localDay, Day, maxTime, msPerDay in *.
  Z.to_euclidean_division_equations; lia.
Qed.

(** [new Date(d.getFullYear(), d.getMonth(), d.getDate())] is the local
    midnight of the day of [d], unless the year is one of 0 to 99. *)
Lemma Date_ymd_fields u :
  ~ (0 <= YearFromTime (u + LocalTZA) <= 99) ->
  Date_ymd LocalTZA (getFullYear LocalTZA (Some u))
    (getMonth LocalTZA (Some u)) (getDate LocalTZA (Some u))
  = TimeClip (localDay LocalTZA u * msPerDay - LocalTZA).
Proof.
  intros Hy. unfold Date_ymd, getFullYear, getMonth, getDate, option_map,
    LocalTime, UTC, localDay.
  destruct ((0 <=? YearFromTime (u + LocalTZA))
            && (YearFromTime (u + LocalTZA) <=? 99)) eqn:E.
  - apply andb_prop in E as [E1 E2].
    apply Z.leb_le in E1. apply Z.leb_le in E2. lia.
  - replace (DateFromTime (u + LocalTZA))
      with (DateFromTime (u + LocalTZA) + 0) by lia.
    rewrite MakeDay_fields. unfold MakeDate. f_equal. lia.
Qed.

Lemma leap_shift_1900 y :
  0 <= y <= 99 ->
  DayFromYear (1900 + y) + DaysInYear y <= 10957 /\
  (isLeapYear (1900 + y) = true -> isLeapYear y = true).
Proof.
  intros H.
  assert (In y (map Z.of_nat (seq 0 100))) as Hin.
  { apply in_map_iff. exists (Z.to_nat y). split; [lia|].
    apply in_seq. lia. }
  assert (forallb (fun y => (DayFromYear (1900 + y) + DaysInYear y <=? 10957)
                            && (negb (isLeapYear (1900 + y)) || isLeapYear y))
            (map Z.of_nat (seq 0 100)) = true) as Hall
    by (vm_compute; reflexivity).
  rewrite forallb_forall in Hall. specialize (Hall y Hin).
  apply andb_prop in Hall as [H1 H2]. apply Z.leb_le in H1.
  split; [exact H1|]. intros L. rewrite L in H2. exact H2.
Qed.

Lemma firstDayOfMonth_leap_le l l' m :
  0 <= m <= 11 -> l' <= l ->
  firstDayOfMonth l' m <= firstDayOfMonth l m.
Proof.
  intros Hm Hl.
  assert (m = 0 \/ m = 1 \/ m = 2 \/ m = 3 \/ m = 4 \/ m = 5 \/ m = 6
          \/ m = 7 \/ m = 8 \/ m = 9 \/ m = 10 \/ m = 11) as C by lia.
  destruct C as [C|[C|[C|[C|[C|[C|[C|[C|[C|[C|[C|C]]]]]]]]]]];
    subst m; unfold firstDayOfMonth; lia.
Qed.

(** A date in the years 0 to 99: its own day is before the epoch, and
    the day its fields give in the years 1900 to 1999 is before 1 January
    2000. *)
Lemma two_digit_year_days t :
  0 <= YearFromTime t <= 99 ->
  MakeDay (1900 + YearFromTime t) (MonthFromTime t) (DateFromTime t) < 10957
  /\ Day t < 0.
Proof.
  intros Hy.
  pose proof (MonthFromTime_range t) as Hm.
  pose proof (DayWithinYear_range t) as Hd.
  pose proof (leap_shift_1900 _ Hy) as [Hb Hl].
  split.
  - unfold MakeDay. rewrite Z.div_small, Z.mod_small by lia.
    replace (1900 + YearFromTime t + 0) with (1900 + YearFromTime t) by lia.
    unfold DateFromTime, InLeapYear.
    pose proof (firstDayOfMonth_leap_le
                  (if isLeapYear (YearFromTime t) then 1 else 0)
                  (if isLeapYear (1900 + YearFromTime t) then 1 else 0)
                  (MonthFromTime t) Hm) as F.
    assert ((if isLeapYear (1900 + YearFromTime t) then 1 else 0)
            <= (if isLeapYear (YearFromTime t) then 1 else 0)) as Hle.
    { destruct (isLeapYear (1900 + YearFromTime t));
        [rewrite Hl by reflexivity; lia|].
      destruct (isLeapYear (YearFromTime t)); lia. }
    specialize (F Hle). lia.
  - pose proof (YearFromDay_spec (Day t)) as S.
    fold (YearFromTime t) in S.
    pose proof (DayFromYear_mono (YearFromTime t + 1) 100 ltac:(lia)) as M.
    assert (DayFromYear 100 < 0) by reflexivity. lia.
Qed.

End WeekWindow.

Section WeekTheorem.
Import JsDate.

Variable LocalTZA : Z.
Variable hostDateParse : string -> option Z.

(** The value of the comparison [dateOnly >= cutoff] of the week branch,
    for a valid record date [t] and a clock [now] from 7 January 2000
    on. *)
Lemma week_comparison now t :
  - msPerDay < LocalTZA < msPerDay ->
  Z.abs now <= maxTime -> 10963 <= localDay LocalTZA now ->
  Z.abs t <= maxTime ->
  let d : Date := Some t in
  let sevenDaysAgo :=
    setDate LocalTZA (Some now)
      (option_map (fun n => n - 6) (getDate LocalTZA (Some now))) in
  Date_ge
    (Date_ymd LocalTZA (getFullYear LocalTZA d) (getMonth LocalTZA d)
       (getDate LocalTZA d))
    (Date_ymd LocalTZA (getFullYear LocalTZA sevenDaysAgo)
       (getMonth LocalTZA sevenDaysAgo) (getDate LocalTZA sevenDaysAgo))
  = (localDay LocalTZA now - 6 <=? localDay LocalTZA t).
Proof.
  intros Hz Hnow Hday Ht d sevenDaysAgo. subst d sevenDaysAgo.
  rewrite (setDate_six_days_back LocalTZA Hz now Hnow Hday).
  assert (Hcut : localDay LocalTZA (now - 6 * msPerDay)
                 = localDay LocalTZA now - 6).
  { unfold localDay.
    replace (now - 6 * msPerDay + LocalTZA)
      with (now + LocalTZA + (-6) * msPerDay) by lia.
    rewrite Day_shift. lia. }
  rewrite (Date_ymd_fields LocalTZA (now - 6 * msPerDay)).
  2:{ pose proof (YearFromDay_ge
                    (Day (now - 6 * msPerDay + LocalTZA)) 2000) as G.
      unfold localDay in Hcut. rewrite Hcut in G.
      change (DayFromYear 2000) with 10957 in G.
      unfold YearFromTime. rewrite Hcut. unfold localDay in Hday. lia. }
  rewrite Hcut.
  assert (Hc : TimeClip ((localDay LocalTZA now - 6) * msPerDay - LocalTZA)
               = Some ((localDay LocalTZA now - 6) * msPerDay - LocalTZA)).
  { apply TimeClip_in. unfold localDay, Day, maxTime, msPerDay in *.
    Z.to_euclidean_division_equations; lia. }
  rewrite Hc.
  destruct (Z_le_gt_dec 0 (YearFromTime (t + LocalTZA))) as [L|G];
    [destruct (Z_le_gt_dec (YearFromTime (t + LocalTZA)) 99) as [L'|G]|].
  - (* a year from 0 to 99 *)
    pose proof (two_digit_year_days (t + LocalTZA) (conj L L'))
      as [Hm Hneg].
    unfold Date_ymd, getFullYear, getMonth, getDate, option_map,
      LocalTime, UTC.
    replace ((0 <=? YearFromTime (t + LocalTZA))
             && (YearFromTime (t + LocalTZA) <=? 99)) with true
      by (symmetry; apply andb_true_intro; split; apply Z.leb_le; lia).
    assert ((localDay LocalTZA now - 6 <=? localDay LocalTZA t) = false)
      as -> by (apply Z.leb_gt; unfold localDay in *; lia).
    unfold TimeClip at 1.
    destruct (Z.abs _ <=? 8640000000000000); [|reflexivity].
    cbn [Date_ge]. apply Z.leb_gt.
    unfold MakeDate, msPerDay in *. lia.
  - rewrite (Date_ymd_fields LocalTZA t) by lia.
    destruct (TimeClip (localDay LocalTZA t * msPerDay - LocalTZA))
      as [v|] eqn:E.
    + apply TimeClip_Some in E as [-> _]. cbn [Date_ge].
      apply eq_true_iff_eq. rewrite !Z.leb_le.
      unfold msPerDay. lia.
    + cbn [Date_ge]. symmetry. apply Z.leb_gt.
      unfold TimeClip in E.
      destruct (Z.abs (localDay LocalTZA t * msPerDay - LocalTZA)
                <=? 8640000000000000) eqn:E'; [discriminate|].
      apply Z.leb_gt in E'.
      unfold localDay, Day, maxTime, msPerDay in *.
      Z.to_euclidean_division_equations; lia.
  - rewrite (Date_ymd_fields LocalTZA t) by lia.
    destruct (TimeClip (localDay LocalTZA t * msPerDay - LocalTZA))
      as [v|] eqn:E.
    + apply TimeClip_Some in E as [-> _]. cbn [Date_ge].
      apply eq_true_iff_eq. rewrite !Z.leb_le.
      unfold msPerDay. lia.
    + cbn [Date_ge]. symmetry. apply Z.leb_gt.
      unfold TimeClip in E.
      destruct (Z.abs (localDay LocalTZA t * msPerDay - LocalTZA)
                <=? 8640000000000000) eqn:E'; [discriminate|].
      apply Z.leb_gt in E'.
      unfold localDay, Day, maxTime, msPerDay in *.
      Z.to_euclidean_division_equations; lia.
Qed.

End WeekTheorem.

(** What the Week window computes.  A record is included exactly when its
    date is present (not empty), parses to a valid date, and the local
    calendar day of the parsed date is not before the local calendar day of
    [now] minus six days.  There is no upper bound: a date after today is
    included.  A record with no date, an empty date or a date that does not
    parse is left out.  The zone offset is less than a day, and [now] is a
    valid time on or after 7 January 2000 (local time), so that the rule of
    the [Date] constructor for the years 0 to 99 cannot touch the cut-off
    day. *)
Theorem week_window_by_local_day
  (LocalTZA : Z) (hostDateParse : string -> option Z)
  (now : Z) (item : Row.t) :
  - JsDate.msPerDay < LocalTZA < JsDate.msPerDay ->
  Z.abs now <= maxTime ->
  10963 <= localDay LocalTZA now ->
  (inTimeWindow LocalTZA hostDateParse "week" now item = true <->
   exists s t,
     Row.date item = Some s /\ s <> ""%string /\
     Date_parse hostDateParse s = Some t /\
     localDay LocalTZA now - 6 <= localDay LocalTZA t)
  /\ (forall s t,
        Row.date item = Some s -> s <> ""%string ->
        Date_parse hostDateParse s = Some t ->
        localDay LocalTZA now < localDay LocalTZA t ->
        inTimeWindow LocalTZA hostDateParse "week" now item = true)
  /\ (Row.date item = None ->
      inTimeWindow LocalTZA hostDateParse "week" now item = false)
  /\ (forall s, Row.date item = Some s ->
        Date_parse hostDateParse s = None ->
        inTimeWindow LocalTZA hostDateParse "week" now item = false).
Proof.
  intros Hz Hnow Hday.
  assert (Main :
    inTimeWindow LocalTZA hostDateParse "week" now item = true <->
    exists s t,
      Row.date item = Some s /\ s <> ""%string /\
      Date_parse hostDateParse s = Some t /\
      localDay LocalTZA now - 6 <= localDay LocalTZA t).
  { unfold inTimeWindow.
    change (String.eqb "week" "all") with false.
    change (String.eqb "week" "week") with true. cbv iota.
    destruct (Row.date item) as [s|] eqn:Ed.
    2:{ split; [discriminate|]. intros (s & t & E & _). discriminate. }
    destruct s as [|c s'].
    { cbn. split; [discriminate|].
      intros (s & t & [= <-] & Hne & _). now contradiction Hne. }
    cbn [JsString.truthy negb]. unfold getTime.
    destruct (Date_parse hostDateParse (String c s')) as [t|] eqn:Ep.
    2:{ split; [discriminate|].
        intros (s & t & [= <-] & _ & E & _). congruence. }
    pose proof (Date_parse_valid hostDateParse _ _ Ep) as Ht.
    rewrite (week_comparison LocalTZA now t Hz Hnow Hday Ht).
    rewrite Z.leb_le. split.
    - intros H. exists (String c s'), t. repeat split; auto. discriminate.
    - intros (s & t' & [= <-] & _ & E & H). congruence. }
  split; [exact Main|]. split; [|split].
  - intros s t E Hne Ep Hlt. apply Main. exists s, t. repeat split; auto. lia.
  - intros E. apply Bool.not_true_is_false. intros W.
    apply Main in W as (s & t & E' & _). congruence.
  - intros s E Ep. apply Bool.not_true_is_false. intros W.
    apply Main in W as (s' & t & E' & _ & Ep' & _). congruence.
Qed.


Section WrittenDate.
Import JsDate.

Lemma utcMidnight_day y m d t :
  utcMidnight y m d = Some t -> t = Day t * msPerDay.
Proof.
  unfold utcMidnight.
  destruct ((1 <=? m) && (m <=? 12) && (1 <=? d)
            && (d <=? DaysInMonth y (m - 1))); [|discriminate].
  intros H. apply TimeClip_Some in H as [-> _].
  rewrite Day_MakeDate by (unfold msPerDay; lia).
  unfold MakeDate. lia.
Qed.

Lemma parseMonthDay_day y rest t :
  parseMonthDay y rest = Some t -> t = Day t * msPerDay.
Proof.
  unfold parseMonthDay. intros H.
  repeat match type of H with
         | match ?x with _ => _ end = _ => destruct x; try discriminate
         | (if ?b then _ else _) = _ => destruct b; try discriminate
         end; eapply utcMidnight_day; eassumption.
Qed.

(** A date-only text denotes midnight UTC of the day it writes. *)
Lemma parseIsoDateOnly_day s t :
  parseIsoDateOnly s = Some t -> t = Day t * msPerDay.
Proof.
  unfold parseIsoDateOnly. intros H.
  repeat match type of H with
         | match ?x with _ => _ end = _ => destruct x; try discriminate
         | (if ?b then _ else _) = _ => destruct b; try discriminate
         end; eapply parseMonthDay_day; eassumption.
Qed.

(** The local day of midnight UTC is the day itself east of UTC and the
    day before west of UTC. *)
Lemma localDay_of_utc_midnight LocalTZA t :
  - msPerDay < LocalTZA < msPerDay -> t = Day t * msPerDay ->
  localDay LocalTZA t = Day t - (if LocalTZA <? 0 then 1 else 0).
Proof.
  intros Hz Ht. unfold localDay. rewrite Ht at 1.
  rewrite Z.add_comm, Day_shift.
  destruct (LocalTZA <? 0) eqn:E;
    [apply Z.ltb_lt in E | apply Z.ltb_ge in E];
    unfold Day, msPerDay in *; Z.to_euclidean_division_equations; lia.
Qed.

End WrittenDate.

(** The Week window in terms of the day a record writes.  For a date in a
    date-only form ([YYYY-MM-DD] in particular), the record is included
    exactly when the written day, less one day when local time is behind
    UTC, is not before the local day of [now] minus six: east of UTC the
    window is the one of the written dates, west of UTC it is a day
    late. *)
Theorem week_window_by_written_day
  (LocalTZA : Z) (hostDateParse : string -> option Z)
  (now : Z) (item : Row.t) (s : string) (t : Z) :
  - JsDate.msPerDay < LocalTZA < JsDate.msPerDay ->
  Z.abs now <= maxTime ->
  10963 <= localDay LocalTZA now ->
  Row.date item = Some s ->
  JsDate.parseIsoDateOnly s = Some t ->
  inTimeWindow LocalTZA hostDateParse "week" now item
  = (localDay LocalTZA now - 6
     <=? JsDate.Day t - (if LocalTZA <? 0 then 1 else 0)).
Proof.
  intros Hz Hnow Hday Ed Ep.
  pose proof (week_window_by_local_day LocalTZA hostDateParse now item
                Hz Hnow Hday) as [Main _].
  assert (Hp : Date_parse hostDateParse s = Some t)
    by (unfold Date_parse; now rewrite Ep).
  assert (Hne : s <> ""%string) by (intros ->; discriminate).
  rewrite <- (localDay_of_utc_midnight LocalTZA t Hz
                (parseIsoDateOnly_day s t Ep)).
  apply eq_true_iff_eq. rewrite Main, Z.leb_le. split.
  - intros (s' & t' & E1 & _ & E2 & H). congruence.
  - intros H. exists s, t. auto.
Qed.

(** C2.  The claim fails west of UTC.  In a zone five hours behind UTC, at
    noon of 7 March 2024 (17:00 UTC), a record dated 2024-03-01 has a date
    that is present and parses, and 1 March is not before 7 March minus six
    days, so the claim includes it; the code leaves it out, because the
    date is read as midnight UTC and its day is then taken in local time,
    where it is still 29 February.  Under UTC the same record at the same
    instant is included. *)
Theorem week_window_west_of_utc (hostDateParse : string -> option Z) :
  let item := Row.make 1 (VNumber 12.5%float) (Some "Food"%string) None
                (Some "2024-03-01"%string) in
  let now := 1709830800000 in
  let zone := -18000000 in
  Row.date item = Some "2024-03-01"%string
  /\ Date_parse hostDateParse "2024-03-01" = Some 1709251200000
  /\ JsDate.toISOString 1709251200000 = "2024-03-01T00:00:00.000Z"%string
  /\ JsDate.toISOString (now + zone) = "2024-03-07T12:00:00.000Z"%string
  /\ localDay zone now - 6 <= JsDate.Day 1709251200000
  /\ inTimeWindow zone hostDateParse "week" now item = false
  /\ inTimeWindow 0 hostDateParse "week" now item = true.
Proof. repeat split; vm_compute; try reflexivity; discriminate. Qed.

(* ================================================================== *)
(** * Validation: [addExpense] *)
(* ================================================================== *)

Section Validation.
Import JsString JsDate JsNumber.

Variable hostDateParse : string -> option Z.

Lemma length_fixedDigits w n : List.length (fixedDigits w n) = w.
Proof.
  revert n. induction w as [|w IH]; intros n; cbn; [reflexivity|].
  rewrite length_app, IH. cbn. lia.
Qed.

Lemma length_string_of_list l :
  String.length (string_of_list_ascii l) = List.length l.
Proof. induction l as [|c l IH]; cbn; [reflexivity|now rewrite IH]. Qed.

Lemma length_padded w n : String.length (padded w n) = w.
Proof.
  unfold padded. now rewrite length_string_of_list, length_fixedDigits.
Qed.

Lemma string_append_assoc (a b c : string) :
  ((a ++ b) ++ c = a ++ (b ++ c))%string.
Proof. induction a as [|x a IH]; cbn; [reflexivity|now rewrite IH]. Qed.

Lemma string_length_append (a b : string) :
  String.length (a ++ b) = (String.length a + String.length b)%nat.
Proof. induction a as [|x a IH]; cbn; [reflexivity|now rewrite IH]. Qed.

Lemma substring_prefix (a b : string) :
  substring 0 (String.length a) (a ++ b) = a.
Proof.
  induction a as [|x a IH]; cbn.
  - destruct b; reflexivity.
  - now rewrite IH.
Qed.

(** The first ten characters of [toISOString] are [YYYY-MM-DD] when the
    year needs four digits. *)
Lemma slice_toISOString t :
  0 <= YearFromTime t <= 9999 ->
  slice_0_10 (toISOString t) = isoDateUTC t.
Proof.
  intros Hy. unfold slice_0_10, toISOString, isoYear.
  replace ((0 <=? YearFromTime t) && (YearFromTime t <=? 9999)) with true
    by (symmetry; apply andb_true_intro; split; apply Z.leb_le; lia).
  assert (L : String.length (isoDateUTC t) = 10%nat).
  { unfold isoDateUTC.
    rewrite !string_length_append, !length_padded. reflexivity. }
  rewrite <- L at 1. unfold isoDateUTC.
  match goal with
  | |- substring 0 (String.length ?a) ?s = _ =>
      replace s with (a ++ ("T" ++ padded 2 (HourFromTime t) ++ ":"
                            ++ padded 2 (MinFromTime t) ++ ":"
                            ++ padded 2 (SecFromTime t) ++ "."
                            ++ padded 3 (msFromTime t) ++ "Z"))%string
  end.
  - apply substring_prefix.
  - rewrite !string_append_assoc. reflexivity.
Qed.

Lemma isoDatePattern_truthy s :
  isoDatePattern s = true -> JsString.truthy s = true.
Proof. destruct s; [discriminate|reflexivity]. Qed.

Lemma truthy_nonempty s : JsString.truthy s = true <-> s <> ""%string.
Proof. destruct s; cbn; split; congruence. Qed.

End Validation.

(** What the date block of [addExpense] computes.  An empty [rawDate]
    gives no date; a [rawDate] of the shape [dddd-dd-dd] is kept as it is;
    any other text that parses as a date whose UTC year is from 0 to 9999
    is replaced by the [YYYY-MM-DD] form of its UTC calendar date; a text
    that does not parse gives no date.  In each case nothing is raised and
    the record is stored, with that date, when the amount and the category
    are valid. *)
Theorem date_normalization
  (hostDateParse : string -> option Z) (rawDate : string) :
  (rawDate = ""%string -> dateIso hostDateParse rawDate = None)
  /\ (JsString.isoDatePattern rawDate = true ->
      dateIso hostDateParse rawDate = Some rawDate)
  /\ (forall t,
        rawDate <> ""%string -> JsString.isoDatePattern rawDate = false ->
        Date_parse hostDateParse rawDate = Some t ->
        0 <= JsDate.YearFromTime t <= 9999 ->
        dateIso hostDateParse rawDate = Some (isoDateUTC t))
  /\ (rawDate <> ""%string -> JsString.isoDatePattern rawDate = false ->
      Date_parse hostDateParse rawDate = None ->
      dateIso hostDateParse rawDate = None)
  /\ (forall db st,
        State.date st = rawDate ->
        JsNumber.isNaN (JsNumber.parseFloat (State.amount st)) = false ->
        (JsNumber.parseFloat (State.amount st) <=? 0)%float = false ->
        JsString.trim (State.category st) <> ""%string ->
        fst (fst (addExpense hostDateParse db st)) = Saved
        /\ (State.editingId st = None ->
            exists r,
              rows (snd (fst (addExpense hostDateParse db st)))
              = rows db ++ [r]
              /\ Row.date r = dateIso hostDateParse rawDate)).
Proof.
  repeat split.
  - intros ->. reflexivity.
  - intros H. unfold dateIso.
    now rewrite (isoDatePattern_truthy _ H), H.
  - intros t Hne Hp Ht Hy. unfold dateIso, getTime.
    apply truthy_nonempty in Hne. rewrite Hne, Hp, Ht.
    now rewrite slice_toISOString.
  - intros Hne Hp Ht. unfold dateIso, getTime.
    apply truthy_nonempty in Hne. now rewrite Hne, Hp, Ht.
  - unfold addExpense. rewrite H0, H1. cbn [orb].
    apply truthy_nonempty in H2. rewrite H2. reflexivity.
  - intros He. unfold addExpense. rewrite H0, H1. cbn [orb].
    apply truthy_nonempty in H2. rewrite H2. cbn [negb fst snd].
    rewrite He. cbn [insertRow rows]. eexists. split; [reflexivity|].
    cbn. now rewrite H.
Qed.

(** A text without any digit, and without the letter of [Infinity], is
    not numeric: [parseFloat] finds no number in it. *)
Lemma spanDigits_no_digit l :
  forallb (fun c => negb (JsString.isDigit c)
                    && negb (JsString.isChar c "I")) l = true ->
  JsNumber.spanDigits l = ([], l).
Proof.
  destruct l as [|c l]; [reflexivity|]. cbn. intros H.
  apply andb_prop in H as [H _]. apply andb_prop in H as [H _].
  apply negb_true_iff in H. now rewrite H.
Qed.

Lemma scanUnsigned_no_digit neg l :
  forallb (fun c => negb (JsString.isDigit c)
                    && negb (JsString.isChar c "I")) l = true ->
  JsNumber.scanUnsigned neg l = nan.
Proof.
  intros H. unfold JsNumber.scanUnsigned.
  assert (S : JsNumber.startsWith (list_ascii_of_string "Infinity") l = false).
  { destruct l as [|c l]; [reflexivity|]. cbn [forallb] in H.
    apply andb_prop in H as [H _]. apply andb_prop in H as [_ H].
    apply negb_true_iff in H. unfold JsString.isChar in H.
    rewrite Ascii.eqb_sym in H.
    change (JsNumber.startsWith (list_ascii_of_string "Infinity") (c :: l))
      with (Ascii.eqb "I" c
            && JsNumber.startsWith (list_ascii_of_string "nfinity") l).
    now rewrite H. }
  rewrite S, (spanDigits_no_digit l H).
  destruct l as [|c l]; [reflexivity|].
  cbn [forallb] in H. apply andb_prop in H as [_ H].
  destruct (JsString.isChar c "."); [|reflexivity].
  now rewrite (spanDigits_no_digit l H).
Qed.

Lemma dropWhiteSpace_forallb (p : ascii -> bool) l :
  forallb p l = true -> forallb p (JsString.dropWhiteSpace l) = true.
Proof.
  induction l as [|c l IH]; [reflexivity|]. intros H. cbn [JsString.dropWhiteSpace].
  destruct (JsString.isWhiteSpace c); [|exact H].
  cbn [forallb] in H. apply andb_prop in H as [_ H]. now apply IH.
Qed.

Lemma parseFloat_without_digits s :
  withoutNumeral s = true ->
  JsNumber.isNaN (JsNumber.parseFloat s) = true.
Proof.
  unfold withoutNumeral.
  intros H. apply dropWhiteSpace_forallb in H. unfold JsNumber.parseFloat.
  destruct (JsString.dropWhiteSpace (list_ascii_of_string s)) as [|c l];
    [reflexivity|].
  assert (T : forallb (fun c => negb (JsString.isDigit c)
                                && negb (JsString.isChar c "I")) l = true)
    by (cbn [forallb] in H; now apply andb_prop in H as [_ H]).
  destruct (JsString.isChar c "-");
    [now rewrite scanUnsigned_no_digit|].
  destruct (JsString.isChar c "+");
    [now rewrite scanUnsigned_no_digit|].
  now rewrite scanUnsigned_no_digit.
Qed.

(** C3.  The claim fails for a date whose year has no four-digit form.
    The text [-000001-01], which the date field lets through (digits and
    hyphens, ten characters), is a year and a month in the expanded-year
    form of the date-time string format: it is not of the shape
    [dddd-dd-dd] and it parses, to 1 January of the year -1.  What is stored
    for it is the first ten characters of [-000001-01-01T00:00:00.000Z],
    the text itself, which is not a [YYYY-MM-DD] date.  Likewise
    [+010000-01-01], 1 January of the year 10000, is stored as
    [+010000-01]. *)
Theorem date_beyond_four_digit_years (hostDateParse : string -> option Z) :
  JsString.isoDatePattern "-000001-01" = false
  /\ Date_parse hostDateParse "-000001-01" = Some (-62198755200000)
  /\ JsDate.toISOString (-62198755200000)
     = "-000001-01-01T00:00:00.000Z"%string
  /\ dateIso hostDateParse "-000001-01" = Some "-000001-01"%string
  /\ JsString.isoDatePattern "+010000-01-01" = false
  /\ Date_parse hostDateParse "+010000-01-01" = Some 253402300800000
  /\ JsDate.YearFromTime 253402300800000 = 10000
  /\ dateIso hostDateParse "+010000-01-01" = Some "+010000-01"%string
  /\ fst (fst (addExpense hostDateParse {| rows := []; nextId := 1 |}
                 (State.make [] "12.5" "Food" "" "-000001-01" "all" "all"
                    None))) = Saved
  /\ rows (snd (fst (addExpense hostDateParse {| rows := []; nextId := 1 |}
                       (State.make [] "12.5" "Food" "" "-000001-01" "all"
                          "all" None))))
     = [Row.make 1 (VNumber 12.5%float) (Some "Food"%string) None
          (Some "-000001-01"%string)].
Proof. repeat split; reflexivity. Qed.

(** The example of the specification: a date that is not one is dropped
    and the record is stored without a date (the host parser knows no other
    format here). *)
Example addExpense_not_a_date :
  addExpense (fun _ => None) {| rows := []; nextId := 1 |}
    (State.make [] "12.5" "Food" "" "not-a-date" "all" "all" None)
  = (Saved,
     {| rows := [Row.make 1 (VNumber 12.5%float) (Some "Food"%string)
                   None None];
        nextId := 2 |},
     State.make [Row.make 1 (VNumber 12.5%float) (Some "Food"%string)
                   None None]
       "" "" "" "" "all" "all" None).
Proof. reflexivity. Qed.

(* ================================================================== *)
(** * The filter pipeline *)
(* ================================================================== *)

Section Filters.
Context {A : Type}.

Lemma filter_comm (p q : A -> bool) (l : list A) :
  List.filter p (List.filter q l) = List.filter q (List.filter p l).
Proof.
  induction l as [|x l IH]; [reflexivity|]. cbn.
  destruct (p x) eqn:P, (q x) eqn:Q; cbn; rewrite ?P, ?Q, IH; reflexivity.
Qed.

Lemma Subseq_filter (p : A -> bool) (l : list A) :
  Subseq (List.filter p l) l.
Proof.
  induction l as [|x l IH]; cbn; [constructor|].
  destruct (p x); [now apply Subseq_keep|now apply Subseq_skip].
Qed.

Lemma Subseq_refl (l : list A) : Subseq l l.
Proof. induction l; [constructor|now apply Subseq_keep]. Qed.

Lemma Subseq_trans (l1 l2 l3 : list A) :
  Subseq l1 l2 -> Subseq l2 l3 -> Subseq l1 l3.
Proof.
  intros H12 H23. revert l1 H12.
  induction H23 as [|x l2 l3 H IH|x l2 l3 H IH]; intros l1 H12.
  - exact H12.
  - constructor. now apply IH.
  - inversion H12; subst.
    + apply Subseq_skip. now apply IH.
    + apply Subseq_keep. now apply IH.
Qed.

Lemma Subseq_In (l1 l2 : list A) x : Subseq l1 l2 -> In x l1 -> In x l2.
Proof.
  induction 1 as [|y l1 l2 H IH|y l1 l2 H IH]; cbn; intuition.
Qed.

Lemma Subseq_length (l1 l2 : list A) :
  Subseq l1 l2 -> (List.length l1 <= List.length l2)%nat.
Proof. induction 1; cbn; lia. Qed.

(** An element occurs in a subsequence at most as often as in the list:
    counted by any test. *)
Lemma Subseq_count (p : A -> bool) (l1 l2 : list A) :
  Subseq l1 l2 ->
  (List.length (List.filter p l1) <= List.length (List.filter p l2))%nat.
Proof.
  induction 1 as [|y l1 l2 H IH|y l1 l2 H IH]; cbn; [lia| |];
    destruct (p y); cbn; lia.
Qed.

End Filters.

(** C8.  The Week time-window filter and the category filter commute: the
    two callbacks applied in either order keep the same records in the same
    order. *)
Theorem week_and_category_filters_commute
  (LocalTZA : Z) (hostDateParse : string -> option Z)
  (expenses : list Row.t) (categoryFilter : string) (now : Z) :
  finalFiltered
    (filteredExpenses LocalTZA hostDateParse expenses "week" now)
    categoryFilter
  = filteredExpenses LocalTZA hostDateParse
      (finalFiltered expenses categoryFilter) "week" now.
Proof. unfold finalFiltered, filteredExpenses. apply filter_comm. Qed.

(** C10.  The output of the filter pipeline is a subsequence of its input:
    records are dropped, never created, changed, reordered or repeated.
    Every record shown is a record of the input, the output is no longer
    than the input, and no record (picked out by any test) occurs more often
    in the output than in the input. *)
Theorem filter_pipeline_subsequence
  (LocalTZA : Z) (hostDateParse : string -> option Z)
  (expenses : list Row.t) (filter categoryFilter : string) (now : Z) :
  let out :=
    finalFiltered
      (filteredExpenses LocalTZA hostDateParse expenses filter now)
      categoryFilter in
  Subseq out expenses
  /\ (forall r, In r out -> In r expenses)
  /\ (List.length out <= List.length expenses)%nat
  /\ (forall p : Row.t -> bool,
        (List.length (List.filter p out)
         <= List.length (List.filter p expenses))%nat).
Proof.
  intros out.
  assert (S : Subseq out expenses).
  { unfold out, finalFiltered, filteredExpenses.
    eapply Subseq_trans; apply Subseq_filter. }
  repeat split.
  - exact S.
  - intros r. now apply Subseq_In.
  - now apply Subseq_length.
  - intros p. now apply Subseq_count.
Qed.

(* ================================================================== *)
(** * Which records the aggregates are computed from *)
(* ================================================================== *)

Lemma finalFiltered_all (l : list Row.t) : finalFiltered l "all" = l.
Proof.
  unfold finalFiltered. change (String.eqb "all" "all") with true.
  induction l as [|x l IH]; [reflexivity|cbn [List.filter]; now rewrite IH].
Qed.



(* ================================================================== *)
(** * Facts about doubles *)
(* ================================================================== *)

Section Doubles.

Lemma SFcompare_refl X : X <> S754_nan -> SFcompare X X = Some Eq.
Proof.
  destruct X as [s|s| |s m e]; cbn; try congruence.
  - destruct s; reflexivity.
  - intros _. rewrite Z.compare_refl.
    assert (Pos.compare_cont Eq m m = Eq) as ->
      by (apply Pos.compare_cont_refl).
    destruct s; reflexivity.
Qed.

Lemma is_nan_spec x : is_nan x = true <-> Prim2SF x = S754_nan.
Proof.
  unfold is_nan. rewrite eqb_spec. unfold SFeqb.
  destruct (Prim2SF x) as [s|s| |s m e] eqn:E.
  - cbn. split; discriminate.
  - rewrite SFcompare_refl by discriminate. split; discriminate.
  - cbn. split; reflexivity.
  - rewrite SFcompare_refl by discriminate. split; discriminate.
Qed.

Lemma Prim2SF_zero : Prim2SF zero = S754_zero false.
Proof. reflexivity. Qed.

Lemma Prim2SF_infinity : Prim2SF infinity = S754_infinity false.
Proof. reflexivity. Qed.

Lemma is_zero_spec x : is_zero x = true <-> exists s, Prim2SF x = S754_zero s.
Proof.
  unfold is_zero. rewrite eqb_spec, Prim2SF_zero. unfold SFeqb.
  destruct (Prim2SF x) as [s|s| |s m e]; cbn.
  - split; eauto.
  - destruct s; split; try discriminate; intros [? ?]; discriminate.
  - split; [discriminate|]. intros [? ?]; discriminate.
  - destruct s; split; try discriminate; intros [? ?]; discriminate.
Qed.

Lemma is_infinity_spec x :
  is_infinity x = true <-> exists s, Prim2SF x = S754_infinity s.
Proof.
  unfold is_infinity. rewrite eqb_spec, abs_spec, Prim2SF_infinity.
  unfold SFeqb.
  destruct (Prim2SF x) as [s|s| |s m e]; cbn.
  - split; [discriminate|]. intros [? ?]; discriminate.
  - split; eauto.
  - split; [discriminate|]. intros [? ?]; discriminate.
  - split; [discriminate|]. intros [? ?]; discriminate.
Qed.

(** A finite double is a zero or has a mantissa and an exponent. *)
Lemma is_finite_spec x :
  is_finite x = true <->
  (exists s, Prim2SF x = S754_zero s)
  \/ (exists s m e, Prim2SF x = S754_finite s m e).
Proof.
  unfold is_finite. rewrite negb_true_iff, orb_false_iff.
  pose proof (is_nan_spec x) as N. pose proof (is_infinity_spec x) as I.
  destruct (Prim2SF x) as [s|s| |s m e] eqn:E.
  - split; [eauto|]. intros _. split.
    + apply not_true_is_false. intros H. apply N in H. discriminate.
    + apply not_true_is_false. intros H. apply I in H as [? ?].
      discriminate.
  - split.
    + intros [_ H]. assert (is_infinity x = true) by (apply I; eauto).
      congruence.
    + intros [[? ?]|(? & ? & ? & ?)]; discriminate.
  - split.
    + intros [H _]. assert (is_nan x = true) by (now apply N). congruence.
    + intros [[? ?]|(? & ? & ? & ?)]; discriminate.
  - split; [eauto 6|]. intros _. split.
    + apply not_true_is_false. intros H. apply N in H. discriminate.
    + apply not_true_is_false. intros H. apply I in H as [? ?].
      discriminate.
Qed.

(** Shifting and rounding keep a mantissa non-negative, so the sum of two
    finite doubles is never [NaN]. *)
Lemma shr_1_nonneg mrs : 0 <= shr_m mrs -> 0 <= shr_m (shr_1 mrs).
Proof.
  destruct mrs as [m r s]. cbn.
  destruct m as [|p|p]; [cbn; lia| |cbn; lia].
  intros _. destruct p; cbn; lia.
Qed.

Lemma iter_pos_invariant {A} (P : A -> Prop) (f : A -> A) :
  (forall x, P x -> P (f x)) ->
  forall n x, P x -> P (iter_pos f n x).
Proof.
  intros Hf. induction n as [n IH|n IH|]; intros x Hx; cbn; auto.
Qed.

Lemma shr_fexp_nonneg m e l :
  0 <= m -> 0 <= shr_m (fst (shr_fexp prec emax m e l)).
Proof.
  intros Hm. unfold shr_fexp, shr.
  assert (H0 : 0 <= shr_m (shr_record_of_loc m l))
    by (destruct l as [|[| |]]; cbn; exact Hm).
  destruct (fexp prec emax (Zdigits2 m + e) - e) as [|p|p]; cbn [fst];
    try exact H0.
  apply (iter_pos_invariant (fun mrs => 0 <= shr_m mrs)); [|exact H0].
  apply shr_1_nonneg.
Qed.

Lemma round_nearest_even_nonneg m l :
  0 <= m -> 0 <= round_nearest_even m l.
Proof.
  intros Hm. unfold round_nearest_even.
  destruct l as [|[| |]]; try lia. destruct (Z.even m); lia.
Qed.

Lemma binary_round_aux_not_nan sx mx ex lx :
  0 <= mx -> binary_round_aux prec emax sx mx ex lx <> S754_nan.
Proof.
  intros Hm. unfold binary_round_aux.
  pose proof (shr_fexp_nonneg mx ex lx Hm) as H1.
  destruct (shr_fexp prec emax mx ex lx) as [mrs' e'] eqn:E1.
  cbn [fst] in H1.
  pose proof (shr_fexp_nonneg
                (round_nearest_even (shr_m mrs') (loc_of_shr_record mrs'))
                e' loc_Exact
                (round_nearest_even_nonneg _ _ H1)) as H2.
  destruct (shr_fexp prec emax _ e' loc_Exact) as [mrs'' e''] eqn:E2.
  cbn [fst] in H2.
  destruct (shr_m mrs'') as [|p|p]; [discriminate| |lia].
  destruct (e'' <=? emax - prec); discriminate.
Qed.

Lemma binary_normalize_not_nan m e sz :
  binary_normalize prec emax m e sz <> S754_nan.
Proof.
  unfold binary_normalize, binary_round.
  destruct m as [|p|p]; [discriminate| |];
    destruct (shl_align p e _) as [mz ez];
    apply binary_round_aux_not_nan; lia.
Qed.

Lemma add_finite_not_nan a n :
  is_nan a = false -> is_finite n = true -> is_nan (a + n) = false.
Proof.
  intros Ha Hn. apply not_true_is_false. intros H.
  apply is_nan_spec in H. rewrite add_spec in H.
  assert (Prim2SF a <> S754_nan) as Na.
  { intros E. apply is_nan_spec in E. congruence. }
  apply is_finite_spec in Hn.
  unfold SF64add, SFadd in H.
  destruct (Prim2SF a) as [sa|sa| |sa ma ea]; [| |congruence|];
    destruct Hn as [[sn En]|(sn & mn & en & En)]; rewrite En in H;
    try discriminate.
  - destruct sa, sn; discriminate.
  - revert H. apply binary_normalize_not_nan.
Qed.

(** A double is not negative: a zero, a positive number or [+Infinity]. *)
Lemma nonneg_spec x :
  (0 <=? x)%float = true <->
  (exists s, Prim2SF x = S754_zero s)
  \/ Prim2SF x = S754_infinity false
  \/ (exists m e, Prim2SF x = S754_finite false m e).
Proof.
  rewrite leb_spec. change (Prim2SF 0) with (S754_zero false).
  unfold SFleb.
  destruct (Prim2SF x) as [s|s| |s m e]; cbn.
  - split; eauto.
  - destruct s; split; try discriminate; auto.
    intros [[? ?]|[?|(? & ? & ?)]]; discriminate.
  - split; [discriminate|].
    intros [[? ?]|[?|(? & ? & ?)]]; discriminate.
  - destruct s; split; try discriminate; eauto.
    intros [[? ?]|[?|(? & ? & ?)]]; discriminate.
Qed.

Lemma binary_round_aux_sign sx mx ex lx :
  0 <= mx ->
  binary_round_aux prec emax sx mx ex lx = S754_zero sx
  \/ binary_round_aux prec emax sx mx ex lx = S754_infinity sx
  \/ exists m e, binary_round_aux prec emax sx mx ex lx = S754_finite sx m e.
Proof.
  intros Hm. unfold binary_round_aux.
  pose proof (shr_fexp_nonneg mx ex lx Hm) as H1.
  destruct (shr_fexp prec emax mx ex lx) as [mrs' e'] eqn:E1.
  cbn [fst] in H1.
  pose proof (shr_fexp_nonneg
                (round_nearest_even (shr_m mrs') (loc_of_shr_record mrs'))
                e' loc_Exact
                (round_nearest_even_nonneg _ _ H1)) as H2.
  destruct (shr_fexp prec emax _ e' loc_Exact) as [mrs'' e''] eqn:E2.
  cbn [fst] in H2.
  destruct (shr_m mrs'') as [|p|p]; [auto| |lia].
  destruct (e'' <=? emax - prec); eauto.
Qed.

(** Doubles that are not negative add up to one that is not negative, in
    particular not to [NaN]. *)
Lemma add_nonneg a n :
  (0 <=? a)%float = true -> (0 <=? n)%float = true ->
  (0 <=? a + n)%float = true.
Proof.
  intros Ha Hn. apply nonneg_spec in Ha. apply nonneg_spec in Hn.
  apply nonneg_spec. rewrite add_spec. unfold SF64add, SFadd.
  destruct Ha as [[sa Ea]|[Ea|(ma & ea & Ea)]]; rewrite Ea;
    destruct Hn as [[sn En]|[En|(mn & en & En)]]; rewrite En; eauto.
  - destruct sa, sn; eauto.
  - unfold binary_normalize.
    destruct (shl_align ma ea (Z.min ea en)) as [m1 e1].
    destruct (shl_align mn en (Z.min ea en)) as [m2 e2].
    cbn [fst cond_Zopp Z.add]. unfold binary_round.
    destruct (shl_align (m1 + m2) (Z.min ea en) _) as [mz ez].
    destruct (binary_round_aux_sign false (Zpos mz) ez loc_Exact ltac:(lia))
      as [E|[E|(m & e & E)]]; rewrite E; eauto.
Qed.

Lemma nonneg_not_nan a : (0 <=? a)%float = true -> is_nan a = false.
Proof.
  intros H. apply not_true_is_false. intros N.
  apply is_nan_spec in N. apply nonneg_spec in H.
  destruct H as [[? ?]|[?|(? & ? & ?)]]; congruence.
Qed.

(** ** The same number *)

Lemma sameNumber_refl x : sameNumber x x.
Proof. now left. Qed.


Lemma sameNumber_trans x y z :
  sameNumber x y -> sameNumber y z -> sameNumber x z.
Proof.
  intros [->|[H1 H2]] [->|[H3 H4]]; try (now left); try (right; now auto).
Qed.

(** Adding to [+0] or to [-0] gives the same number. *)
Lemma add_zeros_same a a' n :
  is_zero a = true -> is_zero a' = true -> sameNumber (a + n) (a' + n).
Proof.
  intros Ha Ha'. apply is_zero_spec in Ha as [s Es].
  apply is_zero_spec in Ha' as [s' Es'].
  destruct (Prim2SF n) as [sn|sn| |sn mn en] eqn:En.
  - right. split; apply is_zero_spec; rewrite add_spec;
      unfold SF64add, SFadd; rewrite ?Es, ?Es', En.
    + destruct s, sn; eauto.
    + destruct s', sn; eauto.
  - left. apply Prim2SF_inj. rewrite !add_spec.
    unfold SF64add, SFadd. now rewrite Es, Es', En.
  - left. apply Prim2SF_inj. rewrite !add_spec.
    unfold SF64add, SFadd. now rewrite Es, Es', En.
  - left. apply Prim2SF_inj. rewrite !add_spec.
    unfold SF64add, SFadd. now rewrite Es, Es', En.
Qed.

Lemma add_same_l a a' n :
  sameNumber a a' -> sameNumber (a + n) (a' + n).
Proof.
  intros [->|[H1 H2]]; [now left|now apply add_zeros_same].
Qed.


(** [v || 0] is the same number as [v] unless [v] is [NaN]. *)
Lemma orZero_same v :
  is_nan v = false ->
  sameNumber (if JsNumber.truthy v then v else zero) v.
Proof.
  intros Hn. unfold JsNumber.truthy. rewrite Hn. cbn [orb].
  destruct (is_zero v) eqn:Z; cbn [negb]; [|now left].
  right. split; [reflexivity|exact Z].
Qed.

Lemma sameNumber_nan x y :
  sameNumber x y -> is_nan x = false -> is_nan y = false.
Proof.
  intros [->|[_ H]] Hx; [exact Hx|].
  apply not_true_is_false. intros N. apply is_nan_spec in N.
  apply is_zero_spec in H as [s E]. congruence.
Qed.

End Doubles.

(* ================================================================== *)
(** * The amount field *)
(* ================================================================== *)

Section AmountField.
Import JsString JsNumber.

Lemma hasSign_not_nan s X : hasSign s X -> X <> S754_nan.
Proof. intros [->|[->|(m & e & ->)]]; discriminate. Qed.

Lemma binary_round_sign s m e : hasSign s (binary_round prec emax s m e).
Proof.
  unfold binary_round. destruct (shl_align _ _ _) as [mz ez].
  apply binary_round_aux_sign. lia.
Qed.

Lemma binary_normalize_sign m e :
  0 <= m -> hasSign false (binary_normalize prec emax m e false).
Proof.
  intros H. unfold binary_normalize. destruct m as [|p|p]; [now left| |lia].
  apply binary_round_sign.
Qed.

Lemma SFldexp_sign s X e : hasSign s X -> hasSign s (SFldexp prec emax X e).
Proof.
  intros [->|[->|(m & e' & ->)]]; cbn [SFldexp];
    [now left|right; now left|apply binary_round_sign].
Qed.

Lemma SFopp_sign s X : hasSign s X -> hasSign (negb s) (SFopp X).
Proof.
  intros [->|[->|(m & e & ->)]]; cbn;
    [now left|right; now left|right; right; eauto].
Qed.

(** [SF2Prim] keeps the sign of what it is given. *)
Lemma SF2Prim_sign s X : hasSign s X -> hasSign s (Prim2SF (SF2Prim X)).
Proof.
  intros [->|[->|(m & e & ->)]].
  - destruct s; now left.
  - destruct s; right; now left.
  - cbn [SF2Prim].
    assert (P : hasSign false
                  (Prim2SF
                     (Z.ldexp (of_uint63 (Uint63Axioms.of_Z (Z.pos m))) e))).
    { unfold Z.ldexp. rewrite ldshiftexp_spec. apply SFldexp_sign.
      rewrite of_uint63_spec. apply binary_normalize_sign.
      apply Uint63.to_Z_bounded. }
    destruct s; [|exact P].
    rewrite opp_spec. exact (SFopp_sign false _ P).
Qed.

Lemma nonpos_of_sign x : hasSign true (Prim2SF x) -> (x <=? 0)%float = true.
Proof.
  rewrite leb_spec. change (Prim2SF 0) with (S754_zero false).
  intros [->|[->|(m & e & ->)]]; reflexivity.
Qed.

Lemma not_nan_of_sign s x : hasSign s (Prim2SF x) -> is_nan x = false.
Proof.
  intros H. apply not_true_is_false. intros N. apply is_nan_spec in N.
  now apply hasSign_not_nan in H.
Qed.

Lemma div_core_nonneg m k q e l :
  0 < m -> 0 < k ->
  SFdiv_core_binary prec emax m 0 k 0 = (q, e, l) -> 0 <= q.
Proof.
  intros Hm Hk. unfold SFdiv_core_binary.
  set (s := _ - _ - _).
  set (m' := match s with 0 => m | Z.pos _ => Z.shiftl m s | Z.neg _ => 0 end).
  assert (H' : 0 <= m').
  { unfold m'. destruct s; [lia| |lia]. apply Z.shiftl_nonneg. lia. }
  pose proof (Z.div_eucl_eq m' k ltac:(lia)) as E.
  pose proof (Z.mod_pos_bound m' k Hk) as B.
  unfold Z.modulo in B.
  destruct (Z.div_eucl m' k) as [q0 r0] eqn:D.
  intros [= <- _ _]. nia.
Qed.

Lemma decimalToFloat_sign neg m e :
  hasSign neg (Prim2SF (decimalToFloat neg m e)).
Proof.
  unfold decimalToFloat.
  destruct (m <=? 0) eqn:M; [destruct neg; now left|].
  destruct (400 <? e); [destruct neg; right; now left|].
  destruct (Z.log2 m + 1076 <? 3 * (- e)); [destruct neg; now left|].
  apply Z.leb_gt in M.
  destruct (0 <=? e) eqn:E.
  - apply SF2Prim_sign. apply Z.leb_le in E.
    assert (P : 0 < m * 10 ^ e)
      by (apply Z.mul_pos_pos; [lia|apply Z.pow_pos_nonneg; lia]).
    unfold binary_normalize. destruct neg.
    + destruct (- (m * 10 ^ e)) as [|p|p] eqn:V; [lia|lia|].
      apply binary_round_sign.
    + destruct (m * 10 ^ e) as [|p|p] eqn:V; [lia| |lia].
      apply binary_round_sign.
  - apply Z.leb_gt in E.
    destruct (SFdiv_core_binary prec emax m 0 (10 ^ (- e)) 0)
      as [[q e2] loc] eqn:D.
    apply SF2Prim_sign. apply binary_round_aux_sign.
    eapply div_core_nonneg; [exact M| |exact D]. apply Z.pow_pos_nonneg; lia.
Qed.

(** What [scanUnsigned] reads in terms of the digits of the numeral. *)
Lemma scanUnsigned_cases neg l :
  (startsNumeral l = false /\ scanUnsigned neg l = nan)
  \/ (startsNumeral l = true /\ hasSign neg (Prim2SF (scanUnsigned neg l))).
Proof.
  unfold startsNumeral, scanUnsigned, numeralDigits.
  destruct (startsWith _ l).
  - right. split; [reflexivity|]. destruct neg; right; now left.
  - cbn [orb]. destruct (spanDigits l) as [ip r1].
    assert (L : forall ds : list ascii,
              negb (Nat.eqb (List.length ds) 0)
              = match ds with [] => false | _ :: _ => true end)
      by (intros [|? ?]; reflexivity).
    rewrite L.
    destruct r1 as [|c tl]; [|destruct (isChar c ".")];
      try destruct (spanDigits tl) as [fp r2]; cbn [fst];
      match goal with
      | |- context [match ?d with [] => nan | _ :: _ => _ end] =>
          destruct d; [left; split; reflexivity|];
          right; split; [reflexivity|apply decimalToFloat_sign]
      end.
Qed.

Lemma parseFloat_signedPart s :
  parseFloat s = scanUnsigned (fst (signedPart s)) (snd (signedPart s)).
Proof.
  unfold parseFloat, signedPart.
  destruct (dropWhiteSpace (list_ascii_of_string s)) as [|c tl];
    [reflexivity|].
  destruct (isChar c "-"); [reflexivity|].
  destruct (isChar c "+"); reflexivity.
Qed.

Lemma digitsValue_zeros ds :
  forallb (fun c => isChar c "0") ds = true -> digitsValue ds = 0.
Proof.
  unfold digitsValue.
  assert (G : forall a, a = 0 ->
            forallb (fun c => isChar c "0") ds = true ->
            fold_left (fun a c => 10 * a + digitValue c) ds a = 0).
  { induction ds as [|c ds IH]; intros a Ha H; cbn; [exact Ha|].
    cbn in H. apply andb_prop in H as [Hc H]. apply IH; [|exact H].
    unfold isChar in Hc. apply Ascii.eqb_eq in Hc. subst c a. reflexivity. }
  now apply G.
Qed.

Lemma scanUnsigned_zero neg l :
  startsZero l = true -> is_zero (scanUnsigned neg l) = true.
Proof.
  unfold startsZero, scanUnsigned, numeralDigits.
  destruct (startsWith _ l); [discriminate|]. cbn [negb andb].
  destruct (spanDigits l) as [ip r1].
  assert (Z0 : forall ds e, forallb (fun c => isChar c "0") ds = true ->
            is_zero (decimalToFloat neg (digitsValue ds) e) = true).
  { intros ds e H. rewrite (digitsValue_zeros ds H). unfold decimalToFloat.
    cbn. destruct neg; reflexivity. }
  destruct r1 as [|c tl]; [|destruct (isChar c ".")];
    try destruct (spanDigits tl) as [fp r2]; cbn [fst];
    match goal with
    | |- context [match ?d with [] => nan | _ :: _ => _ end] =>
        destruct d eqn:E; [discriminate|];
        intros H; apply andb_prop in H as [_ H]; now apply Z0
    end.
Qed.

Lemma zero_le_zero x : is_zero x = true -> (x <=? 0)%float = true.
Proof.
  intros H. apply is_zero_spec in H as [s E].
  rewrite leb_spec, E. reflexivity.
Qed.

(** The three ways an amount text is turned down. *)
Lemma parseFloat_not_positive s :
  startsNumeral (snd (signedPart s)) = false
  \/ fst (signedPart s) = true
  \/ startsZero (snd (signedPart s)) = true ->
  isNaN (parseFloat s) || (parseFloat s <=? 0)%float = true.
Proof.
  rewrite parseFloat_signedPart.
  destruct (signedPart s) as [neg u]. cbn [fst snd].
  intros [H|[H|H]].
  - destruct (scanUnsigned_cases neg u) as [[_ ->]|[H' _]];
      [reflexivity|congruence].
  - subst neg. destruct (scanUnsigned_cases true u) as [[_ ->]|[_ S]];
      [reflexivity|].
    rewrite (nonpos_of_sign _ S). apply orb_true_r.
  - rewrite (zero_le_zero _ (scanUnsigned_zero neg u H)). apply orb_true_r.
Qed.

Lemma parseFloat_numeral s :
  isNaN (parseFloat s) = negb (startsNumeral (snd (signedPart s))).
Proof.
  rewrite parseFloat_signedPart.
  destruct (scanUnsigned_cases (fst (signedPart s)) (snd (signedPart s)))
    as [[-> ->]|[-> S]]; [reflexivity|].
  exact (not_nan_of_sign _ _ S).
Qed.

Lemma zero_of_sign x :
  hasSign false (Prim2SF x) -> (x <=? 0)%float = true -> is_zero x = true.
Proof.
  intros S. rewrite leb_spec. change (Prim2SF 0) with (S754_zero false).
  intros L. apply is_zero_spec.
  destruct S as [E|[E|(m & e & E)]]; rewrite E in L |- *;
    [eauto|discriminate|discriminate].
Qed.

(** The amount texts that fail the test of [addExpense]. *)
Lemma amount_guard s :
  isNaN (parseFloat s) || (parseFloat s <=? 0)%float = true
  <-> startsNumeral (snd (signedPart s)) = false
      \/ fst (signedPart s) = true
      \/ is_zero (parseFloat s) = true.
Proof.
  split.
  - intros G. apply orb_true_iff in G as [G|G].
    + left. rewrite parseFloat_numeral in G. now apply negb_true_iff in G.
    + destruct (fst (signedPart s)) eqn:M; [auto|].
      rewrite parseFloat_signedPart in G |- *. rewrite M in G |- *.
      destruct (scanUnsigned_cases false (snd (signedPart s)))
        as [[N _]|[_ S]]; [auto|].
      right. right. now apply zero_of_sign.
  - intros [H|[H|H]].
    + apply parseFloat_not_positive. auto.
    + apply parseFloat_not_positive. auto.
    + rewrite (zero_le_zero _ H). apply orb_true_r.
Qed.

End AmountField.

(** C4, as stated, fails for a text that is not numeric but starts with a
    number.  [parseFloat] reads the longest numeral at the start of the text
    and ignores what follows: of [12abc] it reads 12 and of [1,5] it reads
    1, and [addExpense] stores a record of that amount. *)
Lemma non_numeric_amount_stored :
  specNumericText "12abc" = false
  /\ specNumericText "1,5" = false
  /\ specNumericText "12.50" = true
  /\ addExpense (fun _ => None) emptyDb
       (State.make [] "12abc" "Food" "" "" "all" "all" None)
     = (Saved,
        {| rows := [Row.make 1 (VNumber 12%float) (Some "Food"%string)
                      None None];
           nextId := 2 |},
        State.make [Row.make 1 (VNumber 12%float) (Some "Food"%string)
                      None None]
          "" "" "" "" "all" "all" None)
  /\ addExpense (fun _ => None) emptyDb
       (State.make [] "1,5" "Food" "" "" "all" "all" None)
     = (Saved,
        {| rows := [Row.make 1 (VNumber 1%float) (Some "Food"%string)
                      None None];
           nextId := 2 |},
        State.make [Row.make 1 (VNumber 1%float) (Some "Food"%string)
                      None None]
          "" "" "" "" "all" "all" None).
Proof. repeat split; reflexivity. Qed.

(** C4, amended.  [addExpense] turns the amount down, with
    [InvalidAmount], exactly when, after the white space at the start of
    the text and a sign, no numeral starts the text (no digit, no point
    before a digit, not [Infinity]), or the sign is a minus, or the number
    read from the start of the text is zero, as it is when a decimal numeral
    starts the text and all its digits are 0.  A text without any digit (and
    without the letter [I]) has no numeral.  When the amount is turned down
    the table and the form are what they were: nothing is inserted or
    updated. *)
Theorem invalid_amount_rejected
  (hostDateParse : string -> option Z) (db : Db) (st : State.t) :
  let s := State.amount st in
  let minus := fst (signedPart s) in
  let rest := snd (signedPart s) in
  (fst (fst (addExpense hostDateParse db st)) = InvalidAmount
   <-> startsNumeral rest = false
       \/ minus = true
       \/ is_zero (JsNumber.parseFloat s) = true)
  /\ (startsZero rest = true -> is_zero (JsNumber.parseFloat s) = true)
  /\ (withoutNumeral s = true -> startsNumeral rest = false)
  /\ (fst (fst (addExpense hostDateParse db st)) = InvalidAmount ->
      addExpense hostDateParse db st = (InvalidAmount, db, st)).
Proof.
  intros s minus rest. subst s minus rest.
  pose proof (amount_guard (State.amount st)) as G.
  split; [|split; [|split]].
  - rewrite <- G. unfold addExpense.
    destruct (JsNumber.isNaN _ || (_ <=? 0)%float).
    + split; reflexivity.
    + destruct (negb _); cbn; split; discriminate.
  - intros Z. rewrite parseFloat_signedPart. now apply scanUnsigned_zero.
  - intros W. apply parseFloat_without_digits in W.
    rewrite parseFloat_numeral in W. now apply negb_true_iff in W.
  - unfold addExpense.
    destruct (JsNumber.isNaN _ || (_ <=? 0)%float); [reflexivity|].
    destruct (negb _); cbn; discriminate.
Qed.

(* ================================================================== *)
(** * The aggregates *)
(* ================================================================== *)

Section Aggregates.

Lemma get_set_same o k v : Obj.get (Obj.set o k v) k = Some v.
Proof.
  induction o as [|[k' v'] o IH]; cbn.
  - now rewrite String.eqb_refl.
  - destruct (String.eqb k' k) eqn:E; cbn; rewrite E; auto.
Qed.

Lemma get_set_other o k k' v :
  k <> k' -> Obj.get (Obj.set o k v) k' = Obj.get o k'.
Proof.
  intros Hne. induction o as [|[k0 v0] o IH]; cbn.
  - apply String.eqb_neq in Hne. now rewrite Hne.
  - destruct (String.eqb k0 k) eqn:E; cbn.
    + apply String.eqb_eq in E. subst k0.
      apply String.eqb_neq in Hne. now rewrite Hne.
    + destruct (String.eqb k0 k'); auto.
Qed.

Lemma fold_addAmount_same l a a' :
  sameNumber a a' ->
  sameNumber (fold_left addAmount l a) (fold_left addAmount l a').
Proof.
  revert a a'. induction l as [|x l IH]; intros a a' H; cbn; [exact H|].
  apply IH. now apply add_same_l.
Qed.

Lemma amountOrZero_not_nan it : is_nan (amountOrZero it) = false.
Proof.
  unfold amountOrZero, JsNumber.isNaN.
  destruct (is_nan (parseFloatValue (Row.amount it))) eqn:E;
    [reflexivity|exact E].
Qed.

Lemma propOrZero_not_nan acc c : is_nan (propOrZero acc c) = false.
Proof.
  unfold propOrZero. destruct (Obj.get acc c) as [v|]; [|reflexivity].
  unfold JsNumber.truthy.
  destruct (is_nan v) eqn:E; cbn [orb negb]; [reflexivity|].
  destruct (is_zero v); cbn [negb]; [reflexivity|exact E].
Qed.

Lemma propOrZero_same acc c :
  (forall a, Obj.get acc c = Some a -> is_nan a = false) ->
  sameNumber (propOrZero acc c) (startOf (Obj.get acc c)).
Proof.
  intros H. unfold propOrZero.
  destruct (Obj.get acc c) as [v|]; cbn; [|apply sameNumber_refl].
  apply orZero_same. now apply H.
Qed.

Section Grouping.

(** Values that running sums may take and amounts that may be added, such
    that no running sum is [NaN]. *)
Variables okSum okAmount : float -> Prop.
Hypothesis ok_zero : okSum zero.
Hypothesis ok_add : forall a n, okSum a -> okAmount n -> okSum (a + n)%float.
Hypothesis ok_not_nan : forall a, okSum a -> is_nan a = false.

Lemma propOrZero_ok acc c :
  (forall a, Obj.get acc c = Some a -> okSum a) -> okSum (propOrZero acc c).
Proof.
  intros H. unfold propOrZero.
  destruct (Obj.get acc c) as [v|]; [|exact ok_zero].
  destruct (JsNumber.truthy v); [now apply H|exact ok_zero].
Qed.

(** What the reducer leaves under key [c], from any accumulator. *)
Lemma totals_fold_get l : forall acc c,
  Forall (fun it => okAmount (amountOrZero it)) l ->
  (forall a, Obj.get acc c = Some a -> okSum a) ->
  match List.filter (hasKey c) l with
  | [] => Obj.get (fold_left totalsStep l acc) c = Obj.get acc c
  | _ :: _ =>
      exists v,
        Obj.get (fold_left totalsStep l acc) c = Some v
        /\ okSum v
        /\ sameNumber v
             (fold_left addAmount (List.filter (hasKey c) l)
                (startOf (Obj.get acc c)))
  end.
Proof.
  induction l as [|x l IH]; intros acc c Hfin Hacc; [reflexivity|].
  inversion Hfin as [|? ? Hx Hl]; subst.
  cbn [List.filter fold_left].
  destruct (hasKey c x) eqn:K.
  - unfold hasKey in K. apply String.eqb_eq in K.
    set (v1 := (propOrZero acc c + amountOrZero x)%float).
    assert (Hstep : totalsStep acc x = Obj.set acc c v1)
      by (unfold totalsStep, v1; now rewrite K).
    assert (Hv1 : okSum v1)
      by (apply ok_add; [now apply propOrZero_ok|exact Hx]).
    assert (Hs : sameNumber v1 (addAmount (startOf (Obj.get acc c)) x)).
    { apply add_same_l, propOrZero_same.
      intros a Ea. apply ok_not_nan. now apply Hacc. }
    rewrite Hstep.
    specialize (IH (Obj.set acc c v1) c Hl).
    rewrite get_set_same in IH.
    specialize (IH ltac:(intros a [= <-]; exact Hv1)).
    destruct (List.filter (hasKey c) l) as [|y l'] eqn:F.
    + exists v1. rewrite IH. cbn. auto.
    + destruct IH as (v & G & N & S). exists v. repeat split; auto.
      eapply sameNumber_trans; [exact S|].
      cbn [startOf]. apply (fold_addAmount_same (y :: l')). exact Hs.
  - assert (Hne : categoryOrOther x <> c).
    { unfold hasKey in K. now apply String.eqb_neq. }
    assert (Hg : Obj.get (totalsStep acc x) c = Obj.get acc c)
      by (unfold totalsStep; now apply get_set_other).
    specialize (IH (totalsStep acc x) c Hl). rewrite Hg in IH.
    exact (IH Hacc).
Qed.

End Grouping.

Lemma filter_nil_existsb {A} (p : A -> bool) l :
  existsb p l = false <-> List.filter p l = [].
Proof.
  induction l as [|x l IH]; cbn; [tauto|].
  destruct (p x); cbn; [split; discriminate|exact IH].
Qed.

Lemma visibleTotal_map l :
  visibleTotal l = sumOf (map amountOrZero l).
Proof.
  unfold visibleTotal, sumOf. generalize zero.
  induction l as [|x l IH]; intros a; cbn; [reflexivity|apply IH].
Qed.


Lemma totalsByCategory_get l c :
  finiteAmounts l \/ nonNegativeAmounts l ->
  (existsb (hasKey c) l = false ->
   Obj.get (totalsByCategory l) c = None)
  /\ (existsb (hasKey c) l = true ->
      exists v,
        Obj.get (totalsByCategory l) c = Some v
        /\ sameNumber v (visibleTotal (List.filter (hasKey c) l))).
Proof.
  intros Hok.
  assert (T :
    match List.filter (hasKey c) l with
    | [] => Obj.get (fold_left totalsStep l []) c = None
    | _ :: _ =>
        exists v,
          Obj.get (fold_left totalsStep l []) c = Some v
          /\ sameNumber v
               (fold_left addAmount (List.filter (hasKey c) l) zero)
    end).
  { destruct Hok as [Hfin|Hpos].
    - pose proof (totals_fold_get
                    (fun a => is_nan a = false)
                    (fun n => is_finite n = true)
                    eq_refl add_finite_not_nan (fun a H => H)
                    l [] c Hfin ltac:(discriminate)) as T.
      destruct (List.filter (hasKey c) l); [exact T|].
      destruct T as (v & G & _ & S). eauto.
    - pose proof (totals_fold_get
                    (fun a => (0 <=? a)%float = true)
                    (fun n => (0 <=? n)%float = true)
                    eq_refl add_nonneg nonneg_not_nan
                    l [] c Hpos ltac:(discriminate)) as T.
      destruct (List.filter (hasKey c) l); [exact T|].
      destruct T as (v & G & _ & S). eauto. }
  split; intros E.
  - apply filter_nil_existsb in E. rewrite E in T. exact T.
  - destruct (List.filter (hasKey c) l) as [|y l'] eqn:F.
    + apply filter_nil_existsb in F. congruence.
    + destruct T as (v & G & S). exists v. split; [exact G|exact S].
Qed.


End Aggregates.

(* ================================================================== *)
(** * The totals object and what it inherits *)
(* ================================================================== *)

Section Prototype.

Variable ToString : float -> string.
Variable functionSource : string -> string.

Lemma getOwn_ofNumbers o k :
  WithPrototype.getOwn (WithPrototype.ofNumbers o) k
  = option_map WithPrototype.HNumber (Obj.get o k).
Proof.
  induction o as [|[k' v] o IH]; [reflexivity|]. cbn.
  destruct (String.eqb k' k); [reflexivity|exact IH].
Qed.

Lemma setOwn_ofNumbers o k v :
  WithPrototype.setOwn (WithPrototype.ofNumbers o) k (WithPrototype.HNumber v)
  = WithPrototype.ofNumbers (Obj.set o k v).
Proof.
  induction o as [|[k' v'] o IH]; [reflexivity|].
  cbn [WithPrototype.ofNumbers map fst snd WithPrototype.setOwn Obj.set].
  destruct (String.eqb k' k); [reflexivity|].
  cbn [map fst snd]. f_equal. exact IH.
Qed.

(** On a category that [Object.prototype] has no member for, the step of
    the reducer is the step on own properties. *)
Lemma step_plain acc it :
  plainCategory (categoryOrOther it) = true ->
  WithPrototype.assign (WithPrototype.ofNumbers acc) (categoryOrOther it)
    (WithPrototype.propOrZero ToString functionSource
       (WithPrototype.ofNumbers acc)
       (categoryOrOther it) (amountOrZero it))
  = WithPrototype.ofNumbers (totalsStep acc it).
Proof.
  unfold plainCategory. intros H. apply andb_prop in H as [P M].
  apply negb_true_iff in P, M.
  unfold WithPrototype.assign, WithPrototype.propOrZero, WithPrototype.read,
    totalsStep, propOrZero.
  rewrite P, M, getOwn_ofNumbers.
  destruct (Obj.get acc (categoryOrOther it)) as [v|]; cbn [option_map];
    apply setOwn_ofNumbers.
Qed.

Lemma totalsByCategory_plain l :
  plainCategories l = true ->
  WithPrototype.totalsByCategory ToString functionSource l
  = WithPrototype.ofNumbers (totalsByCategory l).
Proof.
  unfold WithPrototype.totalsByCategory, plainCategories.
  change (totalsByCategory l) with (fold_left totalsStep l []).
  change (@nil (string * WithPrototype.Held)) with (WithPrototype.ofNumbers []).
  generalize (@nil (string * float)).
  induction l as [|it l IH]; intros acc H; [reflexivity|].
  cbn [forallb] in H. apply andb_prop in H as [Hc H].
  cbn [fold_left]. rewrite (step_plain acc it Hc). now apply IH.
Qed.

End Prototype.

(* ================================================================== *)
(** * What an amount counts for *)
(* ================================================================== *)

Section Contribution.







End Contribution.

(** What [totalsByCategory] computes, for categories that are not the name
    of a member of [Object.prototype].  The object that the code builds
    holds numbers and is the object of the model.  It has a key exactly for
    the categories that occur, a record with no category or an empty one
    counting under ["Other"], and the value under a key is the sum of the
    amounts of the records counted under it (the same number as the running
    total of those records).  Records of 10 and 5 in "Food" and 3 in "Rent"
    give Food 15 and Rent 3, and nothing else.  This holds when the amounts
    are finite numbers (or values that are not numeric, which count as 0),
    and when none of them is negative, which is what [addExpense] lets into
    the table: then no running sum is [NaN]. *)
Theorem totalsByCategory_sums_by_category
  (ToString : float -> string) (functionSource : string -> string)
  (l : list Row.t) (c : string) :
  plainCategories l = true ->
  finiteAmounts l \/ nonNegativeAmounts l ->
  WithPrototype.totalsByCategory ToString functionSource l
  = WithPrototype.ofNumbers (totalsByCategory l)
  /\ (existsb (hasKey c) l = false -> Obj.get (totalsByCategory l) c = None)
  /\ (existsb (hasKey c) l = true ->
      exists v,
        Obj.get (totalsByCategory l) c = Some v
        /\ sameNumber v (visibleTotal (List.filter (hasKey c) l)))
  /\ (forall it,
        Row.category it = None \/ Row.category it = Some ""%string ->
        categoryOrOther it = "Other"%string)
  /\ (forall it k,
        Row.category it = Some k -> k <> ""%string ->
        categoryOrOther it = k)
  /\ totalsByCategory
       [Row.make 3 (VNumber 10%float) (Some "Food"%string) None None;
        Row.make 2 (VNumber 5%float) (Some "Food"%string) None None;
        Row.make 1 (VNumber 3%float) (Some "Rent"%string) None None]
     = [("Food"%string, 15%float); ("Rent"%string, 3%float)].
Proof.
  intros Hp Hfin.
  split; [now apply totalsByCategory_plain|].
  destruct (totalsByCategory_get l c Hfin) as [H1 H2].
  split; [exact H1|]. split; [exact H2|]. split; [|split].
  - intros it [E|E]; unfold categoryOrOther; rewrite E; reflexivity.
  - intros it k E Hne. unfold categoryOrOther. rewrite E.
    destruct k; [congruence|reflexivity].
  - reflexivity.
Qed.

Lemma totalsByCategory_sums_by_category_witness :
  let l :=
    [Row.make 3 (VString "10") (Some "Food"%string) None None;
     Row.make 2 (VString "abc") None None None;
     Row.make 1 (VNumber 3%float) (Some ""%string) None None] in
  (plainCategories l = true /\ (finiteAmounts l \/ nonNegativeAmounts l))
  /\ exists v,
       Obj.get (totalsByCategory l) "Other" = Some v
       /\ sameNumber v (visibleTotal (List.filter (hasKey "Other") l)).
Proof.
  intros l.
  assert (P : plainCategories l = true) by reflexivity.
  assert (H : finiteAmounts l \/ nonNegativeAmounts l)
    by (left; repeat constructor).
  split; [split; [exact P|exact H]|].
  apply (proj1 (proj2 (proj2
           (totalsByCategory_sums_by_category
              (fun _ => ""%string) (fun _ => ""%string) l "Other" P H)))).
  reflexivity.
Defined.

(** C6.  The claim fails for a category that is the name of a member of
    [Object.prototype], which [addExpense] stores like any other.  The
    reducer starts from [{}].  Under [__proto__] the read [acc[cat]] gives
    the prototype and the write is dropped by the setter of the accessor,
    so records of 10 and 5 in that category leave the object as it was,
    [{}]: the category has no total (the screen says there are no category
    totals) while the total of the records is 15.  Under the name of a
    method, as [toString], the read gives the function, the sum turns it
    into a string, and the category holds a string, the source text of the
    function followed by the amount, on which [toFixed] is not defined.
    All these records are as [addExpense] writes them: saving 5 under
    [__proto__] after 10 under [__proto__] gives the two rows. *)
Theorem totals_miss_prototype_names
  (hostDateParse : string -> option Z)
  (ToString : float -> string) (functionSource : string -> string) :
  let l :=
    [Row.make 2 (VNumber 5%float) (Some "__proto__"%string) None None;
     Row.make 1 (VNumber 10%float) (Some "__proto__"%string) None None] in
  let m :=
    [Row.make 3 (VNumber 7%float) (Some "toString"%string) None None] in
  WithPrototype.totalsByCategory ToString functionSource l = []
  /\ List.filter (hasKey "__proto__") l = l
  /\ sumOf (map amountOrZero l) = 15%float
  /\ visibleTotal l = 15%float
  /\ WithPrototype.totalsByCategory ToString functionSource m
     = [("toString"%string,
         WithPrototype.HString
           (functionSource "toString"%string ++ ToString 7%float)%string)]
  /\ forallb (fun e => WithPrototype.hasToFixed (snd e))
       (WithPrototype.totalsByCategory ToString functionSource m) = false
  /\ forallb validRow (l ++ m) = true
  /\ snd (fst (addExpense hostDateParse
                 {| rows := [Row.make 1 (VNumber 10%float)
                               (Some "__proto__"%string) None None];
                    nextId := 2 |}
                 (State.make [] "5" "__proto__" "" "" "all" "all" None)))
     = {| rows := rev l; nextId := 3 |}.
Proof.
  cbv zeta. split; [reflexivity|]. split; [reflexivity|].
  split; [reflexivity|]. split; [reflexivity|].
  repeat split; reflexivity.
Qed.

(** A running sum that is [NaN] is taken for a missing value.  With
    amounts of [Infinity], [-Infinity] and 5 under one category (amounts
    that [addExpense] does not write), the sum of the amounts is [NaN], and
    that is what the total of the same records is; [totalsByCategory] holds
    5 for the category, because [acc[cat] || 0] takes the [NaN] reached
    after the second record for a missing value and starts again from 0. *)
Lemma totals_restart_after_nan :
  let l :=
    [Row.make 3 (VNumber infinity) (Some "A"%string) None None;
     Row.make 2 (VNumber neg_infinity) (Some "A"%string) None None;
     Row.make 1 (VNumber 5%float) (Some "A"%string) None None] in
  totalsByCategory l = [("A"%string, 5%float)]
  /\ List.filter (hasKey "A") l = l
  /\ is_nan (sumOf (map amountOrZero l)) = true
  /\ is_nan (visibleTotal l) = true.
Proof. repeat split; reflexivity. Qed.


(* ================================================================== *)
(** * Exact additions *)
(* ================================================================== *)

Section Units.
Import JsNumber.

Lemma digits2_pos_log2 m : Zpos (digits2_pos m) = Z.log2 (Zpos m) + 1.
Proof.
  assert (S : forall p, digits2_pos p = Pos.size p)
    by (induction p as [p IH|p IH|]; cbn; congruence).
  rewrite S. destruct m as [p|p|]; cbn; lia.
Qed.

(** The exponent of a double is its canonical one, not below -1074. *)
Lemma finite_canonical x s m e :
  Prim2SF x = S754_finite s m e ->
  e = Z.max (Z.log2 (Zpos m) + 1 + e - 53) (-1074).
Proof.
  intros E. pose proof (Prim2SF_valid x) as V. rewrite E in V.
  cbn [SpecFloat.valid_binary] in V. unfold bounded in V.
  apply andb_prop in V as [C _]. unfold canonical_mantissa in C.
  apply Z.eqb_eq in C. rewrite digits2_pos_log2 in C.
  unfold fexp, SpecFloat.emin, prec, emax in C. lia.
Qed.

Lemma toUnits_zero x : is_zero x = true -> toUnits x = Some 0.
Proof.
  intros H. apply is_zero_spec in H as [s E]. unfold toUnits. now rewrite E.
Qed.

Lemma toUnits_not_nan x u : toUnits x = Some u -> is_nan x = false.
Proof.
  intros H. apply not_true_is_false. intros N. apply is_nan_spec in N.
  unfold toUnits in H. rewrite N in H. discriminate.
Qed.

Lemma pow2_pos a : 0 <= a -> 0 < 2 ^ a.
Proof. intros H. apply Z.pow_pos_nonneg; lia. Qed.

(** Two doubles of the same value are the same number. *)
Lemma toUnits_same x y u :
  toUnits x = Some u -> toUnits y = Some u -> sameNumber x y.
Proof.
  unfold toUnits. intros Hx Hy.
  destruct (Prim2SF x) as [sx|sx| |sx mx ex] eqn:Ex; try discriminate;
    destruct (Prim2SF y) as [sy|sy| |sy my ey] eqn:Ey; try discriminate.
  - right. split; apply is_zero_spec; eauto.
  - exfalso. pose proof (finite_canonical _ _ _ _ Ey) as Cy.
    pose proof (pow2_pos (ey + 1074) ltac:(lia)).
    injection Hx as <-. injection Hy as Hy. destruct sy; nia.
  - exfalso. pose proof (finite_canonical _ _ _ _ Ex) as Cx.
    pose proof (pow2_pos (ex + 1074) ltac:(lia)).
    injection Hy as <-. injection Hx as Hx. destruct sx; nia.
  - left. apply Prim2SF_inj. rewrite Ex, Ey.
    pose proof (finite_canonical _ _ _ _ Ex) as Cx.
    pose proof (finite_canonical _ _ _ _ Ey) as Cy.
    pose proof (pow2_pos (ex + 1074) ltac:(lia)) as Px.
    pose proof (pow2_pos (ey + 1074) ltac:(lia)) as Py.
    injection Hx as Hx. injection Hy as Hy.
    assert (Hs : sx = sy) by (destruct sx, sy; try reflexivity; nia).
    subst sy.
    assert (Hv : Zpos mx * 2 ^ (ex + 1074) = Zpos my * 2 ^ (ey + 1074))
      by (destruct sx; nia).
    assert (Hl : Z.log2 (Zpos mx) + ex = Z.log2 (Zpos my) + ey).
    { pose proof (Z.log2_mul_pow2 (Zpos mx) (ex + 1074) ltac:(lia)
                    ltac:(lia)) as L1.
      pose proof (Z.log2_mul_pow2 (Zpos my) (ey + 1074) ltac:(lia)
                    ltac:(lia)) as L2.
      rewrite Hv in L1. lia. }
    assert (He : ex = ey) by lia. subst ey.
    assert (Hm : Zpos mx = Zpos my) by nia.
    injection Hm as ->. reflexivity.
Qed.

Lemma exactAdd_units x y :
  exactAdd x y = true ->
  exists a b,
    toUnits x = Some a /\ toUnits y = Some b
    /\ toUnits (x + y) = Some (a + b).
Proof.
  unfold exactAdd.
  destruct (toUnits x) as [a|]; [|discriminate].
  destruct (toUnits y) as [b|]; [|discriminate].
  destruct (toUnits (x + y)) as [c|]; [|discriminate].
  intros H. apply Z.eqb_eq in H. subst c. eauto.
Qed.

Lemma exactSum_units l : forall s a,
  toUnits s = Some a -> exactSum s l = true ->
  toUnits (fold_left (fun s v => (s + v)%float) l s)
  = Some (a + sumUnits l).
Proof.
  induction l as [|v l IH]; intros s a Hs H; cbn [exactSum fold_left] in *.
  - rewrite Hs. cbn. f_equal. lia.
  - apply andb_prop in H as [H1 H2].
    apply exactAdd_units in H1 as (a' & b & Ea & Eb & Es).
    rewrite Hs in Ea. injection Ea as <-.
    rewrite (IH _ _ Es H2).
    change (sumUnits (v :: l)) with (units0 v + sumUnits l).
    unfold units0. rewrite Eb. f_equal. lia.
Qed.

Lemma sumUnits_app l1 l2 : sumUnits (l1 ++ l2) = sumUnits l1 + sumUnits l2.
Proof.
  induction l1 as [|v l1 IH]; cbn [sumUnits app]; [reflexivity|rewrite IH; lia].
Qed.

End Units.

Section Decomposition.
Import JsNumber.

Lemma units0_propOrZero acc k :
  units0 (propOrZero acc k) = units0 (startOf (Obj.get acc k)).
Proof.
  unfold propOrZero. destruct (Obj.get acc k) as [v|]; [|reflexivity].
  cbn [startOf]. unfold JsNumber.truthy.
  destruct (is_nan v) eqn:N; cbn [orb negb].
  - apply is_nan_spec in N. unfold units0, toUnits. now rewrite N.
  - destruct (is_zero v) eqn:Z; cbn [negb]; [|reflexivity].
    unfold units0. now rewrite (toUnits_zero v Z).
Qed.

Lemma sumUnits_set acc k v :
  sumUnits (map snd (Obj.set acc k v))
  = sumUnits (map snd acc) - units0 (startOf (Obj.get acc k)) + units0 v.
Proof.
  induction acc as [|[k' v'] acc IH]; cbn.
  - change (units0 zero) with 0. lia.
  - destruct (String.eqb k' k); cbn; [lia|rewrite IH; lia].
Qed.

Lemma exactTotals_units l : forall acc,
  exactTotals acc l = true ->
  sumUnits (map snd (fold_left totalsStep l acc))
  = sumUnits (map snd acc) + sumUnits (map amountOrZero l).
Proof.
  induction l as [|x l IH]; intros acc H; cbn [exactTotals fold_left map] in *.
  - cbn. lia.
  - apply andb_prop in H as [H1 H2].
    apply exactAdd_units in H1 as (a & b & Ea & Eb & Es).
    fold (totalsStep acc x) in H2. rewrite (IH _ H2).
    unfold totalsStep at 1. rewrite sumUnits_set.
    rewrite <- units0_propOrZero.
    cbn [sumUnits].
    assert (U1 : units0 (propOrZero acc (categoryOrOther x)) = a)
      by (unfold units0; now rewrite Ea).
    assert (U2 : units0 (amountOrZero x) = b)
      by (unfold units0; now rewrite Eb).
    assert (U3 : units0 (propOrZero acc (categoryOrOther x)
                         + amountOrZero x)%float = a + b)
      by (unfold units0; now rewrite Es).
    rewrite U1, U2, U3. lia.
Qed.

Lemma sumUnits_insertIndexed e l :
  sumUnits (map snd (map snd (Obj.insertIndexed e l)))
  = units0 (snd (snd e)) + sumUnits (map snd (map snd l)).
Proof.
  induction l as [|e' l IH]; cbn; [reflexivity|].
  destruct (fst e <? fst e'); cbn; [reflexivity|rewrite IH; lia].
Qed.

Lemma sumUnits_sorted l :
  sumUnits (map snd (map snd (fold_right Obj.insertIndexed [] l)))
  = sumUnits (map snd (map snd l)).
Proof.
  induction l as [|e l IH]; cbn; [reflexivity|].
  rewrite sumUnits_insertIndexed, IH. reflexivity.
Qed.

(** [Object.values] lists every value once: the order does not change the
    sum of the values as numbers. *)
Lemma sumUnits_values o :
  sumUnits (Obj.values o) = sumUnits (map snd o).
Proof.
  unfold Obj.values, Obj.entries.
  rewrite map_app, sumUnits_app, sumUnits_sorted.
  unfold Obj.indexed, Obj.named.
  induction o as [|[k v] o IH]; cbn; [reflexivity|].
  destruct (Obj.arrayIndex k); cbn; lia.
Qed.

End Decomposition.

(** C9, as stated, fails: doubles are added in two different orders, and
    each addition rounds.  With 0.1 under A, 0.1 under B and 0.4 under A
    the total is [(0.1 + 0.1) + 0.4] and the sum of the totals by category
    is [(0.1 + 0.4) + 0.1], two different doubles. *)
Lemma decomposition_not_exact :
  let l :=
    [Row.make 3 (VNumber (JsNumber.parseFloat "0.1")) (Some "A"%string)
       None None;
     Row.make 2 (VNumber (JsNumber.parseFloat "0.1")) (Some "B"%string)
       None None;
     Row.make 1 (VNumber (JsNumber.parseFloat "0.4")) (Some "A"%string)
       None None] in
  (byCategoryAll (totalsByCategory l) =? visibleTotal l)%float = false
  /\ byCategoryAll (totalsByCategory l) <> visibleTotal l.
Proof.
  intros l. split; [vm_compute; reflexivity|].
  intros H. apply Leibniz.eqb_spec in H. vm_compute in H. discriminate.
Qed.

(** C9, amended.  When no category is the name of a member of
    [Object.prototype] (so that the object of the code holds a number for
    every category that occurs, and is the object of the model) and no
    addition rounds (every addition made for the total, for the totals by
    category and for the sum of those is exact), the sum of the values of
    [totalsByCategory] is the same number as the total, amounts that are
    not numeric counting as 0 on both sides. *)
Theorem decomposition_when_exact
  (ToString : float -> string) (functionSource : string -> string)
  (l : list Row.t) :
  plainCategories l = true ->
  additionsExact l = true ->
  WithPrototype.totalsByCategory ToString functionSource l
  = WithPrototype.ofNumbers (totalsByCategory l)
  /\ sameNumber (byCategoryAll (totalsByCategory l)) (visibleTotal l).
Proof.
  intros Hp H. split; [now apply totalsByCategory_plain|].
  unfold additionsExact in H.
  apply andb_prop in H as [H H3]. apply andb_prop in H as [H1 H2].
  pose proof (exactSum_units _ zero 0 eq_refl H1) as T.
  pose proof (exactSum_units _ zero 0 eq_refl H3) as B.
  rewrite sumUnits_values in B.
  change (totalsByCategory l) with (fold_left totalsStep l []) in B at 2.
  rewrite (exactTotals_units l [] H2) in B. cbn [map sumUnits] in B.
  rewrite visibleTotal_map. unfold byCategoryAll, sumOf.
  eapply toUnits_same; [exact B|]. rewrite T. f_equal.
Qed.

Lemma decomposition_when_exact_witness :
  let l :=
    [Row.make 3 (VNumber 10%float) (Some "Food"%string) None None;
     Row.make 2 (VString "abc") (Some "Food"%string) None None;
     Row.make 1 (VNumber 3%float) (Some "Rent"%string) None None] in
  (plainCategories l = true /\ additionsExact l = true)
  /\ sameNumber (byCategoryAll (totalsByCategory l)) (visibleTotal l).
Proof.
  intros l.
  assert (P : plainCategories l = true) by reflexivity.
  assert (H : additionsExact l = true) by (vm_compute; reflexivity).
  split; [split; [exact P|exact H]|].
  apply (proj2 (decomposition_when_exact
                  (fun _ => ""%string) (fun _ => ""%string) l P H)).
Defined.

(* ================================================================== *)
(** * Percentage shares *)
(* ================================================================== *)

Lemma fold_left_snd (l : list (string * float)) (s : float) :
  fold_left (fun s e => (s + snd e)%float) l s
  = fold_left (fun s v => (s + v)%float) (map snd l) s.
Proof.
  revert s. induction l as [|e l IH]; intros s; cbn; [reflexivity|apply IH].
Qed.

(** [toFixed(1)] picks the number of tenths nearest to the exact value of
    the double, the larger one at a tie. *)
Lemma tenthsOf_nearest (m : positive) (e : Z) :
  (0 <= e -> JsNumber.tenthsOf m e = 10 * Zpos m * 2 ^ e)
  /\ (e < 0 ->
      (2 * JsNumber.tenthsOf m e - 1) * 2 ^ (- e) <= 20 * Zpos m
      /\ 20 * Zpos m < (2 * JsNumber.tenthsOf m e + 1) * 2 ^ (- e)).
Proof.
  unfold JsNumber.tenthsOf. split; intros H.
  - apply Z.leb_le in H. now rewrite H.
  - assert (E : (0 <=? e) = false) by (apply Z.leb_gt; lia). rewrite E.
    replace (1 - e) with (Z.succ (- e)) by lia.
    rewrite Z.pow_succ_r by lia.
    pose proof (pow2_pos (- e) ltac:(lia)) as P.
    set (p := 2 ^ (- e)) in *.
    pose proof (Z.div_mod (20 * Zpos m + p) (2 * p) ltac:(lia)) as D.
    pose proof (Z.mod_pos_bound (20 * Zpos m + p) (2 * p) ltac:(lia)) as B.
    set (n := (20 * Zpos m + p) / (2 * p)) in *. nia.
Qed.

(** C5, as stated, fails: the digit shown is not the one of
    [100 * value / total] rounded to one decimal.  With totals of 57 and 23
    the share of the second is 28.75 per cent, which the formula rounds to
    28.8, in doubles as in exact arithmetic; the screen shows 28.7, because
    [23 / 80] is rounded to a double before it is multiplied by 100.  With
    totals of 1983 and 17 the formula in doubles gives 0.8 and the screen
    0.9. *)
Lemma share_not_rounded_product :
  let entries := pieEntries [("B"%string, 57%float);
                             ("A"%string, 23%float)] in
  let entries' := pieEntries [("B"%string, 1983%float);
                              ("A"%string, 17%float)] in
  pct (fun _ => ""%string) entries 23%float = "28.7"%string
  /\ pctProductFirst (fun _ => ""%string) entries 23%float
     = "28.8"%string
  /\ JsNumber.fixed1Digits (exactTenths 23 80) = "28.8"%string
  /\ pct (fun _ => ""%string) entries' 17%float = "0.9"%string
  /\ pctProductFirst (fun _ => ""%string) entries' 17%float
     = "0.8"%string.
Proof. repeat split; vm_compute; reflexivity. Qed.

(** C5, amended.  The share shown for a category is the double
    [(value / total) * 100], the quotient first, printed by [toFixed(1)]:
    the number of tenths nearest to the exact value of that double, the
    larger one at a tie.  When the grand total is 0 (or not a number)
    every share is "0.0", and nothing is divided by zero; the pie chart
    draws nothing when its total is 0.  Totals of 15 for Food and 5 for
    Rent give 75.0 and 25.0. *)
Theorem share_is_quotient_times_100
  (numberToString : float -> string)
  (entries : list (string * float)) (value : float) :
  let total := sumOf (map snd entries) in
  (JsNumber.truthy total = false ->
   pct numberToString entries value = "0.0"%string)
  /\ (is_zero total = true ->
      pct numberToString entries value = "0.0"%string)
  /\ (JsNumber.truthy total = true ->
      pct numberToString entries value
      = JsNumber.toFixed1 numberToString ((value / total) * 100)%float)
  /\ (forall x s m e,
        Prim2SF x = S754_finite s m e ->
        (1e21 <=? abs x)%float = false ->
        JsNumber.toFixed1 numberToString x
        = ((if s then "-" else "")
           ++ JsNumber.fixed1Digits (JsNumber.tenthsOf m e))%string
        /\ (0 <= e -> JsNumber.tenthsOf m e = 10 * Zpos m * 2 ^ e)
        /\ (e < 0 ->
            (2 * JsNumber.tenthsOf m e - 1) * 2 ^ (- e) <= 20 * Zpos m
            /\ 20 * Zpos m < (2 * JsNumber.tenthsOf m e + 1) * 2 ^ (- e)))
  /\ legend numberToString
       (pieEntries [("Food"%string, 15%float);
                    ("Rent"%string, 5%float)])
     = [("Food"%string, "75.0"%string); ("Rent"%string, "25.0"%string)]
  /\ (forall data,
        (sumOf (map snd (List.filter (fun e => (0 <? snd e)%float)
                           (Obj.entries data))) =? 0)%float = true ->
        SimplePieChart data = None).
Proof.
  intros total.
  assert (T : fold_left (fun s e => (s + snd e)%float) entries zero = total)
    by (unfold total, sumOf; apply fold_left_snd).
  split; [|split; [|split; [|split; [|split]]]].
  - intros H. unfold pct. rewrite T. now rewrite H.
  - intros H. unfold pct. rewrite T. unfold JsNumber.truthy.
    rewrite H, orb_true_r. reflexivity.
  - intros H. unfold pct. rewrite T. now rewrite H.
  - intros x s m e E B. split; [|apply tenthsOf_nearest].
    unfold JsNumber.toFixed1. now rewrite E, B.
  - reflexivity.
  - intros data H. unfold SimplePieChart.
    rewrite fold_left_snd. unfold sumOf in H. now rewrite H.
Qed.

(* ================================================================== *)
(** * Further properties: the form, the table, the rows, the chart *)
(* ================================================================== *)

From Stdlib Require Import Permutation.

(* ================================================================== *)
(** * What [addExpense] accepts *)
(* ================================================================== *)

Section Trimming.
Import JsString.

Lemma dropWhiteSpace_nil l :
  dropWhiteSpace l = [] <-> forallb isWhiteSpace l = true.
Proof.
  induction l as [|c tl IH]; cbn; [tauto|].
  destruct (isWhiteSpace c); cbn; [exact IH|]. split; discriminate.
Qed.

Lemma dropWhiteSpace_blank l :
  forallb isWhiteSpace (dropWhiteSpace l) = forallb isWhiteSpace l.
Proof.
  induction l as [|c tl IH]; cbn; [reflexivity|].
  destruct (isWhiteSpace c) eqn:E; cbn; [exact IH|]. now rewrite E.
Qed.

Lemma dropWhiteSpace_idem l :
  dropWhiteSpace (dropWhiteSpace l) = dropWhiteSpace l.
Proof.
  induction l as [|a x IH]; cbn; [reflexivity|].
  destruct (isWhiteSpace a) eqn:Ea; [exact IH|]. cbn. now rewrite Ea.
Qed.

Lemma dropWhiteSpace_head l :
  match dropWhiteSpace l with
  | c :: _ => isWhiteSpace c = false
  | [] => True
  end.
Proof.
  induction l as [|a x IH]; cbn; [exact I|].
  destruct (isWhiteSpace a) eqn:Ea; [exact IH|exact Ea].
Qed.

Lemma dropWhiteSpace_last x c :
  isWhiteSpace c = false ->
  exists k, dropWhiteSpace (x ++ [c]) = k ++ [c].
Proof.
  intros Hc. induction x as [|a x IH]; cbn.
  - rewrite Hc. now exists [].
  - destruct (isWhiteSpace a); [exact IH|]. now exists (a :: x).
Qed.

Lemma forallb_rev {A} (p : A -> bool) l : forallb p (rev l) = forallb p l.
Proof.
  induction l as [|c tl IH]; cbn; [reflexivity|].
  rewrite forallb_app, IH. cbn. rewrite andb_true_r. apply andb_comm.
Qed.

(** [trim] on the list of code units *)
Lemma trim_list s :
  list_ascii_of_string (trim s)
  = rev (dropWhiteSpace (rev (dropWhiteSpace (list_ascii_of_string s)))).
Proof.
  unfold trim, trimEnd, trimStart.
  now rewrite !list_ascii_of_string_of_list_ascii.
Qed.

Lemma truthy_trim s : JsString.truthy (trim s) = negb (blank s).
Proof.
  unfold blank.
  rewrite <- (string_of_list_ascii_of_string (trim s)), trim_list.
  set (l := list_ascii_of_string s).
  rewrite <- (dropWhiteSpace_blank l), <- (forallb_rev _ (dropWhiteSpace l)).
  rewrite <- (dropWhiteSpace_blank (rev _)).
  rewrite <- (forallb_rev _ (dropWhiteSpace (rev _))).
  destruct (rev (dropWhiteSpace (rev (dropWhiteSpace l)))) as [|c k] eqn:E.
  - reflexivity.
  - cbn [string_of_list_ascii JsString.truthy]. symmetry.
    apply negb_true_iff, not_true_is_false. intros H.
    rewrite <- forallb_rev, <- E, rev_involutive in H.
    apply dropWhiteSpace_nil in H.
    rewrite dropWhiteSpace_idem in H. rewrite H in E. discriminate.
Qed.

Lemma trim_idem s : trim (trim s) = trim s.
Proof.
  rewrite <- (string_of_list_ascii_of_string (trim (trim s))).
  rewrite <- (string_of_list_ascii_of_string (trim s)) at 2.
  f_equal. rewrite (trim_list (trim s)), trim_list.
  set (a := dropWhiteSpace (list_ascii_of_string s)).
  assert (B : dropWhiteSpace (rev (dropWhiteSpace (rev a)))
              = rev (dropWhiteSpace (rev a))).
  { pose proof (dropWhiteSpace_head (list_ascii_of_string s)) as Ha.
    fold a in Ha. destruct a as [|c tl]; [reflexivity|].
    cbn [rev]. destruct (dropWhiteSpace_last (rev tl) c Ha) as [k ->].
    rewrite rev_app_distr. cbn. now rewrite Ha. }
  rewrite B, rev_involutive, dropWhiteSpace_idem. reflexivity.
Qed.

Lemma trimmed_trim s : blank s = false -> trimmed (trim s) = true.
Proof.
  intros H. unfold trimmed. rewrite trim_idem, String.eqb_refl.
  pose proof (truthy_trim (trim s)) as T. rewrite trim_idem, truthy_trim in T.
  rewrite <- T, H. reflexivity.
Qed.

End Trimming.

(** Above zero is what is left when [NaN] and [x <= 0] are ruled out. *)
Lemma isPositive_spec x :
  isPositive x = negb (JsNumber.isNaN x || (x <=? 0)%float).
Proof.
  unfold isPositive, JsNumber.isNaN.
  pose proof (is_nan_spec x) as N.
  rewrite ltb_spec, leb_spec. change (Prim2SF 0) with (S754_zero false).
  unfold SFltb, SFleb.
  destruct (Prim2SF x) as [s|s| |s m e] eqn:E.
  - destruct (is_nan x);
      [destruct N as [N _]; discriminate (N eq_refl)|reflexivity].
  - destruct (is_nan x);
      [destruct N as [N _]; discriminate (N eq_refl)|destruct s; reflexivity].
  - destruct N as [_ N]. rewrite (N eq_refl). reflexivity.
  - destruct (is_nan x);
      [destruct N as [N _]; discriminate (N eq_refl)|destruct s; reflexivity].
Qed.

(** [addExpense] by the two tests it makes. *)
Lemma addExpense_eq (hostDateParse : string -> option Z) db st :
  addExpense hostDateParse db st
  = if isPositive (JsNumber.parseFloat (State.amount st)) then
      if blank (State.category st) then (MissingCategory, db, st)
      else
        let db' :=
          match State.editingId st with
          | Some id =>
              updateRow db id (JsNumber.parseFloat (State.amount st))
                (JsString.trim (State.category st))
                (if JsString.truthy (JsString.trim (State.note st))
                 then Some (JsString.trim (State.note st)) else None)
                (dateIso hostDateParse (State.date st))
          | None =>
              insertRow db (JsNumber.parseFloat (State.amount st))
                (JsString.trim (State.category st))
                (if JsString.truthy (JsString.trim (State.note st))
                 then Some (JsString.trim (State.note st)) else None)
                (dateIso hostDateParse (State.date st))
          end in
        (Saved, db',
         State.make (loadExpenses db') "" "" "" ""
           (State.filter st) (State.categoryFilter st) None)
    else (InvalidAmount, db, st).
Proof.
  unfold addExpense.
  rewrite truthy_trim, negb_involutive,
    (isPositive_spec (JsNumber.parseFloat _)).
  destruct (JsNumber.isNaN _ || (_ <=? 0)%float); reflexivity.
Qed.


(* ================================================================== *)
(** * The table under [addExpense] and [deleteExpense] *)
(* ================================================================== *)

Section Table.
Import JsString JsDate.

Lemma idsAscending_above lo l :
  idsAscending lo l = true -> Forall (fun r => lo < Row.id r) l.
Proof.
  revert lo. induction l as [|r tl IH]; intros lo H; [constructor|].
  cbn in H. apply andb_true_iff in H as [H1 H2]. apply Z.ltb_lt in H1.
  constructor; [exact H1|].
  eapply Forall_impl; [|apply (IH _ H2)]. cbn. intros; lia.
Qed.

Lemma idsAscending_weaken lo lo' l :
  lo' <= lo -> idsAscending lo l = true -> idsAscending lo' l = true.
Proof.
  destruct l as [|r tl]; [reflexivity|]. cbn. intros Hle H.
  apply andb_true_iff in H as [H1 H2]. apply Z.ltb_lt in H1.
  rewrite H2, andb_true_r. apply Z.ltb_lt. lia.
Qed.

Lemma idsAscending_filter (p : Row.t -> bool) lo l :
  idsAscending lo l = true -> idsAscending lo (List.filter p l) = true.
Proof.
  revert lo. induction l as [|r tl IH]; intros lo H; [reflexivity|].
  cbn in H. apply andb_true_iff in H as [H1 H2]. cbn.
  destruct (p r); cbn.
  - now rewrite H1, IH.
  - apply IH. eapply idsAscending_weaken; [|exact H2].
    apply Z.ltb_lt in H1. lia.
Qed.

Lemma idsAscending_map (f : Row.t -> Row.t) lo l :
  (forall r, Row.id (f r) = Row.id r) ->
  idsAscending lo (map f l) = idsAscending lo l.
Proof.
  intros Hf. revert lo. induction l as [|r tl IH]; intros lo; [reflexivity|].
  cbn. now rewrite Hf, IH.
Qed.

Lemma idsAscending_snoc lo l r :
  idsAscending lo l = true -> lo < Row.id r ->
  forallb (fun r' => Row.id r' <? Row.id r) l = true ->
  idsAscending lo (l ++ [r]) = true.
Proof.
  revert lo. induction l as [|a tl IH]; intros lo H Hlo Hb; cbn.
  - rewrite andb_true_r. now apply Z.ltb_lt.
  - cbn in H, Hb. apply andb_true_iff in H as [H1 H2].
    apply andb_true_iff in Hb as [Hb1 Hb2].
    rewrite H1. cbn. apply IH; [exact H2| |exact Hb2].
    now apply Z.ltb_lt.
Qed.

Lemma insertById_last r l :
  Forall (fun r' => Row.id r < Row.id r') l -> insertById r l = l ++ [r].
Proof.
  induction 1 as [|a tl Ha _ IH]; [reflexivity|]. cbn.
  destruct (Z.ltb_spec (Row.id a) (Row.id r)); [lia|]. now rewrite IH.
Qed.

(** Keys that go up in the order of insertion are read newest first. *)
Lemma loadExpenses_rev lo l :
  idsAscending lo l = true -> fold_right insertById [] l = rev l.
Proof.
  revert lo. induction l as [|r tl IH]; intros lo H; [reflexivity|].
  cbn in H. apply andb_true_iff in H as [_ H]. cbn.
  rewrite (IH _ H). apply insertById_last.
  apply Forall_rev. apply idsAscending_above. exact H.
Qed.

Lemma truthy_slice_toISOString t :
  JsString.truthy (slice_0_10 (toISOString t)) = true.
Proof.
  assert (L : (1 <= String.length (toISOString t))%nat).
  { unfold toISOString. rewrite !string_length_append. cbn. lia. }
  destruct (toISOString t); [cbn in L; lia|reflexivity].
Qed.

Lemma dateIso_truthy hostDateParse date d :
  dateIso hostDateParse date = Some d -> JsString.truthy d = true.
Proof.
  unfold dateIso. destruct (JsString.truthy date) eqn:T; [|discriminate].
  destruct (isoDatePattern date); [congruence|].
  destruct (getTime _); [|discriminate].
  intros [= <-]. apply truthy_slice_toISOString.
Qed.

Lemma forallb_impl {A} (p q : A -> bool) l :
  (forall x, p x = true -> q x = true) ->
  forallb p l = true -> forallb q l = true.
Proof.
  intros Hpq. rewrite !forallb_forall. auto.
Qed.

Lemma forallb_filter {A} (p q : A -> bool) l :
  forallb p l = true -> forallb p (List.filter q l) = true.
Proof.
  rewrite !forallb_forall. intros H x Hx. apply filter_In in Hx. now apply H.
Qed.

(** The row [addExpense] writes is one of the rows it may write. *)
Lemma validRow_written hostDateParse id x c n date :
  isPositive x = true -> blank c = false ->
  validRow
    (Row.make id (VNumber x) (Some (trim c))
       (if JsString.truthy (trim n) then Some (trim n) else None)
       (dateIso hostDateParse date)) = true.
Proof.
  intros Hx Hc. unfold validRow. cbn [Row.amount Row.category Row.note
                                       Row.date].
  rewrite Hx, (trimmed_trim c Hc). cbn [andb].
  apply andb_true_iff. split.
  - destruct (JsString.truthy (trim n)) eqn:T; [|reflexivity].
    apply trimmed_trim. rewrite truthy_trim in T.
    now apply negb_true_iff in T.
  - destruct (dateIso hostDateParse date) eqn:D; [|reflexivity].
    eapply dateIso_truthy; eassumption.
Qed.

End Table.

Lemma wellFormed_addExpense
  (hostDateParse : string -> option Z) (db : Db) (st : State.t) :
  wellFormed db = true ->
  wellFormed (snd (fst (addExpense hostDateParse db st))) = true.
Proof.
  intros W. pose proof W as W0. unfold wellFormed in W.
  rewrite !andb_true_iff in W. destruct W as [[[P A] B] V].
  apply Z.ltb_lt in P.
  rewrite addExpense_eq.
  destruct (isPositive _) eqn:Hx; [|exact W0].
  destruct (blank (State.category st)) eqn:Hc; [exact W0|].
  cbn [fst snd]. unfold wellFormed.
  destruct (State.editingId st) as [i|].
  - unfold updateRow. cbn [rows nextId].
    rewrite idsAscending_map, A
      by (intros r; destruct (Z.eqb_spec (Row.id r) i); cbn; congruence).
    rewrite (proj2 (Z.ltb_lt _ _) P).
    cbn [andb]. apply andb_true_iff. split.
    + rewrite forallb_forall in B |- *. intros r' Hr'.
      apply in_map_iff in Hr' as (r & <- & Hr).
      specialize (B r Hr).
      destruct (Z.eqb_spec (Row.id r) i); cbn; [congruence|exact B].
    + rewrite forallb_forall in V |- *. intros r' Hr'.
      apply in_map_iff in Hr' as (r & <- & Hr).
      destruct (Row.id r =? i); [|now apply V].
      now apply validRow_written.
  - unfold insertRow. cbn [rows nextId].
    rewrite !andb_true_iff. repeat split.
    + apply Z.ltb_lt. lia.
    + apply idsAscending_snoc; [exact A|exact P|exact B].
    + rewrite forallb_app, andb_true_iff. split.
      * eapply forallb_impl; [|exact B]. cbn. intros r Hr.
         apply Z.ltb_lt in Hr. apply Z.ltb_lt. lia.
      * cbn. rewrite andb_true_r. apply Z.ltb_lt. lia.
    + rewrite forallb_app, V. cbn. rewrite andb_true_r.
      now apply validRow_written.
Qed.

Lemma wellFormed_deleteExpense (db : Db) (st : State.t) (id : Z) :
  wellFormed db = true ->
  wellFormed (fst (deleteExpense db st id)) = true.
Proof.
  intros W. pose proof W as W0. unfold wellFormed in W.
  rewrite !andb_true_iff in W. destruct W as [[[P A] B] V].
  unfold deleteExpense, deleteRow, wellFormed. cbn [fst rows nextId].
  rewrite P, idsAscending_filter by exact A.
  rewrite !forallb_filter by assumption. reflexivity.
Qed.

(** X2.  The shape of the table is kept.  If the keys of the table go up from
    1 in the order of insertion and stay below the next key, and every row has
    a number above zero for its amount, a trimmed category that is not empty,
    a trimmed note or none and a date that is not empty or none, then the same
    holds after [addExpense], whichever way it ends (nothing stored, a row
    inserted, a row updated), and after [deleteExpense]. *)
Theorem table_stays_well_formed
  (hostDateParse : string -> option Z) (db : Db) (st : State.t) (id : Z) :
  wellFormed db = true ->
  wellFormed (snd (fst (addExpense hostDateParse db st))) = true
  /\ wellFormed (fst (deleteExpense db st id)) = true.
Proof.
  intros W. split.
  - now apply wellFormed_addExpense.
  - now apply wellFormed_deleteExpense.
Qed.

Lemma table_stays_well_formed_witness :
  let db :=
    {| rows := [Row.make 1 (VNumber 12.5%float) (Some "Food"%string) None
                  (Some "2024-03-01"%string);
                Row.make 3 (VNumber 40%float) (Some "Rent"%string)
                  (Some "March"%string) None];
       nextId := 4 |} in
  let st := State.make [] " 7.25 " "  Books " "" "2024-03-05" "all" "all"
              (Some 3) in
  wellFormed db = true
  /\ wellFormed (snd (fst (addExpense (fun _ => None) db st))) = true
  /\ wellFormed (fst (deleteExpense db st 1)) = true.
Proof.
  intros db st. split; [reflexivity|].
  apply (table_stays_well_formed (fun _ => None) db st 1). reflexivity.
Defined.

Section TableRows.

Lemma filter_keeps_all {A} (p : A -> bool) l :
  forallb p l = true -> List.filter p l = l.
Proof.
  induction l as [|a tl IH]; [reflexivity|]. cbn. intros H.
  apply andb_true_iff in H as [-> H]. now rewrite IH.
Qed.

Lemma map_keeps_all {A} (p : A -> bool) (f : A -> A) l :
  forallb (fun x => negb (p x)) l = true ->
  map (fun x => if p x then f x else x) l = l.
Proof.
  induction l as [|a tl IH]; [reflexivity|]. cbn. intros H.
  apply andb_true_iff in H as [Ha H]. apply negb_true_iff in Ha.
  now rewrite Ha, IH.
Qed.

Lemma existsb_false_forallb {A} (p : A -> bool) l :
  existsb p l = false -> forallb (fun x => negb (p x)) l = true.
Proof.
  induction l as [|a tl IH]; [reflexivity|]. cbn. intros H.
  apply orb_false_iff in H as [-> H]. now rewrite IH.
Qed.

(** With keys that go up, one row at most has a given key. *)
Lemma one_row_removed lo l i :
  idsAscending lo l = true ->
  existsb (fun r => Row.id r =? i) l = true ->
  S (List.length (List.filter (fun r => negb (Row.id r =? i)) l))
  = List.length l.
Proof.
  revert lo. induction l as [|r tl IH]; intros lo A E; [discriminate|].
  cbn in A, E |- *. apply andb_true_iff in A as [_ A].
  destruct (Z.eqb_spec (Row.id r) i) as [Ei|Ni]; cbn.
  - f_equal. f_equal. apply filter_keeps_all.
    apply idsAscending_above in A. rewrite forallb_forall.
    rewrite Forall_forall in A. intros x Hx. specialize (A x Hx).
    apply negb_true_iff, Z.eqb_neq. lia.
  - f_equal. eapply IH; eassumption.
Qed.

End TableRows.

Lemma idsAscending_NoDup lo l :
  idsAscending lo l = true -> NoDup (map Row.id l).
Proof.
  revert lo. induction l as [|r tl IH]; intros lo A; [constructor|].
  cbn in A. apply andb_true_iff in A as [_ A]. cbn. constructor.
  - intros I. apply in_map_iff in I as (r' & E & I).
    pose proof (idsAscending_above _ _ A) as Ab.
    rewrite Forall_forall in Ab. specialize (Ab r' I). lia.
  - eapply IH; exact A.
Qed.

(** X3.  The list is read newest first.  In a table whose keys go up, the
    expenses loaded are the rows in the reverse of the order of insertion, and
    after [addExpense] has inserted a record (not in edit mode) the list is
    the new record, under the key that was next, followed by the list as it
    was; the form is cleared and the two filters are kept.  No two records of
    the list have the same key. *)
Theorem expenses_newest_first
  (hostDateParse : string -> option Z) (db : Db) (st : State.t) :
  wellFormed db = true ->
  State.editingId st = None ->
  fst (fst (addExpense hostDateParse db st)) = Saved ->
  let db' := snd (fst (addExpense hostDateParse db st)) in
  let st' := snd (addExpense hostDateParse db st) in
  loadExpenses db = rev (rows db)
  /\ NoDup (map Row.id (loadExpenses db))
  /\ exists r,
       Row.id r = nextId db
       /\ validRow r = true
       /\ rows db' = rows db ++ [r]
       /\ nextId db' = nextId db + 1
       /\ State.expenses st' = r :: loadExpenses db
       /\ st' = State.make (r :: loadExpenses db) "" "" "" ""
                  (State.filter st) (State.categoryFilter st) None.
Proof.
  intros W E Hs db' st'.
  pose proof (wellFormed_addExpense hostDateParse db st W) as W'.
  fold db' in W'.
  unfold wellFormed in W, W'. rewrite !andb_true_iff in W, W'.
  destruct W as [[[P A] B] V]. destruct W' as [[[P' A'] B'] V'].
  split; [eapply loadExpenses_rev; exact A|].
  split.
  { unfold loadExpenses. rewrite (loadExpenses_rev 0 _ A), map_rev.
    apply NoDup_rev. eapply idsAscending_NoDup; exact A. }
  subst db' st'. revert Hs A' V'. rewrite addExpense_eq, E.
  destruct (isPositive _); [|discriminate].
  destruct (blank _); [discriminate|].
  cbn [fst snd]. intros _ A' V'.
  eexists. split; [|split; [|split; [reflexivity|split; [reflexivity|]]]].
  - reflexivity.
  - unfold insertRow in V'. cbn [rows] in V'.
    rewrite forallb_app in V'. apply andb_true_iff in V' as [_ V'].
    cbn in V'. now rewrite andb_true_r in V'.
  - assert (L : loadExpenses
                  (insertRow db (JsNumber.parseFloat (State.amount st))
                     (JsString.trim (State.category st))
                     (if JsString.truthy (JsString.trim (State.note st))
                      then Some (JsString.trim (State.note st)) else None)
                     (dateIso hostDateParse (State.date st)))
                = Row.make (nextId db)
                    (VNumber (JsNumber.parseFloat (State.amount st)))
                    (Some (JsString.trim (State.category st)))
                    (if JsString.truthy (JsString.trim (State.note st))
                     then Some (JsString.trim (State.note st)) else None)
                    (dateIso hostDateParse (State.date st))
                  :: loadExpenses db).
    { unfold loadExpenses. rewrite (loadExpenses_rev 0 _ A').
      rewrite (loadExpenses_rev 0 _ A). unfold insertRow. cbn [rows].
      now rewrite rev_app_distr. }
    rewrite L. split; reflexivity.
Qed.

Lemma expenses_newest_first_witness :
  let db :=
    {| rows := [Row.make 1 (VNumber 12.5%float) (Some "Food"%string) None
                  (Some "2024-03-01"%string);
                Row.make 3 (VNumber 40%float) (Some "Rent"%string)
                  (Some "March"%string) None];
       nextId := 4 |} in
  let st := State.make (loadExpenses db) "7.25" " Books" "" "2024-03-05"
              "week" "Rent" None in
  (wellFormed db = true /\ State.editingId st = None
   /\ fst (fst (addExpense (fun _ => None) db st)) = Saved)
  /\ exists r,
       Row.id r = 4
       /\ State.expenses (snd (addExpense (fun _ => None) db st))
          = r :: loadExpenses db.
Proof.
  intros db st.
  assert (W : wellFormed db = true) by reflexivity.
  assert (E : State.editingId st = None) by reflexivity.
  assert (S : fst (fst (addExpense (fun _ => None) db st)) = Saved)
    by reflexivity.
  split; [split; [exact W|split; [exact E|exact S]]|].
  destruct (expenses_newest_first (fun _ => None) db st W E S)
    as (_ & _ & r & Hid & _ & _ & _ & Hl & _).
  exists r. split; [exact Hid|exact Hl].
Defined.

(** X4.  [deleteExpense] removes the row of that key and nothing else.  In a
    table whose keys go up, the list afterwards is the list before without the
    record of that key; the table loses exactly one row when the key is there
    and is unchanged when it is not; the next key is never given back; and the
    form, the filters and the edit mode are left as they are, also when the
    record deleted is the one being edited. *)
Theorem deleteExpense_removes_that_row (db : Db) (st : State.t) (id : Z) :
  wellFormed db = true ->
  let db' := fst (deleteExpense db st id) in
  let st' := snd (deleteExpense db st id) in
  State.expenses st'
  = List.filter (fun r => negb (Row.id r =? id)) (loadExpenses db)
  /\ (forall r, In r (rows db') <-> In r (rows db) /\ Row.id r <> id)
  /\ (existsb (fun r => Row.id r =? id) (rows db) = true ->
      S (List.length (rows db')) = List.length (rows db))
  /\ (existsb (fun r => Row.id r =? id) (rows db) = false -> db' = db)
  /\ nextId db' = nextId db
  /\ st' = State.make (State.expenses st') (State.amount st)
             (State.category st) (State.note st) (State.date st)
             (State.filter st) (State.categoryFilter st)
             (State.editingId st).
Proof.
  intros W db' st'.
  pose proof (wellFormed_deleteExpense db st id W) as W'. fold db' in W'.
  unfold wellFormed in W, W'. rewrite !andb_true_iff in W, W'.
  destruct W as [[[P A] B] V]. destruct W' as [[[P' A'] B'] V'].
  subst db' st'. unfold deleteExpense in *. cbn [fst snd] in *.
  split; [|split; [|split; [|split; [|split]]]].
  - cbn [State.expenses]. unfold loadExpenses.
    rewrite (loadExpenses_rev 0 _ A'), (loadExpenses_rev 0 _ A).
    unfold deleteRow. cbn [rows]. rewrite <- filter_rev. reflexivity.
  - intros r. unfold deleteRow. cbn [rows]. rewrite filter_In.
    rewrite negb_true_iff, Z.eqb_neq. reflexivity.
  - intros E. unfold deleteRow. cbn [rows].
    eapply one_row_removed; eassumption.
  - intros E. unfold deleteRow.
    rewrite filter_keeps_all by (now apply existsb_false_forallb).
    destruct db; reflexivity.
  - reflexivity.
  - reflexivity.
Qed.

Lemma deleteExpense_removes_that_row_witness :
  let db :=
    {| rows := [Row.make 1 (VNumber 12.5%float) (Some "Food"%string) None
                  (Some "2024-03-01"%string);
                Row.make 3 (VNumber 40%float) (Some "Rent"%string)
                  (Some "March"%string) None];
       nextId := 4 |} in
  let st := State.make (loadExpenses db) "7" "Books" "" "" "week" "Rent"
              (Some 3) in
  wellFormed db = true
  /\ State.expenses (snd (deleteExpense db st 3))
     = List.filter (fun r => negb (Row.id r =? 3)) (loadExpenses db).
Proof.
  intros db st. split; [reflexivity|].
  apply (deleteExpense_removes_that_row db st 3). reflexivity.
Defined.

(** X5.  Saving in edit mode touches the row under edit only.  The keys of the
    table, their order and the next key are unchanged; every row of another
    key is unchanged; a row of the key under edit becomes the record of the
    form: the number that [parseFloat] reads from the amount field, the
    category trimmed, the note trimmed or none when it is blank, and the
    date as [addExpense] normalises it.  That record is one that the
    list can show.  When no row has that key any more (the record was
    deleted while it was being edited) the table is left as it is, and the
    form is cleared all the same: the edit is dropped without a word.  Edit
    mode is left in both cases. *)
Theorem save_changes_touches_one_row
  (hostDateParse : string -> option Z) (db : Db) (st : State.t) (id : Z) :
  State.editingId st = Some id ->
  fst (fst (addExpense hostDateParse db st)) = Saved ->
  let db' := snd (fst (addExpense hostDateParse db st)) in
  let st' := snd (addExpense hostDateParse db st) in
  let r :=
    Row.make id (VNumber (JsNumber.parseFloat (State.amount st)))
      (Some (JsString.trim (State.category st)))
      (if JsString.truthy (JsString.trim (State.note st))
       then Some (JsString.trim (State.note st)) else None)
      (dateIso hostDateParse (State.date st)) in
  nextId db' = nextId db
  /\ map Row.id (rows db') = map Row.id (rows db)
  /\ rows db' = map (fun r0 => if Row.id r0 =? id then r else r0) (rows db)
  /\ validRow r = true
  /\ (existsb (fun r0 => Row.id r0 =? id) (rows db) = false -> db' = db)
  /\ st' = State.make (loadExpenses db') "" "" "" ""
             (State.filter st) (State.categoryFilter st) None.
Proof.
  intros E Hs db' st' r. subst db' st' r. revert Hs.
  rewrite addExpense_eq, E.
  destruct (isPositive _) eqn:Hx; [|discriminate].
  destruct (blank _) eqn:Hc; [discriminate|].
  cbn [fst snd]. intros _.
  split; [reflexivity|]. split; [|split; [|split; [|split]]].
  - unfold updateRow. cbn [rows]. rewrite map_map. apply map_ext.
    intros r. destruct (Z.eqb_spec (Row.id r) id); cbn; congruence.
  - reflexivity.
  - now apply validRow_written.
  - intros N. unfold updateRow.
    rewrite (map_keeps_all (fun r => Row.id r =? id))
      by (now apply existsb_false_forallb).
    destruct db; reflexivity.
  - reflexivity.
Qed.

Lemma save_changes_touches_one_row_witness :
  let db :=
    {| rows := [Row.make 1 (VNumber 12.5%float) (Some "Food"%string) None
                  (Some "2024-03-01"%string)];
       nextId := 4 |} in
  let st := State.make (loadExpenses db) "7" "Books" "" "" "all" "all"
              (Some 3) in
  (State.editingId st = Some 3
   /\ fst (fst (addExpense (fun _ => None) db st)) = Saved)
  /\ existsb (fun r => Row.id r =? 3) (rows db) = false
  /\ snd (fst (addExpense (fun _ => None) db st)) = db.
Proof.
  intros db st.
  assert (E : State.editingId st = Some 3) by reflexivity.
  assert (S : fst (fst (addExpense (fun _ => None) db st)) = Saved)
    by reflexivity.
  split; [split; [exact E|exact S]|]. split; [reflexivity|].
  apply (save_changes_touches_one_row (fun _ => None) db st 3 E S).
  reflexivity.
Defined.

(* ================================================================== *)
(** * The date field *)
(* ================================================================== *)

Section DateField.
Import JsString.

Lemma substring_firstn n s :
  list_ascii_of_string (substring 0 n s)
  = firstn n (list_ascii_of_string s).
Proof.
  revert s. induction n as [|n IH]; intros s.
  - destruct s; reflexivity.
  - destruct s as [|c s]; [reflexivity|]. cbn. now rewrite IH.
Qed.

Lemma cleaned_list text :
  list_ascii_of_string (cleaned text)
  = firstn 10 (List.filter (fun c => isDigit c || isChar c "-")
                 (list_ascii_of_string text)).
Proof.
  unfold cleaned, slice_0_10.
  now rewrite substring_firstn, list_ascii_of_string_of_list_ascii.
Qed.

Lemma forallb_firstn {A} (p : A -> bool) n l :
  forallb p l = true -> forallb p (firstn n l) = true.
Proof.
  revert n. induction l as [|a l IH]; intros [|n] H; try reflexivity.
  cbn in H |- *. apply andb_true_iff in H as [-> H]. now apply IH.
Qed.

Lemma forallb_filter_self {A} (p : A -> bool) l :
  forallb p (List.filter p l) = true.
Proof.
  rewrite forallb_forall. intros x Hx. now apply filter_In in Hx.
Qed.

Lemma Subseq_firstn {A} n (l : list A) : Subseq (firstn n l) l.
Proof.
  revert n. induction l as [|a l IH]; intros [|n]; cbn.
  - apply Subseq_nil.
  - apply Subseq_nil.
  - apply Subseq_skip. exact (IH 0%nat).
  - apply Subseq_keep. apply IH.
Qed.

Lemma length_list_ascii s :
  List.length (list_ascii_of_string s) = String.length s.
Proof. induction s as [|c s IH]; cbn; congruence. Qed.

(** A text of the shape [dddd-dd-dd] has ten characters, digits and
    hyphens. *)
Lemma isoDatePattern_chars s :
  isoDatePattern s = true ->
  List.length (list_ascii_of_string s) = 10%nat
  /\ forallb (fun c => isDigit c || isChar c "-") (list_ascii_of_string s)
     = true.
Proof.
  unfold isoDatePattern.
  destruct (list_ascii_of_string s)
    as [|y1 [|y2 [|y3 [|y4 [|h1 [|m1 [|m2 [|h2 [|d1 [|d2 [|x l]]]]]]]]]]];
    try discriminate.
  rewrite !andb_true_iff.
  intros (((((((((Y1 & Y2) & Y3) & Y4) & H1) & M1) & M2) & H2) & D1) & D2).
  split; [reflexivity|]. cbn [forallb].
  rewrite Y1, Y2, Y3, Y4, H1, M1, M2, H2, D1, D2.
  now rewrite !orb_true_r.
Qed.

Lemma cleaned_fixed text :
  (List.length (list_ascii_of_string text) <= 10)%nat ->
  forallb (fun c => isDigit c || isChar c "-") (list_ascii_of_string text)
  = true ->
  cleaned text = text.
Proof.
  intros L F.
  rewrite <- (string_of_list_ascii_of_string (cleaned text)), cleaned_list.
  rewrite (filter_keeps_all _ _ F), firstn_all2 by exact L.
  apply string_of_list_ascii_of_string.
Qed.

End DateField.

(** X6.  What the date field lets through.  Whatever is typed or pasted, the
    field holds exactly the characters of the text that are digits or
    hyphens, in their order, cut after the tenth (the seventh conjunct); the
    rest of the form is untouched.  So the field holds at most ten
    characters, each a digit or a hyphen; a text that is already so is kept
    as it is (cleaning twice is cleaning once), and so is every text of the
    shape [dddd-dd-dd]. *)
Theorem date_field_lets_digits_and_hyphens (text : string) :
  let c := cleaned text in
  (String.length c <= 10)%nat
  /\ forallb (fun a => JsString.isDigit a || JsString.isChar a "-")
       (list_ascii_of_string c) = true
  /\ Subseq (list_ascii_of_string c) (list_ascii_of_string text)
  /\ cleaned c = c
  /\ (JsString.isoDatePattern text = true -> c = text)
  /\ (forall st, State.date (dateOnChangeText text st) = c)
  /\ list_ascii_of_string c
     = firstn 10
         (List.filter (fun a => JsString.isDigit a || JsString.isChar a "-")
            (list_ascii_of_string text))
  /\ (forall st,
        dateOnChangeText text st
        = State.make (State.expenses st) (State.amount st)
            (State.category st) (State.note st) c (State.filter st)
            (State.categoryFilter st) (State.editingId st)).
Proof.
  intros c.
  assert (L : (String.length c <= 10)%nat).
  { rewrite <- length_list_ascii. unfold c. rewrite cleaned_list.
    apply firstn_le_length. }
  assert (F : forallb (fun a => JsString.isDigit a || JsString.isChar a "-")
                (list_ascii_of_string c) = true).
  { unfold c. rewrite cleaned_list. apply forallb_firstn.
    apply forallb_filter_self. }
  split; [exact L|]. split; [exact F|].
  split; [|split; [|split; [|split; [|split]]]].
  - unfold c. rewrite cleaned_list.
    eapply Subseq_trans; [apply Subseq_firstn|apply Subseq_filter].
  - apply cleaned_fixed; [now rewrite length_list_ascii|exact F].
  - intros P. destruct (isoDatePattern_chars text P) as [Hl Hf].
    apply cleaned_fixed; [rewrite Hl; constructor|exact Hf].
  - reflexivity.
  - apply cleaned_list.
  - reflexivity.
Qed.

(** X7.  Once the date field has been left, the date stored is the text of the
    field or none.  [onEndEditing] leaves the field empty or with a text of
    the shape [dddd-dd-dd] (which it keeps), and touches nothing else; for
    such a field [addExpense] stores the very text, or no date when it is
    empty, whatever [Date.parse] would make of it: no date is parsed or
    reformatted. *)
Theorem date_field_strict_after_editing
  (hostDateParse : string -> option Z) (st : State.t) :
  let st' := dateOnEndEditing st in
  (State.date st' = ""%string
   \/ JsString.isoDatePattern (State.date st') = true)
  /\ dateIso hostDateParse (State.date st')
     = (if JsString.truthy (State.date st') then Some (State.date st')
        else None)
  /\ (JsString.isoDatePattern (State.date st) = true -> st' = st)
  /\ st' = Form.setDate (State.date st') st.
Proof.
  intros st'. subst st'. unfold dateOnEndEditing.
  destruct (JsString.truthy (State.date st)) eqn:T;
    destruct (JsString.isoDatePattern (State.date st)) eqn:P;
    cbn [andb negb Form.setDate State.date].
  - split; [now right|]. split; [|split; [reflexivity|]].
    + unfold dateIso. now rewrite T, P.
    + destruct st; reflexivity.
  - split; [now left|]. split; [reflexivity|].
    split; [discriminate|reflexivity].
  - split; [now right|]. split; [|split; [reflexivity|]].
    + unfold dateIso. now rewrite T.
    + destruct st; reflexivity.
  - split; [left; destruct (State.date st); [reflexivity|discriminate]|].
    split; [|split; [discriminate|]].
    + unfold dateIso. now rewrite T.
    + destruct st; reflexivity.
Qed.

(* ================================================================== *)
(** * The date of a row, shown and edited *)
(* ================================================================== *)

Section CalendarRoundTrip.
Import JsString JsDate.

Lemma month_cases m : 0 <= m <= 11 ->
  m = 0 \/ m = 1 \/ m = 2 \/ m = 3 \/ m = 4 \/ m = 5 \/ m = 6 \/ m = 7
  \/ m = 8 \/ m = 9 \/ m = 10 \/ m = 11.
Proof. lia. Qed.

Lemma leap_flag y : 0 <= (if isLeapYear y then 1 else 0) <= 1
  /\ DaysInYear y = 365 + (if isLeapYear y then 1 else 0).
Proof. unfold DaysInYear. destruct (isLeapYear y); lia. Qed.

(** The fields of the day that [MakeDay] makes of a calendar date are the
    date. *)
Lemma fields_of_calendar_day y m d u :
  0 <= m <= 11 -> 1 <= d <= DaysInMonth y m ->
  Day u = MakeDay y m d ->
  YearFromTime u = y /\ MonthFromTime u = m /\ DateFromTime u = d.
Proof.
  intros Hm Hd HD.
  destruct (leap_flag y) as [Hl Hdy].
  assert (E : MakeDay y m d
              = DayFromYear y
                + firstDayOfMonth (if isLeapYear y then 1 else 0) m + d - 1).
  { unfold MakeDay. rewrite Z.div_small, Z.mod_small by lia.
    now replace (y + 0) with y by lia. }
  assert (R : 0 <= firstDayOfMonth (if isLeapYear y then 1 else 0) m + d - 1
              < DaysInYear y).
  { unfold DaysInMonth in Hd. rewrite Hdy.
    destruct (month_cases m Hm) as [C|[C|[C|[C|[C|[C|[C|[C|[C|[C|[C|C]]]]]]]]]]];
      subst m; destruct (isLeapYear y); cbn in Hd; unfold firstDayOfMonth;
      lia. }
  assert (Y : YearFromTime u = y).
  { unfold YearFromTime. apply YearFromDay_unique.
    rewrite DayFromYear_succ, HD, E. lia. }
  assert (W : DayWithinYear u
              = firstDayOfMonth (if isLeapYear y then 1 else 0) m + d - 1).
  { unfold DayWithinYear. rewrite Y, HD, E. lia. }
  assert (M : MonthFromTime u = m).
  { unfold MonthFromTime, InLeapYear. rewrite Y, W.
    unfold DaysInMonth in Hd. unfold monthOfDayWithinYear.
    destruct (month_cases m Hm) as [C|[C|[C|[C|[C|[C|[C|[C|[C|[C|[C|C]]]]]]]]]]];
      subst m; destruct (isLeapYear y); cbn in Hd; unfold firstDayOfMonth;
      repeat match goal with
             | |- context [if ?a <? ?b then _ else _] =>
                 destruct (Z.ltb_spec a b); try lia
             end. }
  split; [exact Y|]. split; [exact M|].
  unfold DateFromTime. rewrite M, W. unfold InLeapYear. rewrite Y.
  destruct (isLeapYear y); lia.
Qed.

Lemma utcMidnight_fields y m d t :
  utcMidnight y m d = Some t ->
  1 <= m <= 12 /\ 1 <= d <= DaysInMonth y (m - 1)
  /\ Day t = MakeDay y (m - 1) d.
Proof.
  unfold utcMidnight.
  destruct ((1 <=? m) && (m <=? 12) && (1 <=? d)
            && (d <=? DaysInMonth y (m - 1))) eqn:C; [|discriminate].
  intros H. apply TimeClip_Some in H as [-> _].
  rewrite !andb_true_iff, !Z.leb_le in C.
  rewrite Day_MakeDate by (unfold msPerDay; lia). lia.
Qed.

End CalendarRoundTrip.

Section DigitsRoundTrip.
Import JsString JsDate.

Lemma digit_char c :
  isDigit c = true ->
  digitChar (digitValue c) = c /\ 0 <= digitValue c <= 9
  /\ isChar c "+" = false /\ isChar c "-" = false.
Proof.
  destruct c as [[] [] [] [] [] [] [] []]; intros H; vm_compute in H;
    try discriminate H; repeat split; try reflexivity; vm_compute;
    discriminate.
Qed.

Lemma fixedDigits_step w a v :
  0 <= v <= 9 ->
  fixedDigits (S w) (10 * a + v) = fixedDigits w a ++ [digitChar v].
Proof.
  intros Hv. cbn [fixedDigits].
  replace ((10 * a + v) / 10) with a
    by (Z.to_euclidean_division_equations; lia).
  replace ((10 * a + v) mod 10) with v
    by (Z.to_euclidean_division_equations; lia).
  reflexivity.
Qed.

Lemma padded_two a b :
  isDigit a = true -> isDigit b = true ->
  readDigits [a; b] = Some (10 * (10 * 0 + digitValue a) + digitValue b)
  /\ padded 2 (10 * (10 * 0 + digitValue a) + digitValue b)
     = string_of_list_ascii [a; b].
Proof.
  intros Ha Hb. split.
  - unfold readDigits. cbn [forallb]. rewrite Ha, Hb. reflexivity.
  - destruct (digit_char a Ha) as (Ea & Ra & _).
    destruct (digit_char b Hb) as (Eb & Rb & _).
    unfold padded. rewrite 2 fixedDigits_step by lia.
    cbn [fixedDigits app]. now rewrite Ea, Eb.
Qed.

Lemma padded_four a b c d :
  isDigit a = true -> isDigit b = true -> isDigit c = true ->
  isDigit d = true ->
  let y := 10 * (10 * (10 * (10 * 0 + digitValue a) + digitValue b)
                 + digitValue c) + digitValue d in
  readDigits [a; b; c; d] = Some y
  /\ padded 4 y = string_of_list_ascii [a; b; c; d]
  /\ 0 <= y <= 9999.
Proof.
  intros Ha Hb Hc Hd y. split; [|split].
  - unfold readDigits. cbn [forallb]. rewrite Ha, Hb, Hc, Hd. reflexivity.
  - destruct (digit_char a Ha) as (Ea & Ra & _).
    destruct (digit_char b Hb) as (Eb & Rb & _).
    destruct (digit_char c Hc) as (Ec & Rc & _).
    destruct (digit_char d Hd) as (Ed & Rd & _).
    unfold padded, y. rewrite 4 fixedDigits_step by lia.
    cbn [fixedDigits app]. now rewrite Ea, Eb, Ec, Ed.
  - destruct (digit_char a Ha) as (_ & Ra & _).
    destruct (digit_char b Hb) as (_ & Rb & _).
    destruct (digit_char c Hc) as (_ & Rc & _).
    destruct (digit_char d Hd) as (_ & Rd & _).
    unfold y. lia.
Qed.

(** A text of the shape [dddd-dd-dd] that parses is printed back as it
    is. *)
Lemma written_date_round_trip s t :
  isoDatePattern s = true -> parseIsoDateOnly s = Some t ->
  0 <= YearFromTime t <= 9999 /\ isoDateUTC t = s.
Proof.
  intros P H.
  rewrite <- (string_of_list_ascii_of_string s).
  unfold isoDatePattern in P. unfold parseIsoDateOnly in H.
  destruct (list_ascii_of_string s)
    as [|y1 [|y2 [|y3 [|y4 [|h1 [|m1 [|m2 [|h2 [|d1 [|d2 [|x l]]]]]]]]]]];
    try discriminate P.
  rewrite !andb_true_iff in P.
  destruct P as (((((((((Y1 & Y2) & Y3) & Y4) & H1) & M1) & M2) & H2) & D1)
                 & D2).
  destruct (digit_char y1 Y1) as (_ & _ & Np & Nm).
  rewrite Np, Nm in H. cbn [orb List.length Z.of_nat] in H.
  cbn [firstn skipn] in H.
  destruct (padded_four y1 y2 y3 y4 Y1 Y2 Y3 Y4) as (Ry & Py & By).
  destruct (padded_two m1 m2 M1 M2) as (Rm & Pm).
  destruct (padded_two d1 d2 D1 D2) as (Rd & Pd).
  change (4 <=? Z.pos (Pos.of_succ_nat 9)) with true in H. cbv iota in H.
  rewrite Ry in H. unfold parseMonthDay in H.
  rewrite H1, H2, Rm, Rd in H. cbn [andb] in H.
  apply utcMidnight_fields in H as (Hm & Hd & HD).
  assert (Hm' : 0 <= 10 * (10 * 0 + digitValue m1) + digitValue m2 - 1 <= 11)
    by lia.
  destruct (fields_of_calendar_day _ _ _ t Hm' Hd HD) as (EY & EM & ED).
  split; [rewrite EY; exact By|].
  unfold isoDateUTC. rewrite EY, EM, ED.
  replace (_ - 1 + 1) with (10 * (10 * 0 + digitValue m1) + digitValue m2)
    by lia.
  rewrite Py, Pm, Pd.
  apply Ascii.eqb_eq in H1, H2. unfold isChar in *. subst h1 h2.
  reflexivity.
Qed.

End DigitsRoundTrip.

Lemma calendarDate_parse hostDateParse s :
  calendarDate s = true ->
  JsString.isoDatePattern s = true
  /\ exists t,
       JsDate.parseIsoDateOnly s = Some t
       /\ Date_parse hostDateParse s = Some t
       /\ JsString.slice_0_10 (JsDate.toISOString t) = s.
Proof.
  unfold calendarDate. intros H. apply andb_true_iff in H as [P H].
  split; [exact P|].
  destruct (JsDate.parseIsoDateOnly s) as [t|] eqn:E; [|discriminate].
  exists t. split; [reflexivity|]. split.
  - unfold Date_parse. now rewrite E.
  - destruct (written_date_round_trip s t P E) as [Hy Hs].
    now rewrite slice_toISOString.
Qed.

(** X8.  A date that is a day of the calendar written [YYYY-MM-DD], which is
    how [addExpense] stores it, is shown on its row as it is written, is put
    back as it is written into the form by the Edit button, and is stored
    again as it is written; in every time zone, since it is read and printed
    in UTC. *)
Theorem stored_date_shown_as_written
  (hostDateParse : string -> option Z) (ToString : float -> string)
  (item : Row.t) (s : string) (st : State.t) :
  Row.date item = Some s ->
  calendarDate s = true ->
  isoDate hostDateParse item = Some s
  /\ (exists st',
        editOnPress hostDateParse ToString item st = Returns st'
        /\ State.date st' = s
        /\ State.editingId st' = Some (Row.id item))
  /\ dateIso hostDateParse s = Some s.
Proof.
  intros E C.
  destruct (calendarDate_parse hostDateParse s C) as (P & t & _ & Ep & Es).
  pose proof (isoDatePattern_truthy s P) as T.
  split; [|split].
  - unfold isoDate. now rewrite E, T, Ep, Es.
  - unfold editOnPress. rewrite E, T, Ep, Es. eexists.
    split; [reflexivity|]. split; reflexivity.
  - unfold dateIso. now rewrite T, P.
Qed.

Lemma stored_date_shown_as_written_witness :
  let item := Row.make 7 (VNumber 12.5%float) (Some "Food"%string) None
                (Some "2024-02-29"%string) in
  (Row.date item = Some "2024-02-29"%string
   /\ calendarDate "2024-02-29" = true)
  /\ isoDate (fun _ => None) item = Some "2024-02-29"%string.
Proof.
  intros item.
  assert (E : Row.date item = Some "2024-02-29"%string) by reflexivity.
  assert (C : calendarDate "2024-02-29" = true) by reflexivity.
  split; [split; [exact E|exact C]|].
  apply (stored_date_shown_as_written (fun _ => None) (fun _ => ""%string)
           item "2024-02-29"
           (State.make [] "" "" "" "" "all" "all" None) E C).
Defined.

(** X9.  A date that does not parse breaks the Edit button.  On a row whose
    date is a text that [Date.parse] rejects, as [2024-13-45] is (there is
    no month 13), the row shows no date, the record is in none of the time
    windows, and the Edit button raises the [RangeError] of [toISOString]
    before it has set the date field and the edit mode.  [addExpense]
    stores such a text when it has the shape [dddd-dd-dd]: the shape is all
    it checks, not the calendar. *)
Theorem edit_raises_on_unparseable_date
  (hostDateParse : string -> option Z) (ToString : float -> string)
  (item : Row.t) (s : string) (st : State.t) :
  Row.date item = Some s ->
  s <> ""%string ->
  Date_parse hostDateParse s = None ->
  isoDate hostDateParse item = None
  /\ (exists st',
        editOnPress hostDateParse ToString item st = Throws st'
        /\ State.date st' = State.date st
        /\ State.editingId st' = State.editingId st)
  /\ (forall LocalTZA filter now,
        filter <> "all"%string ->
        inTimeWindow LocalTZA hostDateParse filter now item = false)
  /\ (JsString.isoDatePattern s = true ->
      dateIso hostDateParse s = Some s).
Proof.
  intros E Hs Ep. apply truthy_nonempty in Hs.
  split; [|split; [|split]].
  - unfold isoDate. now rewrite E, Hs, Ep.
  - unfold editOnPress. rewrite E, Hs, Ep. eexists.
    split; [reflexivity|]. split; reflexivity.
  - intros tz f now Hf. unfold inTimeWindow.
    apply String.eqb_neq in Hf. rewrite Hf, E, Hs. cbn [negb].
    unfold getTime. now rewrite Ep.
  - intros P. unfold dateIso. now rewrite Hs, P.
Qed.

Lemma edit_raises_on_unparseable_date_witness :
  let item := Row.make 7 (VNumber 12.5%float) (Some "Food"%string) None
                (Some "2024-13-45"%string) in
  let st := State.make [item] "" "" "" "" "all" "all" None in
  (Row.date item = Some "2024-13-45"%string
   /\ "2024-13-45"%string <> ""%string
   /\ Date_parse (fun _ => None) "2024-13-45" = None)
  /\ JsString.isoDatePattern "2024-13-45" = true
  /\ exists st',
       editOnPress (fun _ => None) (fun _ => "12.5"%string) item st
       = Throws st'
       /\ State.date st' = State.date st
       /\ State.editingId st' = State.editingId st.
Proof.
  intros item st.
  assert (E : Row.date item = Some "2024-13-45"%string) by reflexivity.
  assert (N : "2024-13-45"%string <> ""%string) by discriminate.
  assert (P : Date_parse (fun _ => None) "2024-13-45" = None)
    by reflexivity.
  split; [split; [exact E|split; [exact N|exact P]]|].
  split; [reflexivity|].
  apply (edit_raises_on_unparseable_date (fun _ => None)
           (fun _ => "12.5"%string) item "2024-13-45" st E N P).
Defined.

Section EditAndSave.
Import JsString.

Lemma trimmed_spec s : trimmed s = true -> blank s = false /\ trim s = s.
Proof.
  unfold trimmed. intros H. apply andb_true_iff in H as [B E].
  apply negb_true_iff in B. now apply String.eqb_eq in E.
Qed.

(** With keys that go up, a key names one row. *)
Lemma row_of_key lo l r r0 :
  idsAscending lo l = true -> In r l -> In r0 l ->
  Row.id r0 = Row.id r -> r0 = r.
Proof.
  revert lo. induction l as [|a tl IH]; intros lo A Hr Hr0 E; [easy|].
  cbn in A. apply andb_true_iff in A as [_ A].
  pose proof (idsAscending_above _ _ A) as Ab.
  rewrite Forall_forall in Ab.
  destruct Hr as [<-|Hr], Hr0 as [<-|Hr0].
  - reflexivity.
  - specialize (Ab _ Hr0). lia.
  - specialize (Ab _ Hr). lia.
  - eapply IH; eassumption.
Qed.

Lemma map_replace_same lo l r :
  idsAscending lo l = true -> In r l ->
  map (fun r0 => if Row.id r0 =? Row.id r then r else r0) l = l.
Proof.
  intros A Hr. rewrite <- (map_id l) at 2. apply map_ext_in.
  intros r0 Hr0. destruct (Z.eqb_spec (Row.id r0) (Row.id r)) as [E|_];
    [|reflexivity].
  symmetry. eapply row_of_key; eassumption.
Qed.

End EditAndSave.

(** X10.  Edit and then Save changes, with the form untouched in between,
    leaves the table as it is.  This holds for a record of a table the screen
    has written whose date is none or a day of the calendar written
    [YYYY-MM-DD], provided the text [String] gives for the amount reads back
    as the amount (as the shortest decimal that [Number::toString] prints
    does): the Edit button returns and enters edit mode for the record, and
    [addExpense] then rewrites the row with what it held, clears the form and
    leaves edit mode. *)
Theorem edit_then_save_keeps_table
  (hostDateParse : string -> option Z) (ToString : float -> string)
  (db : Db) (st : State.t) (r : Row.t) :
  wellFormed db = true ->
  In r (rows db) ->
  (forall x, Row.amount r = VNumber x ->
             JsNumber.parseFloat (ToString x) = x) ->
  (forall s, Row.date r = Some s -> calendarDate s = true) ->
  exists st1,
    editOnPress hostDateParse ToString r st = Returns st1
    /\ State.editingId st1 = Some (Row.id r)
    /\ addExpense hostDateParse db st1
       = (Saved, db,
          State.make (loadExpenses db) "" "" "" ""
            (State.filter st) (State.categoryFilter st) None).
Proof.
  intros W Hr Hx Hd.
  unfold wellFormed in W. rewrite !andb_true_iff in W.
  destruct W as [[[P A] B] V].
  rewrite forallb_forall in V. specialize (V r Hr).
  pose proof (map_replace_same 0 (rows db) r A Hr) as M.
  destruct r as [id amount category note date].
  unfold validRow in V. cbn [Row.amount Row.category Row.note Row.date] in *.
  rewrite !andb_true_iff in V. destruct V as [[[Va Vc] Vn] Vd].
  destruct amount as [| |x|]; try discriminate Va.
  destruct category as [c|]; [|discriminate Vc].
  apply trimmed_spec in Vc as [Bc Tc].
  specialize (Hx x eq_refl).
  assert (N : (if JsString.truthy (JsString.trim (orEmpty note))
               then Some (JsString.trim (orEmpty note)) else None) = note).
  { destruct note as [n|]; [|reflexivity]. cbn [orEmpty].
    apply trimmed_spec in Vn as [Bn Tn].
    now rewrite truthy_trim, Bn, Tn. }
  assert (D : exists d,
             dateIso hostDateParse d = date
             /\ editOnPress hostDateParse ToString
                  (Row.make id (VNumber x) (Some c) note date) st
                = Returns
                    (Form.setEditingId (Some id)
                       (Form.setDate d
                          (Form.setNote (orEmpty note)
                             (Form.setCategory c
                                (Form.setAmount (ToString x) st)))))).
  { unfold editOnPress. cbn [Row.amount Row.category Row.note Row.date
                               Row.id String_of orEmpty].
    destruct date as [s|].
    - destruct (calendarDate_parse hostDateParse s (Hd s eq_refl))
        as (Ps & t & _ & Ep & Es).
      rewrite (isoDatePattern_truthy s Ps), Ep, Es.
      exists s. split; [|reflexivity].
      unfold dateIso. now rewrite (isoDatePattern_truthy s Ps), Ps.
    - exists ""%string. split; reflexivity. }
  destruct D as (d & Ed & Ee). rewrite Ee. eexists.
  split; [reflexivity|]. split; [reflexivity|].
  rewrite addExpense_eq.
  cbn [Form.setEditingId Form.setDate Form.setNote Form.setCategory
       Form.setAmount State.amount State.category State.note State.date
       State.editingId State.filter State.categoryFilter State.expenses].
  rewrite Hx, Va, Bc, Tc, N, Ed. cbv zeta.
  assert (U : updateRow db id x c note date = db).
  { unfold updateRow. cbn [Row.id] in M. rewrite M. destruct db; reflexivity. }
  now rewrite U.
Qed.

Lemma edit_then_save_keeps_table_witness :
  let r := Row.make 3 (VNumber 12.5%float) (Some "Food"%string)
             (Some "lunch"%string) (Some "2024-02-29"%string) in
  let db :=
    {| rows := [Row.make 1 (VNumber 40%float) (Some "Rent"%string) None
                  None; r];
       nextId := 4 |} in
  let st := State.make (loadExpenses db) "" "" "" "" "week" "all" None in
  let ToString := fun _ : float => "12.5"%string in
  (wellFormed db = true /\ In r (rows db)
   /\ (forall x, Row.amount r = VNumber x ->
                 JsNumber.parseFloat (ToString x) = x)
   /\ (forall s, Row.date r = Some s -> calendarDate s = true))
  /\ exists st1,
       editOnPress (fun _ => None) ToString r st = Returns st1
       /\ State.editingId st1 = Some (Row.id r)
       /\ addExpense (fun _ => None) db st1
          = (Saved, db,
             State.make (loadExpenses db) "" "" "" ""
               (State.filter st) (State.categoryFilter st) None).
Proof.
  intros r db st ToString.
  assert (W : wellFormed db = true) by reflexivity.
  assert (I : In r (rows db)) by (right; left; reflexivity).
  assert (X : forall x, Row.amount r = VNumber x ->
                        JsNumber.parseFloat (ToString x) = x)
    by (intros x [= <-]; reflexivity).
  assert (D : forall s, Row.date r = Some s -> calendarDate s = true)
    by (intros s [= <-]; reflexivity).
  split; [split; [exact W|split; [exact I|split; [exact X|exact D]]]|].
  apply (edit_then_save_keeps_table (fun _ => None) ToString db st r W I X D).
Defined.

(* ================================================================== *)
(** * The month window *)
(* ================================================================== *)

Section MonthWindow.
Import JsDate.

Lemma DateFromTime_min u : 1 <= DateFromTime u.
Proof.
  unfold DateFromTime, MonthFromTime.
  pose proof (DayWithinYear_range u) as R.
  destruct R as [R _]. revert R.
  generalize (DayWithinYear u) as d. intros d R.
  unfold InLeapYear. destruct (isLeapYear (YearFromTime u));
    unfold monthOfDayWithinYear;
    repeat match goal with
           | |- context [if ?a <? ?b then _ else _] =>
               destruct (Z.ltb_spec a b)
           end; unfold firstDayOfMonth; lia.
Qed.

(** The year and the month of a time value are those of its day. *)
Lemma year_month_of_day u v :
  Day u = Day v ->
  YearFromTime u = YearFromTime v /\ MonthFromTime u = MonthFromTime v.
Proof.
  intros E. unfold MonthFromTime, InLeapYear, DayWithinYear, YearFromTime.
  now rewrite E.
Qed.

(** The day before the first of a month is in another month. *)
Lemma day_before_the_first y m u :
  0 <= m <= 11 ->
  Day u = MakeDay y m 1 - 1 ->
  ~ (YearFromTime u = y /\ MonthFromTime u = m).
Proof.
  intros Hm HD [EY EM].
  pose proof (MakeDay_fields u 0) as F. rewrite EY, EM in F.
  pose proof (DateFromTime_min u) as D.
  unfold MakeDay in F, HD.
  rewrite Z.div_small, Z.mod_small in F, HD by lia. lia.
Qed.

End MonthWindow.

(** X11.  The month window in terms of the day a record writes.  A record
    whose date is in a date-only form ([YYYY-MM-DD] in particular) and writes
    the day [d] of the month [m] of the year [y] is in the window when [y] and
    [m] are the local year and month of now, whatever the day, a day to come
    included: this is so at UTC and east of it, and west of UTC for every day
    but the first of the month.  West of UTC a record dated the first of the
    current month is left out: its midnight UTC is the last day of the month
    before in local time. *)
Theorem month_window_by_written_date
  (LocalTZA : Z) (hostDateParse : string -> option Z)
  (now : Z) (item : Row.t) (s : string) (y m d t : Z) :
  - JsDate.msPerDay < LocalTZA < JsDate.msPerDay ->
  Row.date item = Some s ->
  JsDate.parseIsoDateOnly s = Some t ->
  JsDate.utcMidnight y m d = Some t ->
  let nowYear := JsDate.YearFromTime (now + LocalTZA) in
  let nowMonth := JsDate.MonthFromTime (now + LocalTZA) in
  (0 <= LocalTZA \/ 2 <= d ->
   inTimeWindow LocalTZA hostDateParse "month" now item
   = (y =? nowYear) && (m - 1 =? nowMonth))
  /\ (LocalTZA < 0 -> d = 1 -> y = nowYear -> m - 1 = nowMonth ->
      inTimeWindow LocalTZA hostDateParse "month" now item = false).
Proof.
  intros Hz E Ei Eu nowYear nowMonth.
  assert (Ep : Date_parse hostDateParse s = Some t)
    by (unfold Date_parse; now rewrite Ei).
  pose proof (utcMidnight_day y m d t Eu) as Ht.
  destruct (utcMidnight_fields y m d t Eu) as (Hm & Hd & HD).
  pose proof (localDay_of_utc_midnight LocalTZA t Hz Ht) as L.
  unfold localDay in L.
  assert (Hs : JsString.truthy s = true).
  { destruct s; [discriminate Ei|reflexivity]. }
  assert (W : inTimeWindow LocalTZA hostDateParse "month" now item
              = (JsDate.YearFromTime (t + LocalTZA) =? nowYear)
                && (JsDate.MonthFromTime (t + LocalTZA) =? nowMonth)).
  { unfold inTimeWindow. rewrite E, Hs, Ep. reflexivity. }
  rewrite W. split.
  - intros C.
    assert (F : JsDate.YearFromTime (t + LocalTZA) = y
                /\ JsDate.MonthFromTime (t + LocalTZA) = m - 1).
    { destruct (Z.ltb_spec LocalTZA 0) as [Hneg|Hpos].
      - assert (Hd2 : 1 <= d - 1 <= JsDate.DaysInMonth y (m - 1)) by lia.
        destruct (fields_of_calendar_day y (m - 1) (d - 1) (t + LocalTZA)
                    ltac:(lia) Hd2) as (EY & EM & _); [|now split].
        rewrite L, HD. unfold JsDate.MakeDay. lia.
      - destruct (fields_of_calendar_day y (m - 1) d (t + LocalTZA)
                    ltac:(lia) Hd) as (EY & EM & _); [|now split].
        rewrite L, HD. lia. }
    destruct F as [-> ->]. reflexivity.
  - intros Hneg -> EY EM.
    apply andb_false_iff.
    destruct (Z.eqb_spec (JsDate.YearFromTime (t + LocalTZA)) nowYear)
      as [E1|]; [|now left].
    destruct (Z.eqb_spec (JsDate.MonthFromTime (t + LocalTZA)) nowMonth)
      as [E2|]; [|now right].
    exfalso.
    apply (day_before_the_first y (m - 1) (t + LocalTZA) ltac:(lia)).
    + rewrite L, HD. destruct (Z.ltb_spec LocalTZA 0); lia.
    + split; congruence.
Qed.

Lemma month_window_by_written_date_witness :
  let item := Row.make 1 (VNumber 12.5%float) (Some "Food"%string) None
                (Some "2024-03-01"%string) in
  let now := 1709830800000 in
  let zone := -18000000 in
  (- JsDate.msPerDay < zone < JsDate.msPerDay
   /\ Row.date item = Some "2024-03-01"%string
   /\ JsDate.parseIsoDateOnly "2024-03-01" = Some 1709251200000
   /\ JsDate.utcMidnight 2024 3 1 = Some 1709251200000)
  /\ JsDate.YearFromTime (now + zone) = 2024
  /\ JsDate.MonthFromTime (now + zone) = 2
  /\ inTimeWindow zone (fun _ => None) "month" now item = false.
Proof.
  intros item now zone.
  assert (Z : - JsDate.msPerDay < zone < JsDate.msPerDay)
    by (unfold JsDate.msPerDay, zone; lia).
  assert (E : Row.date item = Some "2024-03-01"%string) by reflexivity.
  assert (P : JsDate.parseIsoDateOnly "2024-03-01" = Some 1709251200000)
    by reflexivity.
  assert (U : JsDate.utcMidnight 2024 3 1 = Some 1709251200000)
    by reflexivity.
  split; [split; [exact Z|split; [exact E|split; [exact P|exact U]]]|].
  split; [reflexivity|]. split; [reflexivity|].
  apply (proj2 (month_window_by_written_date zone (fun _ => None) now item
                  "2024-03-01" 2024 3 1 1709251200000 Z E P U));
    [unfold zone; lia|reflexivity|reflexivity|reflexivity].
Defined.

(* ================================================================== *)
(** * The rows of the category list and of the legend *)
(* ================================================================== *)

Section CategoryRows.

Lemma In_keys_set o k v x :
  In x (map fst (Obj.set o k v)) <-> x = k \/ In x (map fst o).
Proof.
  induction o as [|[k' v'] o IH]; cbn.
  - intuition congruence.
  - destruct (String.eqb_spec k' k) as [->|N]; cbn.
    + intuition congruence.
    + rewrite IH. intuition congruence.
Qed.

Lemma NoDup_keys_set o k v :
  NoDup (map fst o) -> NoDup (map fst (Obj.set o k v)).
Proof.
  induction o as [|[k' v'] o IH]; cbn; intros H.
  - constructor; [intros []|constructor].
  - inversion H as [|? ? Hn Ho]; subst.
    destruct (String.eqb_spec k' k) as [->|N]; cbn.
    + now constructor.
    + constructor; [|now apply IH].
      rewrite In_keys_set. intros [E|I]; [congruence|contradiction].
Qed.

Lemma totals_fold_keys l : forall acc,
  NoDup (map fst acc) ->
  NoDup (map fst (fold_left totalsStep l acc))
  /\ forall k,
       In k (map fst (fold_left totalsStep l acc))
       <-> In k (map fst acc) \/ exists it, In it l /\ categoryOrOther it = k.
Proof.
  induction l as [|x l IH]; intros acc H; cbn [fold_left].
  - split; [exact H|]. intros k. split; [auto|].
    intros [I|(it & [] & _)]. exact I.
  - destruct (IH (totalsStep acc x)) as [N K].
    { unfold totalsStep. now apply NoDup_keys_set. }
    split; [exact N|]. intros k. rewrite K. unfold totalsStep at 1.
    rewrite In_keys_set. split.
    + intros [[->|I]|(it & I & E)].
      * right. exists x. split; [now left|reflexivity].
      * now left.
      * right. exists it. split; [now right|exact E].
    + intros [I|(it & [<-|I] & E)].
      * left. now right.
      * left. now left.
      * right. exists it. split; assumption.
Qed.

Lemma get_In o k v :
  NoDup (map fst o) -> (In (k, v) o <-> Obj.get o k = Some v).
Proof.
  induction o as [|[k' v'] o IH]; cbn; intros H.
  - split; [intros []|discriminate].
  - inversion H as [|? ? Hn Ho]; subst.
    destruct (String.eqb_spec k' k) as [->|N].
    + split.
      * intros [E|I]; [congruence|].
        exfalso. apply Hn. apply in_map_iff. now exists (k, v).
      * intros [= ->]. now left.
    + rewrite <- (IH Ho). split; [intros [E|I]; [congruence|exact I]|auto].
Qed.

Lemma insertIndexed_perm e l : Permutation (Obj.insertIndexed e l) (e :: l).
Proof.
  induction l as [|e' l IH]; cbn; [reflexivity|].
  destruct (fst e <? fst e'); [reflexivity|].
  rewrite IH. apply perm_swap.
Qed.

(** [Object.entries] lists every property once. *)
Lemma entries_perm o : Permutation (Obj.entries o) o.
Proof.
  unfold Obj.entries.
  assert (S : forall l, Permutation (fold_right Obj.insertIndexed [] l) l).
  { induction l as [|e l IH]; cbn; [reflexivity|].
    rewrite insertIndexed_perm. now constructor. }
  rewrite (S (Obj.indexed o)). unfold Obj.indexed, Obj.named.
  induction o as [|[k v] o IH]; cbn; [reflexivity|].
  destruct (Obj.arrayIndex k); cbn.
  - now constructor.
  - rewrite <- Permutation_middle. now constructor.
Qed.

Lemma insertSorted_perm {A} (cmp : A -> A -> float) x l :
  Permutation (insertSorted cmp x l) (x :: l).
Proof.
  induction l as [|y l IH]; cbn; [reflexivity|].
  destruct (0 <? cmp x y)%float; [|reflexivity].
  rewrite IH. apply perm_swap.
Qed.

(** [sort] moves the elements and keeps every one of them. *)
Lemma sort_perm {A} (cmp : A -> A -> float) l : Permutation (sort cmp l) l.
Proof.
  unfold sort. induction l as [|x l IH]; cbn; [reflexivity|].
  rewrite insertSorted_perm. now constructor.
Qed.

Lemma pieEntries_perm o : Permutation (pieEntries o) o.
Proof. unfold pieEntries. rewrite sort_perm. apply entries_perm. Qed.

Lemma totalsByCategory_fold l :
  totalsByCategory l = fold_left totalsStep l [].
Proof. reflexivity. Qed.

End CategoryRows.

(** X12.  One row for each category, when no category is the name of a member
    of [Object.prototype].  The object that the code builds is then the
    object [o] of the model, with a number under every key, and the rows of
    the category list and of the legend are the properties of
    [totalsByCategory], every one once: no category comes twice (the rows
    are keyed by category), a category has a row exactly when a record of
    the window counts under it, the row holds the total of the category, the
    empty text is never a category of a row, and the legend has the
    categories of the rows in their order.  There is no row ("No category
    totals", no chart) exactly when no record is in the window. *)
Theorem one_row_per_category
  (numberToString ToString : float -> string)
  (functionSource : string -> string) (l : list Row.t) :
  plainCategories l = true ->
  let o := totalsByCategory l in
  let rows := pieEntries o in
  WithPrototype.totalsByCategory ToString functionSource l
  = WithPrototype.ofNumbers o
  /\ NoDup (map fst rows)
  /\ (forall k, In k (map fst rows)
                <-> exists it, In it l /\ categoryOrOther it = k)
  /\ (forall k v, In (k, v) rows <-> Obj.get o k = Some v)
  /\ ~ In ""%string (map fst rows)
  /\ map fst (legend numberToString rows) = map fst rows
  /\ Permutation (Obj.keys o) (map fst rows)
  /\ (Obj.keys o = [] <-> l = [])
  /\ (rows = [] <-> l = []).
Proof.
  intros Hplain o rows. split; [now apply totalsByCategory_plain|].
  destruct (totals_fold_keys l [] (NoDup_nil _)) as [N K].
  rewrite <- totalsByCategory_fold in N, K. fold o in N, K.
  pose proof (pieEntries_perm o) as P. fold rows in P.
  pose proof (entries_perm o) as Pe.
  assert (Pk : Permutation (map fst rows) (map fst o))
    by (now apply Permutation_map).
  assert (Ik : forall k, In k (map fst rows)
                         <-> exists it, In it l /\ categoryOrOther it = k).
  { intros k. split.
    - intros I. apply (Permutation_in _ Pk) in I. apply K in I.
      destruct I as [[]|I]. exact I.
    - intros I. apply (Permutation_in _ (Permutation_sym Pk)).
      apply K. now right. }
  assert (E : forall (A : Type) (x y : list A),
             Permutation x y -> (x = [] <-> y = [])).
  { intros A x y Hp. split; intros ->.
    - now apply Permutation_nil.
    - apply Permutation_nil. now symmetry. }
  assert (O : o = [] <-> l = []).
  { split.
    - intros Ho. destruct l as [|it l']; [reflexivity|]. exfalso.
      assert (I : In (categoryOrOther it) (map fst o))
        by (apply K; right; exists it; split; [now left|reflexivity]).
      rewrite Ho in I. exact I.
    - intros ->. reflexivity. }
  split; [|split; [|split; [|split; [|split; [|split; [|split]]]]]].
  - eapply Permutation_NoDup; [symmetry; exact Pk|exact N].
  - exact Ik.
  - intros k v. rewrite <- (get_In o k v N). split; intros I.
    + eapply Permutation_in; [exact P|exact I].
    + eapply Permutation_in; [symmetry; exact P|exact I].
  - intros I. apply Ik in I as (it & _ & E0).
    unfold categoryOrOther in E0.
    destruct (Row.category it) as [c|]; [|discriminate].
    destruct c; cbn in E0; discriminate.
  - unfold legend. rewrite map_map. reflexivity.
  - unfold Obj.keys. rewrite Pk. now apply Permutation_map.
  - rewrite <- O. unfold Obj.keys. split.
    + intros H. apply map_eq_nil in H. now apply (E _ _ _ Pe).
    + intros H. rewrite H. reflexivity.
  - rewrite <- O. now apply E.
Qed.

Lemma one_row_per_category_witness :
  let l := [Row.make 3 (VNumber 10%float) (Some "Food"%string) None None;
            Row.make 2 (VNumber 5%float) (Some "Rent"%string) None None;
            Row.make 1 (VNumber 2.5%float) (Some "Food"%string) None None] in
  plainCategories l = true
  /\ NoDup (map fst (pieEntries (totalsByCategory l)))
  /\ map fst (pieEntries (totalsByCategory l))
     = ["Food"%string; "Rent"%string].
Proof.
  intros l.
  assert (P : plainCategories l = true) by reflexivity.
  split; [exact P|]. split; [|reflexivity].
  apply (proj1 (proj2 (one_row_per_category
                         (fun _ => ""%string) (fun _ => ""%string)
                         (fun _ => ""%string) l P))).
Defined.

(* ================================================================== *)
(** * Sums of amounts above zero, and the chart *)
(* ================================================================== *)

Section Positive.

Lemma shr_1_half mrs : 0 <= shr_m mrs -> shr_m (shr_1 mrs) = shr_m mrs / 2.
Proof.
  destruct mrs as [m r s]. cbn [shr_m]. intros H. unfold shr_1.
  destruct m as [|[p|p|]|p]; cbn [shr_m]; try lia; try reflexivity;
    Z.to_euclidean_division_equations; lia.
Qed.

(** Shifting right by [p] bits leaves what is above [2 ^ p]. *)
Lemma shr_iter_above p : forall mrs k,
  0 <= k -> k * 2 ^ Zpos p <= shr_m mrs ->
  k <= shr_m (iter_pos shr_1 p mrs).
Proof.
  induction p as [p IH|p IH|]; intros mrs k Hk H; cbn [iter_pos].
  - assert (P : 0 < 2 ^ Zpos p) by (apply Z.pow_pos_nonneg; lia).
    assert (Q : 2 ^ Z.pos p~1 = 2 * (2 ^ Z.pos p * 2 ^ Z.pos p)).
    { replace (Z.pos p~1) with (Z.pos p + Z.pos p + 1) by lia.
      rewrite !Z.pow_add_r, Z.pow_1_r by lia. lia. }
    rewrite Q in H. set (q := 2 ^ Z.pos p) in *.
    assert (K : 0 <= k * q) by (apply Z.mul_nonneg_nonneg; lia).
    assert (M : 0 <= shr_m mrs) by nia.
    apply IH; [exact Hk|]. fold q. apply IH; [exact K|]. fold q.
    rewrite shr_1_half by exact M.
    Z.to_euclidean_division_equations; nia.
  - assert (P : 0 < 2 ^ Zpos p) by (apply Z.pow_pos_nonneg; lia).
    assert (Q : 2 ^ Z.pos p~0 = 2 ^ Z.pos p * 2 ^ Z.pos p).
    { replace (Z.pos p~0) with (Z.pos p + Z.pos p) by lia.
      rewrite Z.pow_add_r by lia. lia. }
    rewrite Q in H. set (q := 2 ^ Z.pos p) in *.
    assert (K : 0 <= k * q) by (apply Z.mul_nonneg_nonneg; lia).
    apply IH; [exact Hk|]. fold q. apply IH; [exact K|]. fold q. nia.
  - change (2 ^ 1) with 2 in H. rewrite shr_1_half by lia.
    Z.to_euclidean_division_equations; lia.
Qed.

Lemma shr_fexp_pos m e l :
  0 < m -> -1074 <= e ->
  0 < shr_m (fst (shr_fexp prec emax m e l))
  /\ -1074 <= snd (shr_fexp prec emax m e l).
Proof.
  intros Hm He. unfold shr_fexp, shr.
  assert (M : shr_m (shr_record_of_loc m l) = m)
    by (destruct l as [|[]]; reflexivity).
  destruct m as [|p|p]; try lia.
  cbn [Zdigits2]. rewrite digits2_pos_log2.
  unfold fexp, SpecFloat.emin, prec, emax.
  destruct (Z.max (Z.log2 (Z.pos p) + 1 + e - 53) (3 - 1024 - 53) - e)
    as [|n|n] eqn:N; cbn [fst snd]; try (rewrite M; lia).
  split; [|lia].
  enough (1 <= shr_m (iter_pos shr_1 n (shr_record_of_loc (Z.pos p) l)))
    by lia.
  apply shr_iter_above; [lia|]. rewrite M, <- N.
  replace (Z.max _ _ - e) with (Z.log2 (Z.pos p) - 52) by lia.
  pose proof (Z.log2_spec (Z.pos p) ltac:(lia)) as [L _].
  assert (2 ^ (Z.log2 (Z.pos p) - 52) <= 2 ^ Z.log2 (Z.pos p))
    by (apply Z.pow_le_mono_r; lia).
  lia.
Qed.

Lemma round_nearest_even_pos m l : 0 < m -> 0 < round_nearest_even m l.
Proof.
  intros H. unfold round_nearest_even.
  destruct l as [|[]]; try lia. destruct (Z.even m); lia.
Qed.

(** Rounding a mantissa that is not zero at an exponent that a double can
    have gives no zero. *)
Lemma binary_round_aux_pos sx mx ex lx :
  0 < mx -> -1074 <= ex ->
  binary_round_aux prec emax sx mx ex lx = S754_infinity sx
  \/ exists m e, binary_round_aux prec emax sx mx ex lx = S754_finite sx m e.
Proof.
  intros Hm He. unfold binary_round_aux.
  destruct (shr_fexp_pos mx ex lx Hm He) as [H1 E1].
  destruct (shr_fexp prec emax mx ex lx) as [mrs' e'].
  cbn [fst snd] in H1, E1.
  destruct (shr_fexp_pos
              (round_nearest_even (shr_m mrs') (loc_of_shr_record mrs'))
              e' loc_Exact (round_nearest_even_pos _ _ H1) E1) as [H2 _].
  destruct (shr_fexp prec emax _ e' loc_Exact) as [mrs'' e''].
  cbn [fst] in H2.
  destruct (shr_m mrs'') as [|p|p]; try lia.
  destruct (e'' <=? emax - prec); eauto.
Qed.

Lemma shl_align_exponent m e e' :
  -1074 <= e -> -1074 <= e' -> -1074 <= snd (shl_align m e e').
Proof.
  intros He He'. unfold shl_align. destruct (e' - e); cbn; lia.
Qed.

Lemma binary_normalize_nonzero m e :
  m <> 0 -> -1074 <= e ->
  binary_normalize prec emax m e false = S754_infinity (m <? 0)
  \/ exists m' e',
       binary_normalize prec emax m e false = S754_finite (m <? 0) m' e'.
Proof.
  intros Hm He. unfold binary_normalize, binary_round.
  destruct m as [|p|p]; [congruence| |].
  - pose proof (shl_align_exponent p e
                  (fexp prec emax (Z.pos (digits2_pos p) + e)) He
                  ltac:(unfold fexp, SpecFloat.emin, prec, emax; lia)) as S.
    destruct (shl_align p e _) as [mz ez]. cbn [snd] in S.
    apply binary_round_aux_pos; [lia|exact S].
  - pose proof (shl_align_exponent p e
                  (fexp prec emax (Z.pos (digits2_pos p) + e)) He
                  ltac:(unfold fexp, SpecFloat.emin, prec, emax; lia)) as S.
    destruct (shl_align p e _) as [mz ez]. cbn [snd] in S.
    apply binary_round_aux_pos; [lia|exact S].
Qed.

Lemma finite_exponent x s m e :
  Prim2SF x = S754_finite s m e -> -1074 <= e.
Proof. intros E. pose proof (finite_canonical x s m e E). lia. Qed.

(** A double above zero: [+Infinity] or a mantissa and an exponent with
    the sign of the positive numbers. *)
Lemma isPositive_cases x :
  isPositive x = true <->
  Prim2SF x = S754_infinity false
  \/ exists m e, Prim2SF x = S754_finite false m e.
Proof.
  unfold isPositive. rewrite ltb_spec.
  change (Prim2SF 0) with (S754_zero false). unfold SFltb.
  destruct (Prim2SF x) as [s|s| |s m e]; cbn.
  - split; [discriminate|]. intros [?|(? & ? & ?)]; discriminate.
  - destruct s; split; try discriminate; auto.
    intros [?|(? & ? & ?)]; discriminate.
  - split; [discriminate|]. intros [?|(? & ? & ?)]; discriminate.
  - destruct s; split; try discriminate; eauto.
    intros [?|(? & ? & ?)]; discriminate.
Qed.

(** A double that is not negative plus a double above zero is above
    zero: no sum of such amounts comes back to zero. *)
Lemma add_positive a n :
  (0 <=? a)%float = true -> isPositive n = true ->
  isPositive (a + n)%float = true.
Proof.
  intros Ha Hn. apply nonneg_spec in Ha. apply isPositive_cases in Hn.
  apply isPositive_cases. rewrite add_spec. unfold SF64add, SFadd.
  destruct Ha as [[sa Ea]|[Ea|(ma & ea & Ea)]];
    destruct Hn as [En|(mn & en & En)]; rewrite Ea, En; eauto.
  pose proof (finite_exponent _ _ _ _ Ea) as Ba.
  pose proof (finite_exponent _ _ _ _ En) as Bn.
  cbn [cond_Zopp].
  destruct (binary_normalize_nonzero
              (Z.pos (fst (shl_align ma ea (Z.min ea en)))
               + Z.pos (fst (shl_align mn en (Z.min ea en))))
              (Z.min ea en) ltac:(lia) ltac:(lia)) as [E|(m & e & E)].
  - left. rewrite E. reflexivity.
  - right. rewrite E. eauto.
Qed.

End Positive.

Section Chart.

Lemma isPositive_nonneg x : isPositive x = true -> (0 <=? x)%float = true.
Proof.
  intros H. apply isPositive_cases in H. apply nonneg_spec.
  destruct H as [E|(m & e & E)]; eauto.
Qed.

Lemma isPositive_not_zero x : isPositive x = true -> (x =? 0)%float = false.
Proof.
  intros H. apply isPositive_cases in H. rewrite eqb_spec.
  change (Prim2SF 0) with (S754_zero false). unfold SFeqb.
  destruct H as [E|(m & e & E)]; rewrite E; reflexivity.
Qed.

Lemma isPositive_truthy x : isPositive x = true -> JsNumber.truthy x = true.
Proof.
  intros H. unfold JsNumber.truthy.
  pose proof (nonneg_not_nan x (isPositive_nonneg x H)) as N.
  assert (Z : is_zero x = false).
  { apply not_true_is_false. intros Z. apply is_zero_spec in Z as [s E].
    apply isPositive_cases in H. destruct H as [E'|(m & e & E')]; congruence. }
  now rewrite N, Z.
Qed.

Lemma sum_positive {A} (f : A -> float) l : forall s,
  (0 <=? s)%float = true ->
  forallb (fun e => isPositive (f e)) l = true ->
  l <> [] ->
  isPositive (fold_left (fun s e => (s + f e)%float) l s) = true.
Proof.
  induction l as [|e l IH]; intros s Hs H Hl; [congruence|].
  cbn in H |- *. apply andb_true_iff in H as [He H].
  pose proof (add_positive s (f e) Hs He) as P.
  destruct l as [|e' l']; [exact P|].
  apply IH; [now apply isPositive_nonneg|exact H|discriminate].
Qed.

Lemma filter_nil_forallb {A} (p : A -> bool) l :
  List.filter p l = [] <-> forallb (fun x => negb (p x)) l = true.
Proof.
  induction l as [|x l IH]; cbn; [tauto|].
  destruct (p x); cbn; [split; discriminate|exact IH].
Qed.

End Chart.

(** [SimplePieChart] on the totals above zero. *)
Lemma pie_chart_shown (data : JsObject) :
  let shown := List.filter (fun e => isPositive (snd e)) (Obj.entries data) in
  (SimplePieChart data = None <-> shown = [])
  /\ (forall slices,
        SimplePieChart data = Some slices ->
        map fst slices = map fst shown
        /\ isPositive (sumOf (map snd shown)) = true).
Proof.
  intros shown.
  assert (T : fold_left (fun s e => (s + snd e)%float) shown zero
              = sumOf (map snd shown)) by apply fold_left_snd.
  assert (C : shown = [] \/ isPositive (sumOf (map snd shown)) = true).
  { destruct shown as [|e l] eqn:E; [now left|right].
    rewrite <- T. apply sum_positive; [reflexivity| |discriminate].
    rewrite <- E. unfold shown. apply forallb_filter_self. }
  assert (S : SimplePieChart data
              = if (sumOf (map snd shown) =? 0)%float then None
                else Some (map (fun e =>
                                  (fst e,
                                   (snd e / sumOf (map snd shown)
                                    * Math_PI * 2)%float)) shown))
    by (rewrite <- T; reflexivity).
  assert (N : SimplePieChart data = None <-> shown = []).
  { rewrite S. destruct C as [E|P].
    - rewrite E. split; reflexivity.
    - rewrite (isPositive_not_zero _ P). split; [discriminate|].
      intros E. rewrite E in P. discriminate. }
  split; [exact N|].
  intros slices H.
  destruct C as [E|P]; [apply N in E; congruence|].
  split; [|exact P].
  revert H. rewrite S, (isPositive_not_zero _ P). intros [= <-].
  rewrite map_map. reflexivity.
Qed.

(** X13.  When the chart is drawn.  [SimplePieChart] draws nothing exactly
    when no total is above zero; the guard on a total of zero lets nothing
    else through, since totals above zero never add up to zero.  When it
    draws, there is one slice for each total above zero, in the order of
    [Object.entries], and the total that the angles are divided by is above
    zero. *)
Theorem pie_chart_drawn_iff (data : JsObject) :
  let shown := List.filter (fun e => isPositive (snd e)) (Obj.entries data) in
  (SimplePieChart data = None <->
   forallb (fun e => negb (isPositive (snd e))) (Obj.entries data) = true)
  /\ (SimplePieChart data = None <-> shown = [])
  /\ (forall slices,
        SimplePieChart data = Some slices ->
        map fst slices = map fst shown
        /\ isPositive (sumOf (map snd shown)) = true).
Proof.
  intros shown. destruct (pie_chart_shown data) as [N F]. fold shown in N, F.
  split; [|split; [exact N|exact F]].
  rewrite N. apply filter_nil_forallb.
Qed.

Section ValidRows.

Lemma blank_empty : blank "" = true.
Proof. reflexivity. Qed.

(** What a row that [addExpense] wrote counts for: its amount, above
    zero, under its category. *)
Lemma validRow_counts it :
  validRow it = true ->
  isPositive (amountOrZero it) = true
  /\ exists c, Row.category it = Some c /\ c <> ""%string
               /\ categoryOrOther it = c.
Proof.
  unfold validRow. rewrite !andb_true_iff. intros [[[Va Vc] _] _].
  split.
  - unfold amountOrZero. destruct (Row.amount it) as [| |x|];
      try discriminate Va.
    cbn [parseFloatValue]. unfold JsNumber.parseFloatOfNumber.
    pose proof (isPositive_truthy x Va) as T. unfold JsNumber.truthy in T.
    apply negb_true_iff, orb_false_iff in T as [N Z].
    rewrite Z. unfold JsNumber.isNaN. now rewrite N.
  - unfold categoryOrOther.
    destruct (Row.category it) as [c|]; [|discriminate Vc].
    apply trimmed_spec in Vc as [B _].
    exists c. destruct c; [discriminate B|]. repeat split. discriminate.
Qed.

Lemma valid_nonNegativeAmounts l :
  forallb validRow l = true -> nonNegativeAmounts l.
Proof.
  rewrite forallb_forall. intros H. apply Forall_forall. intros it I.
  apply isPositive_nonneg. now apply validRow_counts, H.
Qed.

Lemma set_values (P : float -> Prop) o k v :
  Forall (fun e => P (snd e)) o -> P v ->
  Forall (fun e => P (snd e)) (Obj.set o k v).
Proof.
  induction 1 as [|[k' v'] o Hv Ho IH]; intros Pv; cbn.
  - constructor; [exact Pv|constructor].
  - destruct (String.eqb k' k); constructor; cbn; auto.
Qed.

Lemma get_value (P : float -> Prop) o k v :
  Forall (fun e => P (snd e)) o -> Obj.get o k = Some v -> P v.
Proof.
  induction 1 as [|[k' v'] o Hv _ IH]; cbn; [discriminate|].
  destruct (String.eqb k' k); [now intros [= <-]|exact IH].
Qed.

Lemma propOrZero_nonneg acc k :
  Forall (fun e => isPositive (snd e) = true) acc ->
  (0 <=? propOrZero acc k)%float = true.
Proof.
  intros H. unfold propOrZero.
  destruct (Obj.get acc k) as [v|] eqn:G; [|reflexivity].
  pose proof (get_value (fun v => isPositive v = true) _ _ _ H G) as P.
  cbn in P. rewrite (isPositive_truthy v P). now apply isPositive_nonneg.
Qed.

(** The totals of rows with amounts above zero are above zero. *)
Lemma totals_fold_positive l : forall acc,
  forallb validRow l = true ->
  Forall (fun e => isPositive (snd e) = true) acc ->
  Forall (fun e => isPositive (snd e) = true) (fold_left totalsStep l acc).
Proof.
  induction l as [|it l IH]; intros acc V H; [exact H|].
  cbn in V |- *. apply andb_true_iff in V as [Vi V].
  apply IH; [exact V|]. unfold totalsStep.
  apply (set_values (fun v => isPositive v = true)); [exact H|].
  apply add_positive; [now apply propOrZero_nonneg|].
  now apply validRow_counts.
Qed.

Lemma sameNumber_positive x y :
  sameNumber x y -> isPositive x = true -> x = y.
Proof.
  intros [E|[Z _]] P; [exact E|]. exfalso.
  pose proof (isPositive_truthy x P) as T. unfold JsNumber.truthy in T.
  rewrite Z, orb_true_r in T. discriminate.
Qed.

End ValidRows.

(** X14.  Selecting a category shows its total.  For records as [addExpense]
    writes them, none under the name of a member of [Object.prototype] (the
    object of the code is then the object of the model), and a category
    other than the text "all": the list shown under
    the category filter is the list of the records counted under that category
    in [totalsByCategory]; when it has a record the total of the category is
    the visible total of that list, the same double, and is above zero; when
    it has none the category has no row.  A category named "all" cannot be
    selected: that value of the filter shows every record. *)
Theorem selected_category_total
  (ToString : float -> string) (functionSource : string -> string)
  (l : list Row.t) :
  forallb validRow l = true ->
  plainCategories l = true ->
  WithPrototype.totalsByCategory ToString functionSource l
  = WithPrototype.ofNumbers (totalsByCategory l)
  /\ (forall c,
     c <> "all"%string ->
     finalFiltered l c = List.filter (hasKey c) l
     /\ (finalFiltered l c = [] -> Obj.get (totalsByCategory l) c = None)
     /\ (finalFiltered l c <> [] ->
         Obj.get (totalsByCategory l) c
         = Some (visibleTotal (finalFiltered l c))
         /\ isPositive (visibleTotal (finalFiltered l c)) = true))
  /\ finalFiltered l "all" = l.
Proof.
  intros V Hplain. split; [now apply totalsByCategory_plain|].
  split; [|apply finalFiltered_all].
  intros c Hc.
  assert (F : finalFiltered l c = List.filter (hasKey c) l).
  { unfold finalFiltered. apply String.eqb_neq in Hc. rewrite Hc.
    apply filter_ext_in. intros it I.
    rewrite forallb_forall in V.
    destruct (validRow_counts it (V it I)) as (_ & k & Ek & _ & Ec).
    unfold hasKey. now rewrite Ec, Ek. }
  split; [exact F|]. rewrite F.
  destruct (totalsByCategory_get l c
              (or_intror (valid_nonNegativeAmounts l V))) as [G0 G1].
  split.
  - intros E. apply G0. now apply filter_nil_existsb.
  - intros N.
    destruct (existsb (hasKey c) l) eqn:X;
      [|apply filter_nil_existsb in X; contradiction].
    destruct (G1 eq_refl) as (v & G & S).
    pose proof (totals_fold_positive l [] V (Forall_nil _)) as P.
    rewrite <- totalsByCategory_fold in P.
    pose proof (get_value (fun v => isPositive v = true) _ _ _ P G) as Pv.
    cbn in Pv.
    rewrite <- (sameNumber_positive _ _ S Pv). split; assumption.
Qed.

Lemma selected_category_total_witness :
  let l := [Row.make 3 (VNumber 10%float) (Some "Food"%string) None None;
            Row.make 2 (VNumber 5%float) (Some "all"%string) None None;
            Row.make 1 (VNumber 2.5%float) (Some "Food"%string) None None] in
  (forallb validRow l = true /\ plainCategories l = true)
  /\ Obj.get (totalsByCategory l) "Food"
     = Some (visibleTotal (finalFiltered l "Food"))
  /\ finalFiltered l "all" = l.
Proof.
  intros l.
  assert (V : forallb validRow l = true) by reflexivity.
  assert (P : plainCategories l = true) by reflexivity.
  split; [split; [exact V|exact P]|].
  destruct (selected_category_total
              (fun _ => ""%string) (fun _ => ""%string) l V P) as [_ [H A]].
  split; [|exact A].
  apply (proj2 (proj2 (H "Food"%string ltac:(discriminate))));
    discriminate.
Defined.

(** X15.  The chart of a window of records as [addExpense] writes them, none
    under the name of a member of [Object.prototype] (the object of the code
    is then the object of the model).  Every
    total is above zero; so when the window has a record the chart is drawn,
    with one slice for each category of the list, and the total the legend
    divides by is above zero: no share is the "0.0" kept for a total of zero. *)
Theorem chart_slice_per_category
  (numberToString ToString : float -> string)
  (functionSource : string -> string) (l : list Row.t) :
  forallb validRow l = true ->
  plainCategories l = true ->
  l <> [] ->
  let o := totalsByCategory l in
  WithPrototype.totalsByCategory ToString functionSource l
  = WithPrototype.ofNumbers o
  /\ (forall k v, Obj.get o k = Some v -> isPositive v = true)
  /\ (exists slices,
        SimplePieChart o = Some slices /\ map fst slices = Obj.keys o)
  /\ (forall e,
        In e (pieEntries o) ->
        pct numberToString (pieEntries o) (snd e)
        = JsNumber.toFixed1 numberToString
            ((snd e / sumOf (map snd (pieEntries o))) * 100)%float).
Proof.
  intros V Hplain Hl o. split; [now apply totalsByCategory_plain|].
  pose proof (totals_fold_positive l [] V (Forall_nil _)) as P.
  rewrite <- totalsByCategory_fold in P. fold o in P.
  assert (Pe : forall es, Permutation es o ->
                 forallb (fun e => isPositive (snd e)) es = true).
  { intros es Hp. apply forallb_forall. intros e I.
    rewrite Forall_forall in P. apply P.
    eapply Permutation_in; eassumption. }
  assert (No : o <> []).
  { destruct l as [|it l']; [congruence|]. intros E.
    destruct (totals_fold_keys (it :: l') [] (NoDup_nil _)) as [_ K].
    rewrite <- totalsByCategory_fold in K.
    assert (I : In (categoryOrOther it) (map fst o))
      by (apply K; right; exists it; split; [now left|reflexivity]).
    rewrite E in I. exact I. }
  split; [|split].
  - intros k v G. exact (get_value (fun v => isPositive v = true) _ _ _ P G).
  - destruct (pie_chart_shown o) as (S & F).
    rewrite (filter_keeps_all _ _ (Pe _ (entries_perm o))) in S, F.
    assert (C : SimplePieChart o <> None).
    { intros C. apply S in C. apply No.
      apply Permutation_nil. rewrite <- C. apply entries_perm. }
    destruct (SimplePieChart o) as [slices|]; [|congruence].
    exists slices. split; [reflexivity|]. now apply F.
  - intros e I.
    assert (T : isPositive
                  (fold_left (fun s e => (s + snd e)%float) (pieEntries o)
                     zero) = true).
    { apply sum_positive; [reflexivity|apply Pe, pieEntries_perm|].
      intros E. rewrite E in I. exact I. }
    unfold pct. rewrite (isPositive_truthy _ T), fold_left_snd.
    reflexivity.
Qed.

Lemma chart_slice_per_category_witness :
  let l := [Row.make 3 (VNumber 10%float) (Some "Food"%string) None None;
            Row.make 2 (VNumber 5%float) (Some "Rent"%string) None None;
            Row.make 1 (VNumber 2.5%float) (Some "Food"%string) None None] in
  (forallb validRow l = true /\ plainCategories l = true /\ l <> [])
  /\ exists slices,
       SimplePieChart (totalsByCategory l) = Some slices
       /\ map fst slices = Obj.keys (totalsByCategory l).
Proof.
  intros l.
  assert (V : forallb validRow l = true) by reflexivity.
  assert (P : plainCategories l = true) by reflexivity.
  assert (N : l <> []) by discriminate.
  split; [split; [exact V|split; [exact P|exact N]]|].
  apply (proj1 (proj2 (proj2
           (chart_slice_per_category
              (fun _ => ""%string) (fun _ => ""%string) (fun _ => ""%string)
              l V P N)))).
Defined.

(* ================================================================== *)
(** * The order of the category rows *)
(* ================================================================== *)

Section Order.

Lemma finite_bounds x s m e :
  Prim2SF x = S754_finite s m e ->
  -1074 <= e <= 971 /\ Z.pos m < 2 ^ 53
  /\ (e = -1074 \/ 2 ^ 52 <= Z.pos m).
Proof.
  intros E. pose proof (finite_canonical x s m e E) as C.
  pose proof (Prim2SF_valid x) as V. rewrite E in V.
  cbn [SpecFloat.valid_binary] in V. unfold bounded in V.
  apply andb_prop in V as [_ B]. apply Z.leb_le in B.
  unfold emax, prec in B.
  pose proof (Z.log2_spec (Z.pos m) ltac:(lia)) as [L1 L2].
  split; [lia|]. split.
  - assert (Z.log2 (Z.pos m) <= 52) by lia.
    assert (2 ^ (Z.log2 (Z.pos m) + 1) <= 2 ^ 53)
      by (apply Z.pow_le_mono_r; lia).
    lia.
  - destruct (Z.eq_dec e (-1074)) as [|N]; [now left|right].
    assert (Z.log2 (Z.pos m) = 52) by lia.
    replace 52 with (Z.log2 (Z.pos m)) by lia. exact L1.
Qed.

Lemma finite_key_bound x s m e :
  Prim2SF x = S754_finite s m e ->
  0 < Z.pos m * 2 ^ (e + 1074) < 2 ^ 2100.
Proof.
  intros E. destruct (finite_bounds x s m e E) as ([B1 B2] & M & _).
  assert (P : 0 < 2 ^ (e + 1074)) by (apply Z.pow_pos_nonneg; lia).
  split; [lia|].
  assert (2 ^ (e + 1074) <= 2 ^ 2045) by (apply Z.pow_le_mono_r; lia).
  assert (2 ^ 53 * 2 ^ 2045 < 2 ^ 2100).
  { rewrite <- Z.pow_add_r by lia. apply Z.pow_lt_mono_r; lia. }
  nia.
Qed.

(** Doubles of the same sign compare as their exponents, then their
    mantissas. *)
Lemma compare_magnitude x y sx mx ex sy my ey :
  Prim2SF x = S754_finite sx mx ex -> Prim2SF y = S754_finite sy my ey ->
  match ex ?= ey with
  | Eq => Pos.compare_cont Eq mx my
  | Lt => Lt
  | Gt => Gt
  end = (Z.pos mx * 2 ^ (ex + 1074) ?= Z.pos my * 2 ^ (ey + 1074)).
Proof.
  intros Ex Ey.
  destruct (finite_bounds x sx mx ex Ex) as ([Bx _] & Mx & Nx).
  destruct (finite_bounds y sy my ey Ey) as ([By _] & My & Ny).
  assert (S : forall a ma b mb,
             -1074 <= a -> a < b -> Z.pos ma < 2 ^ 53 ->
             2 ^ 52 <= Z.pos mb ->
             Z.pos ma * 2 ^ (a + 1074) < Z.pos mb * 2 ^ (b + 1074)).
  { intros a ma b mb Ha Hab Hma Hmb.
    replace (b + 1074) with ((a + 1074) + (b - a)) by lia.
    rewrite (Z.pow_add_r 2 (a + 1074) (b - a)) by lia.
    assert (0 < 2 ^ (a + 1074)) by (apply Z.pow_pos_nonneg; lia).
    assert (2 ^ 1 <= 2 ^ (b - a)) by (apply Z.pow_le_mono_r; lia).
    change (2 ^ 1) with 2 in *. change (2 ^ 53) with (2 * 2 ^ 52) in Hma.
    set (A := 2 ^ (a + 1074)) in *. set (B := 2 ^ (b - a)) in *.
    set (K := 2 ^ 52) in *.
    assert (H1 : Z.pos ma * A < 2 * K * A)
      by (apply Z.mul_lt_mono_pos_r; lia).
    assert (H2 : K * A <= Z.pos mb * A)
      by (apply Z.mul_le_mono_nonneg_r; lia).
    assert (H3 : Z.pos mb * A * 2 <= Z.pos mb * A * B)
      by (apply Z.mul_le_mono_nonneg_l; lia).
    lia. }
  destruct (Z.compare_spec ex ey) as [->|L|G].
  - change (Pos.compare_cont Eq mx my) with (Z.pos mx ?= Z.pos my).
    assert (0 < 2 ^ (ey + 1074)) by (apply Z.pow_pos_nonneg; lia).
    symmetry. destruct (Z.compare_spec (Z.pos mx) (Z.pos my)) as [->|L|G].
    + apply Z.compare_refl.
    + apply Z.compare_lt_iff. now apply Z.mul_lt_mono_pos_r.
    + apply Z.compare_gt_iff. now apply Z.mul_lt_mono_pos_r.
  - symmetry. apply Z.compare_lt_iff. apply S; lia.
  - symmetry. apply Z.compare_gt_iff. apply S; lia.
Qed.

Lemma SFcompare_key x y :
  is_nan x = false -> is_nan y = false ->
  SFcompare (Prim2SF x) (Prim2SF y) = Some (orderKey x ?= orderKey y).
Proof.
  intros Nx Ny. unfold orderKey.
  assert (Hx : Prim2SF x <> S754_nan)
    by (intros E; apply is_nan_spec in E; congruence).
  assert (Hy : Prim2SF y <> S754_nan)
    by (intros E; apply is_nan_spec in E; congruence).
  assert (I : 0 < 2 ^ 2100) by (apply Z.pow_pos_nonneg; lia).
  destruct (Prim2SF x) as [sx|sx| |sx mx ex] eqn:Ex; [| |congruence|];
    destruct (Prim2SF y) as [sy|sy| |sy my ey] eqn:Ey; try congruence;
    cbn [SFcompare]; f_equal; symmetry;
    try pose proof (finite_key_bound x _ _ _ Ex) as Kx;
    try pose proof (finite_key_bound y _ _ _ Ey) as Ky;
    try pose proof (compare_magnitude x y _ _ _ _ _ _ Ex Ey) as C;
    try destruct sx; try destruct sy;
    try apply Z.compare_refl;
    try (apply Z.compare_lt_iff; lia);
    try (apply Z.compare_gt_iff; lia).
  - replace (match ex ?= ey with
             | Eq => CompOpp (Pos.compare_cont Eq mx my)
             | Lt => Gt
             | Gt => Lt
             end)
      with (CompOpp (match ex ?= ey with
                     | Eq => Pos.compare_cont Eq mx my
                     | Lt => Lt
                     | Gt => Gt
                     end))
      by (destruct (ex ?= ey); reflexivity).
    rewrite C, <- Z.compare_antisym, <- Z.compare_opp. f_equal; lia.
  - now rewrite C.
Qed.

End Order.

Section Difference.

Lemma ltb_key x y :
  is_nan x = false -> is_nan y = false ->
  (x <? y)%float = (orderKey x <? orderKey y).
Proof.
  intros Nx Ny. rewrite ltb_spec. unfold SFltb.
  rewrite (SFcompare_key x y Nx Ny). unfold Z.ltb.
  destruct (orderKey x ?= orderKey y); reflexivity.
Qed.

Lemma iter_xO m d : Z.pos (Pos.iter xO m d) = Z.pos m * 2 ^ Z.pos d.
Proof.
  induction d as [|d IH] using Pos.peano_ind.
  - cbn [Pos.iter]. lia.
  - rewrite Pos.iter_succ, Pos2Z.inj_xO, IH, Pos2Z.inj_succ,
      Z.pow_succ_r by lia.
    lia.
Qed.

Lemma shl_align_value m e ez :
  ez <= e -> Z.pos (fst (shl_align m e ez)) = Z.pos m * 2 ^ (e - ez).
Proof.
  intros H. unfold shl_align.
  destruct (ez - e) as [|d|d] eqn:D; cbn [fst]; try lia.
  - replace (e - ez) with 0 by lia. lia.
  - rewrite iter_xO. replace (e - ez) with (Z.pos d) by lia. reflexivity.
Qed.

Lemma isPositive_false_neg x :
  (exists s, Prim2SF x = S754_zero s) \/ Prim2SF x = S754_nan
  \/ Prim2SF x = S754_infinity true
  \/ (exists m e, Prim2SF x = S754_finite true m e) ->
  isPositive x = false.
Proof.
  intros H. apply not_true_is_false. intros P.
  apply isPositive_cases in P.
  destruct H as [[s E]|[E|[E|(m & e & E)]]];
    destruct P as [E'|(m' & e' & E')]; congruence.
Qed.

(** The difference of two doubles is above zero exactly when the first
    is the larger one. *)
Lemma sub_positive_key x y :
  is_nan x = false -> is_nan y = false ->
  isPositive (y - x)%float = (orderKey x <? orderKey y).
Proof.
  intros Nx Ny.
  assert (Hx : Prim2SF x <> S754_nan)
    by (intros E; apply is_nan_spec in E; congruence).
  assert (Hy : Prim2SF y <> S754_nan)
    by (intros E; apply is_nan_spec in E; congruence).
  assert (I : 0 < 2 ^ 2100) by (apply Z.pow_pos_nonneg; lia).
  assert (T : forall z, Prim2SF z = S754_infinity false
                        \/ (exists m e, Prim2SF z = S754_finite false m e) ->
                        isPositive z = true)
    by (intros z; apply isPositive_cases).
  pose proof (sub_spec y x) as S. unfold SF64sub, SFsub in S.
  unfold orderKey.
  destruct (Prim2SF y) as [sy|sy| |sy my ey] eqn:Ey; [| |congruence|];
    destruct (Prim2SF x) as [sx|sx| |sx mx ex] eqn:Ex; try congruence;
    try pose proof (finite_key_bound x _ _ _ Ex) as Kx;
    try pose proof (finite_key_bound y _ _ _ Ey) as Ky;
    cbv beta iota.
  9: {
    pose proof (finite_exponent _ _ _ _ Ex) as Bx.
    pose proof (finite_exponent _ _ _ _ Ey) as By.
    cbv zeta in S.
    set (ez := Z.min ey ex) in *.
    set (D := cond_Zopp sy (Z.pos (fst (shl_align my ey ez)))
              - cond_Zopp sx (Z.pos (fst (shl_align mx ex ez)))) in *.
    assert (Hz : ez <= ey /\ ez <= ex /\ -1074 <= ez) by (unfold ez; lia).
    assert (P : 0 < 2 ^ (ez + 1074)) by (apply Z.pow_pos_nonneg; lia).
    assert (V : D * 2 ^ (ez + 1074)
                = (if sy then Z.neg my else Z.pos my) * 2 ^ (ey + 1074)
                  - (if sx then Z.neg mx else Z.pos mx) * 2 ^ (ex + 1074)).
    { unfold D. rewrite !shl_align_value by lia.
      replace (ey + 1074) with ((ey - ez) + (ez + 1074)) by lia.
      replace (ex + 1074) with ((ex - ez) + (ez + 1074)) by lia.
      rewrite (Z.pow_add_r 2 (ey - ez) (ez + 1074)),
        (Z.pow_add_r 2 (ex - ez) (ez + 1074)) by lia.
      destruct sx, sy; cbn [cond_Zopp Z.opp]; rewrite <- ?Pos2Z.opp_pos;
        ring. }
    destruct (Z.eq_dec D 0) as [D0|Dn].
    - rewrite D0 in S, V. cbn [binary_normalize] in S.
      rewrite isPositive_false_neg by (left; eauto).
      symmetry. apply Z.ltb_ge. lia.
    - destruct (binary_normalize_nonzero D ez Dn ltac:(lia))
        as [E|(m & e & E)]; rewrite E in S;
        destruct (Z.ltb_spec D 0) as [Dneg|Dpos].
      + pose proof (Z.mul_neg_pos _ _ Dneg P).
        rewrite isPositive_false_neg by auto.
        symmetry. apply Z.ltb_ge. lia.
      + pose proof (Z.mul_pos_pos D _ ltac:(lia) P).
        rewrite T by auto. symmetry. apply Z.ltb_lt. lia.
      + pose proof (Z.mul_neg_pos _ _ Dneg P).
        rewrite isPositive_false_neg by eauto 6.
        symmetry. apply Z.ltb_ge. lia.
      + pose proof (Z.mul_pos_pos D _ ltac:(lia) P).
        rewrite T by eauto. symmetry. apply Z.ltb_lt. lia. }
  all: try destruct sy; try destruct sx; cbn in S;
    first [ rewrite T by eauto; symmetry; apply Z.ltb_lt; lia
          | rewrite isPositive_false_neg by eauto 6;
            symmetry; apply Z.ltb_ge; lia ].
Qed.

End Difference.

Section SortedRows.

Lemma insertSorted_head (x : string * float) l :
  match insertSorted (fun a b => (snd b - snd a)%float) x l with
  | [] => False
  | h :: _ => h = x \/ exists tl, l = h :: tl
  end.
Proof.
  destruct l as [|y tl]; cbn [insertSorted]; [now left|].
  destruct (0 <? snd y - snd x)%float; [right; eauto|now left].
Qed.

Lemma insertSorted_descending x l :
  is_nan (snd x) = false ->
  forallb (fun e => negb (is_nan (snd e))) l = true ->
  descending l = true ->
  descending (insertSorted (fun a b => (snd b - snd a)%float) x l) = true.
Proof.
  intros Nx. induction l as [|y tl IH]; intros Nl D; [reflexivity|].
  cbn [forallb] in Nl. apply andb_true_iff in Nl as [Ny Nl].
  apply negb_true_iff in Ny.
  cbn [insertSorted]. fold (isPositive (snd y - snd x)).
  rewrite (sub_positive_key _ _ Nx Ny).
  destruct (Z.ltb_spec (orderKey (snd x)) (orderKey (snd y))) as [L|G].
  - cbn [descending] in D |- *. apply andb_true_iff in D as [Dh Dt].
    rewrite (IH Nl Dt), andb_true_r.
    pose proof (insertSorted_head x tl) as H.
    destruct (insertSorted _ x tl) as [|h r]; [reflexivity|].
    destruct H as [->|[tl' ->]]; [|exact Dh].
    rewrite (ltb_key _ _ Ny Nx). apply negb_true_iff, Z.ltb_ge. lia.
  - cbn [descending] in D |- *. rewrite D, andb_true_r.
    rewrite (ltb_key _ _ Nx Ny). apply negb_true_iff, Z.ltb_ge. lia.
Qed.

(** Sorting by [b[1] - a[1]] puts totals that are numbers in descending
    order. *)
Lemma sort_descending l :
  forallb (fun e => negb (is_nan (snd e))) l = true ->
  descending (sort (fun a b => (snd b - snd a)%float) l) = true.
Proof.
  unfold sort. induction l as [|x l IH]; intros N; [reflexivity|].
  cbn [forallb] in N. apply andb_true_iff in N as [Nx Nl].
  apply negb_true_iff in Nx. cbn [fold_right].
  apply insertSorted_descending; [exact Nx| |now apply IH].
  apply forallb_forall. intros e I.
  rewrite forallb_forall in Nl. apply Nl.
  eapply Permutation_in; [apply sort_perm|exact I].
Qed.

(** No total is [NaN] when the amounts are finite, or not negative. *)
Lemma totals_not_nan l :
  finiteAmounts l \/ nonNegativeAmounts l ->
  forallb (fun e => negb (is_nan (snd e))) (totalsByCategory l) = true.
Proof.
  intros Hok. apply forallb_forall. intros [k v] I.
  destruct (totals_fold_keys l [] (NoDup_nil _)) as [N _].
  rewrite <- totalsByCategory_fold in N.
  apply (get_In _ k v N) in I. cbn [snd]. apply negb_true_iff.
  rewrite totalsByCategory_fold in I.
  destruct Hok as [Hfin|Hpos].
  - pose proof (totals_fold_get
                  (fun a => is_nan a = false)
                  (fun n => is_finite n = true)
                  eq_refl add_finite_not_nan (fun a H => H)
                  l [] k Hfin ltac:(discriminate)) as T.
    destruct (List.filter (hasKey k) l).
    + rewrite T in I. discriminate.
    + destruct T as (v' & G & Ok & _). congruence.
  - pose proof (totals_fold_get
                  (fun a => (0 <=? a)%float = true)
                  (fun n => (0 <=? n)%float = true)
                  eq_refl add_nonneg nonneg_not_nan
                  l [] k Hpos ltac:(discriminate)) as T.
    destruct (List.filter (hasKey k) l).
    + rewrite T in I. discriminate.
    + destruct T as (v' & G & Ok & _).
      rewrite G in I. injection I as <-. now apply nonneg_not_nan.
Qed.

End SortedRows.

(** X16.  The category rows come with the largest total first.  For records
    none of which counts under the name of a member of [Object.prototype]
    (the object of the code is then the object of the model, with a number
    under every key) and whose amounts are all finite, or none of them
    negative (which is all that [addExpense] lets into the table), no total
    is [NaN], so that the comparator of the sort is a consistent one, and
    the rows of the category list and of the legend are in descending order
    of total: no row has a total below the total of the row after it. *)
Theorem category_rows_descending
  (ToString : float -> string) (functionSource : string -> string)
  (l : list Row.t) :
  plainCategories l = true ->
  finiteAmounts l \/ nonNegativeAmounts l ->
  WithPrototype.totalsByCategory ToString functionSource l
  = WithPrototype.ofNumbers (totalsByCategory l)
  /\ forallb (fun e => negb (is_nan (snd e))) (totalsByCategory l) = true
  /\ descending (pieEntries (totalsByCategory l)) = true.
Proof.
  intros Hplain Hok. split; [now apply totalsByCategory_plain|].
  pose proof (totals_not_nan l Hok) as N. split; [exact N|].
  unfold pieEntries. apply sort_descending.
  apply forallb_forall. intros e I.
  rewrite forallb_forall in N.
  apply N. eapply Permutation_in; [apply entries_perm|exact I].
Qed.

Lemma category_rows_descending_witness :
  let l := [Row.make 4 (VNumber 2.5%float) (Some "Books"%string) None None;
            Row.make 3 (VNumber 10%float) (Some "Food"%string) None None;
            Row.make 2 (VString "abc") (Some "Rent"%string) None None;
            Row.make 1 (VNumber 5%float) (Some "Food"%string) None None] in
  (plainCategories l = true /\ (finiteAmounts l \/ nonNegativeAmounts l))
  /\ descending (pieEntries (totalsByCategory l)) = true
  /\ map fst (pieEntries (totalsByCategory l))
     = ["Food"%string; "Books"%string; "Rent"%string].
Proof.
  intros l.
  assert (P : plainCategories l = true) by reflexivity.
  assert (H : finiteAmounts l \/ nonNegativeAmounts l)
    by (left; repeat constructor).
  split; [split; [exact P|exact H]|]. split; [|reflexivity].
  apply (proj2 (proj2 (category_rows_descending
                         (fun _ => ""%string) (fun _ => ""%string) l P H))).
Defined.

(* ================================================================== *)
(** * The date that [addExpense] reformats *)
(* ================================================================== *)

Section PrintedDate.
Import JsString JsDate.

Lemma digitChar_digit d :
  0 <= d <= 9 ->
  isDigit (digitChar d) = true /\ digitValue (digitChar d) = d.
Proof.
  intros H.
  assert (C : d = 0 \/ d = 1 \/ d = 2 \/ d = 3 \/ d = 4 \/ d = 5 \/ d = 6
              \/ d = 7 \/ d = 8 \/ d = 9) by lia.
  destruct C as [C|[C|[C|[C|[C|[C|[C|[C|[C|C]]]]]]]]]; subst d;
    split; reflexivity.
Qed.

Lemma list_ascii_of_string_app (a b : string) :
  list_ascii_of_string (a ++ b)
  = list_ascii_of_string a ++ list_ascii_of_string b.
Proof. induction a as [|c a IH]; cbn; congruence. Qed.

Lemma list_padded w n : list_ascii_of_string (padded w n) = fixedDigits w n.
Proof. apply list_ascii_of_string_of_list_ascii. Qed.

Lemma DateFromTime_max t :
  DateFromTime t <= DaysInMonth (YearFromTime t) (MonthFromTime t).
Proof.
  pose proof (DayWithinYear_range t) as R.
  unfold DateFromTime, DaysInMonth, MonthFromTime, InLeapYear, DaysInYear in *.
  revert R. generalize (DayWithinYear t) as d. intros d R.
  destruct (isLeapYear (YearFromTime t)); unfold monthOfDayWithinYear;
    repeat match goal with
           | |- context [if ?a <? ?b then _ else _] =>
               destruct (Z.ltb_spec a b)
           end; cbn [Z.eqb Pos.eqb]; unfold firstDayOfMonth;
    cbn [Z.add Pos.add Pos.succ]; lia.
Qed.

(** The first ten characters that [toISOString] prints for a year of four
    digits are a date-only text, of the shape [dddd-dd-dd], for the day of
    the time value. *)
Lemma printed_date_parses t :
  0 <= YearFromTime t <= 9999 -> Z.abs t <= maxTime ->
  isoDatePattern (isoDateUTC t) = true
  /\ parseIsoDateOnly (isoDateUTC t) = Some (Day t * msPerDay).
Proof.
  intros Hy Ht.
  pose proof (MonthFromTime_range t) as Hm.
  pose proof (DateFromTime_min t) as Hd1.
  pose proof (DateFromTime_max t) as Hd2.
  assert (Hd3 : DateFromTime t <= 31).
  { revert Hd2. unfold DaysInMonth.
    generalize (MonthFromTime t) Hm. intros m Hm'.
    destruct (month_cases m Hm') as [C|[C|[C|[C|[C|[C|[C|[C|[C|[C|[C|C]]]]]]]]]]];
      subst m; destruct (isLeapYear (YearFromTime t)); cbn; lia. }
  set (y := YearFromTime t) in *. set (m := MonthFromTime t) in *.
  set (d := DateFromTime t) in *.
  assert (L : list_ascii_of_string (isoDateUTC t)
              = [digitChar (y / 1000 mod 10); digitChar (y / 100 mod 10);
                 digitChar (y / 10 mod 10); digitChar (y mod 10);
                 "-"%char;
                 digitChar ((m + 1) / 10 mod 10); digitChar ((m + 1) mod 10);
                 "-"%char;
                 digitChar (d / 10 mod 10); digitChar (d mod 10)]).
  { unfold isoDateUTC. fold y m d.
    rewrite !list_ascii_of_string_app, !list_padded.
    cbn [fixedDigits app list_ascii_of_string].
    replace (y / 10 / 10 / 10) with (y / 1000)
      by (Z.to_euclidean_division_equations; lia).
    replace (y / 10 / 10) with (y / 100)
      by (Z.to_euclidean_division_equations; lia).
    reflexivity. }
  assert (B : forall n, 0 <= n mod 10 <= 9)
    by (intros n; Z.to_euclidean_division_equations; lia).
  destruct (digitChar_digit _ (B (y / 1000))) as [Y1 V1].
  destruct (digitChar_digit _ (B (y / 100))) as [Y2 V2].
  destruct (digitChar_digit _ (B (y / 10))) as [Y3 V3].
  destruct (digitChar_digit _ (B y)) as [Y4 V4].
  destruct (digitChar_digit _ (B ((m + 1) / 10))) as [M1 W1].
  destruct (digitChar_digit _ (B (m + 1))) as [M2 W2].
  destruct (digitChar_digit _ (B (d / 10))) as [D1 X1].
  destruct (digitChar_digit _ (B d)) as [D2 X2].
  split.
  - unfold isoDatePattern. rewrite L, Y1, Y2, Y3, Y4, M1, M2, D1, D2.
    reflexivity.
  - unfold parseIsoDateOnly. rewrite L.
    destruct (digit_char _ Y1) as (_ & _ & Np & Nm). rewrite Np, Nm.
    cbn [orb List.length Z.of_nat firstn skipn].
    change (4 <=? Z.pos (Pos.of_succ_nat 9)) with true. cbv iota.
    destruct (padded_four _ _ _ _ Y1 Y2 Y3 Y4) as (Ry & _ & _).
    destruct (padded_two _ _ M1 M2) as (Rm & _).
    destruct (padded_two _ _ D1 D2) as (Rd & _).
    rewrite Ry. unfold parseMonthDay. cbn [isChar Ascii.eqb andb].
    change (Ascii.eqb "-" "-") with true. cbv iota.
    rewrite Rm, Rd, V1, V2, V3, V4, W1, W2, X1, X2.
    replace (10 * (10 * (10 * (10 * 0 + y / 1000 mod 10) + y / 100 mod 10)
                   + y / 10 mod 10) + y mod 10) with y
      by (Z.to_euclidean_division_equations; lia).
    replace (10 * (10 * 0 + (m + 1) / 10 mod 10) + (m + 1) mod 10)
      with (m + 1) by (Z.to_euclidean_division_equations; lia).
    replace (10 * (10 * 0 + d / 10 mod 10) + d mod 10) with d
      by (Z.to_euclidean_division_equations; lia).
    unfold utcMidnight. replace (m + 1 - 1) with m by lia.
    replace ((1 <=? m + 1) && (m + 1 <=? 12) && (1 <=? d)
             && (d <=? DaysInMonth y m)) with true
      by (symmetry; rewrite !andb_true_iff, !Z.leb_le; lia).
    pose proof (MakeDay_fields t 0) as F. fold y m d in F.
    rewrite !Z.add_0_r in F. rewrite F. unfold MakeDate.
    rewrite Z.add_0_r. apply TimeClip_in.
    unfold maxTime, Day, msPerDay in *.
    Z.to_euclidean_division_equations; lia.
Qed.

End PrintedDate.

(** X17.  A date that [addExpense] reformats is a day of the calendar.  When
    the date field holds a text that is not of the shape [dddd-dd-dd] and that
    parses, to a time whose UTC year has four digits, the date stored is of
    the shape [dddd-dd-dd] and reads back as midnight UTC of the same day: it
    writes the UTC day of the time parsed.  So the row shows it as it is
    stored, and storing it again leaves it as it is. *)
Theorem reformatted_date_is_calendar_date
  (hostDateParse : string -> option Z) (rawDate : string) (t : Z) :
  rawDate <> ""%string ->
  JsString.isoDatePattern rawDate = false ->
  Date_parse hostDateParse rawDate = Some t ->
  0 <= JsDate.YearFromTime t <= 9999 ->
  exists d,
    dateIso hostDateParse rawDate = Some d
    /\ JsString.isoDatePattern d = true
    /\ JsDate.parseIsoDateOnly d = Some (JsDate.Day t * JsDate.msPerDay)
    /\ calendarDate d = true
    /\ dateIso hostDateParse d = Some d
    /\ (forall item, Row.date item = Some d ->
                     isoDate hostDateParse item = Some d).
Proof.
  intros Hne Hp Ep Hy.
  pose proof (Date_parse_valid hostDateParse rawDate t Ep) as Ht.
  destruct (printed_date_parses t Hy Ht) as [P R].
  exists (isoDateUTC t).
  assert (C : calendarDate (isoDateUTC t) = true)
    by (unfold calendarDate; now rewrite P, R).
  assert (T : JsString.truthy (isoDateUTC t) = true)
    by (now apply isoDatePattern_truthy).
  split; [|split; [exact P|split; [exact R|split; [exact C|split]]]].
  - unfold dateIso. apply truthy_nonempty in Hne.
    rewrite Hne, Hp. unfold getTime. rewrite Ep.
    now rewrite slice_toISOString.
  - unfold dateIso. now rewrite T, P.
  - intros item E.
    destruct (calendarDate_parse hostDateParse _ C) as (_ & u & _ & Eu & Es).
    unfold isoDate. now rewrite E, T, Eu, Es.
Qed.

Lemma reformatted_date_is_calendar_date_witness :
  ("2024-03"%string <> ""%string
   /\ JsString.isoDatePattern "2024-03" = false
   /\ Date_parse (fun _ => None) "2024-03" = Some 1709251200000
   /\ 0 <= JsDate.YearFromTime 1709251200000 <= 9999)
  /\ dateIso (fun _ => None) "2024-03" = Some "2024-03-01"%string
  /\ exists d,
       dateIso (fun _ => None) "2024-03" = Some d
       /\ JsString.isoDatePattern d = true
       /\ JsDate.parseIsoDateOnly d
          = Some (JsDate.Day 1709251200000 * JsDate.msPerDay)
       /\ calendarDate d = true
       /\ dateIso (fun _ => None) d = Some d
       /\ (forall item, Row.date item = Some d ->
                        isoDate (fun _ => None) item = Some d).
Proof.
  assert (N : "2024-03"%string <> ""%string) by discriminate.
  assert (P : JsString.isoDatePattern "2024-03" = false) by reflexivity.
  assert (E : Date_parse (fun _ => None) "2024-03" = Some 1709251200000)
    by reflexivity.
  assert (Y : 0 <= JsDate.YearFromTime 1709251200000 <= 9999)
    by (vm_compute; split; discriminate).
  split; [split; [exact N|split; [exact P|split; [exact E|exact Y]]]|].
  split; [reflexivity|].
  apply (reformatted_date_is_calendar_date (fun _ => None) "2024-03"
           1709251200000 N P E Y).
Defined.

(* ================================================================== *)
(** * The two versions of the screen *)
(* ================================================================== *)


(* ================================================================== *)
(** * The windows and the time of day *)
(* ================================================================== *)

(** X19.  The time windows change at local midnight only.  Two clocks on the
    same local day select the same records, whatever the time filter: the week
    window and the month window depend on now through its local day alone. *)
Theorem windows_same_all_day
  (LocalTZA : Z) (hostDateParse : string -> option Z)
  (filter : string) (now now' : Z) (item : Row.t) :
  - JsDate.msPerDay < LocalTZA < JsDate.msPerDay ->
  Z.abs now <= maxTime -> Z.abs now' <= maxTime ->
  10963 <= localDay LocalTZA now ->
  localDay LocalTZA now' = localDay LocalTZA now ->
  inTimeWindow LocalTZA hostDateParse filter now' item
  = inTimeWindow LocalTZA hostDateParse filter now item.
Proof.
  intros Hz Hn Hn' Hd E.
  destruct (String.eqb_spec filter "week") as [->|Nw].
  - destruct (week_window_by_local_day LocalTZA hostDateParse now item
                Hz Hn Hd) as [W _].
    destruct (week_window_by_local_day LocalTZA hostDateParse now' item
                Hz Hn' ltac:(lia)) as [W' _].
    rewrite E in W'.
    destruct (inTimeWindow LocalTZA hostDateParse "week" now item);
      destruct (inTimeWindow LocalTZA hostDateParse "week" now' item);
      try reflexivity.
    + apply (proj2 W'), (proj1 W). reflexivity.
    + symmetry. apply (proj2 W), (proj1 W'). reflexivity.
  - unfold inTimeWindow. apply String.eqb_neq in Nw. rewrite Nw.
    destruct (String.eqb filter "all"); [reflexivity|].
    destruct (Row.date item) as [s|]; [|reflexivity].
    destruct (negb (JsString.truthy s)); [reflexivity|].
    destruct (getTime (Date_parse hostDateParse s)) as [t|]; [|reflexivity].
    destruct (String.eqb filter "month"); [|reflexivity].
    unfold getFullYear, getMonth, LocalTime. cbn [option_map].
    unfold localDay in E.
    destruct (year_month_of_day (now' + LocalTZA) (now + LocalTZA) E)
      as [-> ->].
    reflexivity.
Qed.

Lemma windows_same_all_day_witness :
  let item := Row.make 1 (VNumber 12.5%float) (Some "Food"%string) None
                (Some "2024-03-01"%string) in
  let morning := 1709802000000 in
  let evening := 1709845200000 in
  (- JsDate.msPerDay < 3600000 < JsDate.msPerDay
   /\ Z.abs morning <= maxTime /\ Z.abs evening <= maxTime
   /\ 10963 <= localDay 3600000 morning
   /\ localDay 3600000 evening = localDay 3600000 morning)
  /\ inTimeWindow 3600000 (fun _ => None) "week" evening item
     = inTimeWindow 3600000 (fun _ => None) "week" morning item.
Proof.
  intros item morning evening.
  assert (Hz : - JsDate.msPerDay < 3600000 < JsDate.msPerDay)
    by (unfold JsDate.msPerDay; lia).
  assert (Hm : Z.abs morning <= maxTime) by (unfold morning, maxTime; lia).
  assert (He : Z.abs evening <= maxTime) by (unfold evening, maxTime; lia).
  assert (Hd : 10963 <= localDay 3600000 morning)
    by (vm_compute; discriminate).
  assert (E : localDay 3600000 evening = localDay 3600000 morning)
    by reflexivity.
  split; [split; [exact Hz|split; [exact Hm|split; [exact He|
            split; [exact Hd|exact E]]]]|].
  apply (windows_same_all_day 3600000 (fun _ => None) "week" morning evening
           item Hz Hm He Hd E).
Defined.

(* ================================================================== *)
(** * The cleared form *)
(* ================================================================== *)

(** X20.  A cleared form stores nothing.  Once [addExpense] has stored a
    record and cleared the form, or once Cancel has been pressed, pressing the
    button of the form again is refused for its amount and leaves the table
    and the state as they are: a record is not stored twice, and nothing is
    stored after Cancel.  Cancel leaves edit mode, the table aside, and keeps
    the list and the two filters. *)
Theorem cleared_form_stores_nothing
  (hostDateParse : string -> option Z) (db : Db) (st : State.t) :
  (fst (fst (addExpense hostDateParse db st)) = Saved ->
   let db' := snd (fst (addExpense hostDateParse db st)) in
   let st' := snd (addExpense hostDateParse db st) in
   addExpense hostDateParse db' st' = (InvalidAmount, db', st'))
  /\ addExpense hostDateParse db (cancelOnPress st)
     = (InvalidAmount, db, cancelOnPress st)
  /\ cancelOnPress st
     = State.make (State.expenses st) "" "" "" ""
         (State.filter st) (State.categoryFilter st) None.
Proof.
  split; [|split; reflexivity].
  rewrite (addExpense_eq hostDateParse db st).
  destruct (isPositive _); [|discriminate].
  destruct (blank _); [discriminate|].
  intros _. reflexivity.
Qed.
